(** * HPPHelloTriangle: frame slots, semaphore pool and swapchain rebuild

    A shallow embedding of the frame cycle of
    [samples/api/hpp_hello_triangle/hpp_hello_triangle.cpp]:
    [update], [resize], [acquire_next_image], [create_swapchain],
    [init_framebuffers], [init_swapchain], [render_triangle],
    [teardown_framebuffers] and [teardown_per_frame].

    The member functions mutate the sample object and talk to the Vulkan
    driver.  Both are made explicit: a [World] carries the members the
    functions read or write together with the list of driver calls issued
    so far, and a [Driver] supplies what the driver answers to each call,
    as a function of that history.  An access outside a [std::vector], and
    a failed [assert], have no defined continuation: the computation yields
    [None].  Driver calls are taken to return: a call that fails by throwing
    ends the frame cycle and is outside this model.

    A second part embeds the functions that run before the first frame and
    after the last: [validate_extensions], [create_instance],
    [select_physical_device_and_surface], [create_device] and the
    destructor.  What the instance, the physical devices and the window
    answer is passed in as arguments; an exception the sample throws itself
    is an outcome of its own. *)

From Stdlib Require Import String.
From stdpp Require Import base numbers list.

Local Open Scope N_scope.

(** ** Vulkan data *)

(** A Vulkan handle; [VK_NULL_HANDLE] is [0], and a handle converts to
    [true] exactly when it is not null. *)
Abbreviation Handle := N (only parsing).
Definition VK_NULL_HANDLE : Handle := 0.
Definition is_set (h : Handle) : bool := negb (h =? VK_NULL_HANDLE).

(** [uint32_t] and [uint64_t] values are naturals below the modulus; the
    one addition of the source that can wrap is written with [add32]. *)
Definition UINT32_MAX : N := 0xFFFFFFFF.
Definition UINT64_MAX : N := 0xFFFFFFFFFFFFFFFF.
Definition add32 (a b : N) : N := (a + b) mod 2 ^ 32.

(** The result codes [vkAcquireNextImageKHR] and [vkQueuePresentKHR] can
    return. *)
Inductive Result :=
| eSuccess
| eNotReady
| eTimeout
| eSuboptimalKHR
| eErrorOutOfDateKHR
| eErrorOutOfHostMemory
| eErrorOutOfDeviceMemory
| eErrorDeviceLost
| eErrorSurfaceLostKHR
| eErrorFullScreenExclusiveModeLostEXT.

Global Instance Result_eq_dec : EqDecision Result.
Proof. solve_decision. Defined.

Record Extent2D := { width : N; height : N }.

Global Instance Extent2D_eq_dec : EqDecision Extent2D.
Proof. solve_decision. Defined.

(** The special value of [currentExtent]: the surface size is determined
    by the swapchain. *)
Definition undefined_extent : Extent2D :=
  {| width := UINT32_MAX; height := UINT32_MAX |}.

Record SurfaceCapabilitiesKHR := {
  minImageCount : N;
  maxImageCount : N;
  currentExtent : Extent2D;
  supportedTransforms : N;
  currentTransform : N;
  supportedCompositeAlpha : N
}.

Record SurfaceFormatKHR := { sf_format : N; sf_colorSpace : N }.

(** Flag bits and enumerators used by [create_swapchain]. *)
Definition SurfaceTransform_eIdentity : N := 0x1.
Definition CompositeAlpha_eOpaque : N := 0x1.
Definition CompositeAlpha_ePreMultiplied : N := 0x2.
Definition CompositeAlpha_ePostMultiplied : N := 0x4.
Definition CompositeAlpha_eInherit : N := 0x8.
Definition PresentMode_eFifo : N := 2.
Definition ImageUsage_eColorAttachment : N := 0x10.
Definition SharingMode_eExclusive : N := 0.
Definition PIPELINE_STAGE_COLOR_ATTACHMENT_OUTPUT_BIT : N := 0x400.

Record SwapchainCreateInfoKHR := {
  ci_surface : Handle;
  ci_minImageCount : N;
  ci_imageFormat : N;
  ci_imageColorSpace : N;
  ci_imageExtent : Extent2D;
  ci_imageArrayLayers : N;
  ci_imageUsage : N;
  ci_imageSharingMode : N;
  ci_preTransform : N;
  ci_compositeAlpha : N;
  ci_presentMode : N;
  ci_clipped : bool;
  ci_oldSwapchain : Handle
}.

(** ** The sample's own data *)

(** [HPPHelloTriangle::FrameData], with the fields the source uses. *)
Record FrameData := {
  queue_submit_fence : Handle;
  primary_command_pool : Handle;
  primary_command_buffer : Handle;
  swapchain_acquire_semaphore : Handle;
  swapchain_release_semaphore : Handle
}.

(** A value-initialised [FrameData]: every handle null. *)
Definition FrameData_null : FrameData :=
  {| queue_submit_fence := VK_NULL_HANDLE;
     primary_command_pool := VK_NULL_HANDLE;
     primary_command_buffer := VK_NULL_HANDLE;
     swapchain_acquire_semaphore := VK_NULL_HANDLE;
     swapchain_release_semaphore := VK_NULL_HANDLE |}.

(** [HPPHelloTriangle::SwapchainData]. *)
Record SwapchainData := {
  swapchain : Handle;
  extent : Extent2D;
  format : N;
  image_views : list Handle;
  framebuffers : list Handle
}.

(** The members of [HPPHelloTriangle] that the frame cycle reads or
    writes.  Vectors are lists in index order: [push_back] appends at the
    end and [back] is the last element. *)
Record HPPHelloTriangle := {
  gpu : Handle;
  surface : Handle;
  device : Handle;
  queue : Handle;
  graphics_queue_index : N;
  swapchain_data : SwapchainData;
  per_frame_data : list FrameData;
  recycled_semaphores : list Handle;
  render_pass : Handle;
  pipeline : Handle
}.

(** ** Driver calls *)

(** One constructor per call the modelled functions issue, with the
    arguments passed and, for calls that return something, the value
    returned. *)
Inductive Call :=
| GetSurfaceCapabilitiesKHR (gpu surface : Handle) (caps : SurfaceCapabilitiesKHR)
| SelectSurfaceFormat (gpu surface : Handle) (fmt : SurfaceFormatKHR)
| CreateSwapchainKHR (info : SwapchainCreateInfoKHR) (created : Handle)
| GetSwapchainImagesKHR (swapchain : Handle) (images : list Handle)
| DestroySwapchainKHR (swapchain : Handle)
| CreateImageView (image : Handle) (format : N) (created : Handle)
| DestroyImageView (view : Handle)
| CreateFramebuffer (render_pass view : Handle) (extent : Extent2D) (created : Handle)
| DestroyFramebuffer (framebuffer : Handle)
| CreateFence (signaled : bool) (created : Handle)
| WaitForFences (fence : Handle) (wait_all : bool) (timeout : N)
| ResetFences (fence : Handle)
| DestroyFence (fence : Handle)
| CreateCommandPool (transient : bool) (queue_family : N) (created : Handle)
| ResetCommandPool (pool : Handle)
| DestroyCommandPool (pool : Handle)
| AllocateCommandBuffer (pool : Handle) (created : Handle)
| FreeCommandBuffers (pool buffer : Handle)
| CreateSemaphore (created : Handle)
| DestroySemaphore (semaphore : Handle)
| AcquireNextImageKHR (swapchain : Handle) (timeout : N) (semaphore : Handle)
    (res : Result) (image : N)
| CmdBegin (cmd : Handle) (one_time_submit : bool)
| CmdBeginRenderPass (cmd render_pass framebuffer : Handle) (area : Extent2D)
| CmdBindPipeline (cmd pipeline : Handle)
| CmdSetViewport (cmd : Handle) (area : Extent2D)
| CmdSetScissor (cmd : Handle) (area : Extent2D)
| CmdDraw (cmd : Handle) (vertices instances first_vertex first_instance : N)
| CmdEndRenderPass (cmd : Handle)
| CmdEnd (cmd : Handle)
| QueueSubmit (wait_semaphore : Handle) (wait_stage : N) (cmd : Handle)
    (signal_semaphore fence : Handle)
| QueuePresentKHR (wait_semaphore swapchain : Handle) (index : N) (res : Result)
| QueueWaitIdle
| DeviceWaitIdle
| LogError (message : string).

(** What the driver answers, given the calls it has received so far. *)
Record Driver := {
  drv_surface_capabilities : list Call → SurfaceCapabilitiesKHR;
  drv_surface_format : list Call → SurfaceFormatKHR;
  drv_new_handle : list Call → Handle;
  drv_swapchain_images : list Call → Handle → list Handle;
  drv_acquire : list Call → Result * N;
  drv_present : list Call → Result
}.

(** ** The computation monad *)

Record World := { app : HPPHelloTriangle; calls : list Call }.

Definition M (A : Type) : Type := World → option (A * World).

Global Instance M_ret : MRet M := λ A a w, Some (a, w).
Global Instance M_bind : MBind M := λ A B f m w,
  match m w with
  | Some (a, w') => f a w'
  | None => None
  end.

Definition undefined {A} : M A := λ _, None.
Definition this : M HPPHelloTriangle := λ w, Some (app w, w).
Definition history : M (list Call) := λ w, Some (calls w, w).
Definition modify (f : HPPHelloTriangle → HPPHelloTriangle) : M unit :=
  λ w, Some (tt, {| app := f (app w); calls := calls w |}).
Definition emit (c : Call) : M unit :=
  λ w, Some (tt, {| app := app w; calls := calls w ++ [c] |}).
Definition when (b : bool) (m : M unit) : M unit := if b then m else mret tt.

Fixpoint for_each {A} (f : A → M unit) (l : list A) : M unit :=
  match l with
  | [] => mret tt
  | x :: l' => f x ;; for_each f l'
  end.

(** Member updates. *)
Definition set_swapchain_data (sd : SwapchainData) (a : HPPHelloTriangle) :=
  {| gpu := gpu a; surface := surface a; device := device a; queue := queue a;
     graphics_queue_index := graphics_queue_index a;
     swapchain_data := sd;
     per_frame_data := per_frame_data a;
     recycled_semaphores := recycled_semaphores a;
     render_pass := render_pass a; pipeline := pipeline a |}.

Definition set_per_frame_data (pfd : list FrameData) (a : HPPHelloTriangle) :=
  {| gpu := gpu a; surface := surface a; device := device a; queue := queue a;
     graphics_queue_index := graphics_queue_index a;
     swapchain_data := swapchain_data a;
     per_frame_data := pfd;
     recycled_semaphores := recycled_semaphores a;
     render_pass := render_pass a; pipeline := pipeline a |}.

Definition set_recycled_semaphores (l : list Handle) (a : HPPHelloTriangle) :=
  {| gpu := gpu a; surface := surface a; device := device a; queue := queue a;
     graphics_queue_index := graphics_queue_index a;
     swapchain_data := swapchain_data a;
     per_frame_data := per_frame_data a;
     recycled_semaphores := l;
     render_pass := render_pass a; pipeline := pipeline a |}.

Definition set_swapchain (h : Handle) (sd : SwapchainData) :=
  {| swapchain := h; extent := extent sd; format := format sd;
     image_views := image_views sd; framebuffers := framebuffers sd |}.

Definition set_extent_format (e : Extent2D) (f : N) (sd : SwapchainData) :=
  {| swapchain := swapchain sd; extent := e; format := f;
     image_views := image_views sd; framebuffers := framebuffers sd |}.

Definition set_image_views (l : list Handle) (sd : SwapchainData) :=
  {| swapchain := swapchain sd; extent := extent sd; format := format sd;
     image_views := l; framebuffers := framebuffers sd |}.

Definition set_framebuffers (l : list Handle) (sd : SwapchainData) :=
  {| swapchain := swapchain sd; extent := extent sd; format := format sd;
     image_views := image_views sd; framebuffers := l |}.

Definition set_acquire_semaphore (h : Handle) (pfd : FrameData) :=
  {| queue_submit_fence := queue_submit_fence pfd;
     primary_command_pool := primary_command_pool pfd;
     primary_command_buffer := primary_command_buffer pfd;
     swapchain_acquire_semaphore := h;
     swapchain_release_semaphore := swapchain_release_semaphore pfd |}.

Definition set_release_semaphore (h : Handle) (pfd : FrameData) :=
  {| queue_submit_fence := queue_submit_fence pfd;
     primary_command_pool := primary_command_pool pfd;
     primary_command_buffer := primary_command_buffer pfd;
     swapchain_acquire_semaphore := swapchain_acquire_semaphore pfd;
     swapchain_release_semaphore := h |}.

(** [per_frame_data[i]], read and written. *)
Definition frame (i : nat) : M FrameData :=
  a ← this;
  match per_frame_data a !! i with
  | Some pfd => mret pfd
  | None => undefined
  end.

Definition set_frame (i : nat) (pfd : FrameData) : M unit :=
  modify (λ a, set_per_frame_data (<[i := pfd]> (per_frame_data a)) a).

(** ** Frame-slot teardown *)

(** [HPPHelloTriangle::teardown_per_frame].  The slot is passed by
    reference in the source; here the torn-down slot is returned and the
    caller stores it back. *)
Definition teardown_per_frame (per_frame_data : FrameData) : M FrameData :=
  let fence := queue_submit_fence per_frame_data in
  fence ← (if is_set fence
           then emit (DestroyFence fence) ;; mret VK_NULL_HANDLE
           else mret fence);
  let pool := primary_command_pool per_frame_data in
  let buffer := primary_command_buffer per_frame_data in
  buffer ← (if is_set buffer
            then emit (FreeCommandBuffers pool buffer) ;; mret VK_NULL_HANDLE
            else mret buffer);
  pool ← (if is_set pool
          then emit (DestroyCommandPool pool) ;; mret VK_NULL_HANDLE
          else mret pool);
  let acquire := swapchain_acquire_semaphore per_frame_data in
  acquire ← (if is_set acquire
             then emit (DestroySemaphore acquire) ;; mret VK_NULL_HANDLE
             else mret acquire);
  let release := swapchain_release_semaphore per_frame_data in
  release ← (if is_set release
             then emit (DestroySemaphore release) ;; mret VK_NULL_HANDLE
             else mret release);
  mret {| queue_submit_fence := fence;
          primary_command_pool := pool;
          primary_command_buffer := buffer;
          swapchain_acquire_semaphore := acquire;
          swapchain_release_semaphore := release |}.

Section Sample.

Context (drv : Driver).

(** ** Calls into the driver *)

Definition getSurfaceCapabilitiesKHR : M SurfaceCapabilitiesKHR :=
  a ← this;
  h ← history;
  let caps := drv_surface_capabilities drv h in
  emit (GetSurfaceCapabilitiesKHR (gpu a) (surface a) caps) ;;
  mret caps.

Definition select_surface_format : M SurfaceFormatKHR :=
  a ← this;
  h ← history;
  let fmt := drv_surface_format drv h in
  emit (SelectSurfaceFormat (gpu a) (surface a) fmt) ;;
  mret fmt.

(** Every [create*] and [allocate*] call returns the handle the driver
    hands out; [mk] records the call with that handle. *)
Definition create (mk : Handle → Call) : M Handle :=
  h ← history;
  let created := drv_new_handle drv h in
  emit (mk created) ;;
  mret created.

Definition getSwapchainImagesKHR (sc : Handle) : M (list Handle) :=
  h ← history;
  let images := drv_swapchain_images drv h sc in
  emit (GetSwapchainImagesKHR sc images) ;;
  mret images.

Definition acquireNextImageKHR (sc : Handle) (timeout : N) (semaphore : Handle)
  : M (Result * N) :=
  h ← history;
  let r := drv_acquire drv h in
  emit (AcquireNextImageKHR sc timeout semaphore r.1 r.2) ;;
  mret r.

Definition presentKHR (wait_semaphore sc : Handle) (index : N) : M Result :=
  h ← history;
  let res := drv_present drv h in
  emit (QueuePresentKHR wait_semaphore sc index res) ;;
  mret res.

(** ** The semaphore pool *)

(** Lines 250-259 of the source: take the last pooled semaphore, or create
    one when [recycled_semaphores] is empty. *)
Definition pool_acquire : M Handle :=
  a ← this;
  match last (recycled_semaphores a) with
  | None => create CreateSemaphore
  | Some semaphore =>
      modify (set_recycled_semaphores (removelast (recycled_semaphores a))) ;;
      mret semaphore
  end.

(** [recycled_semaphores.push_back(semaphore)]. *)
Definition pool_release (semaphore : Handle) : M unit :=
  modify (λ a, set_recycled_semaphores (recycled_semaphores a ++ [semaphore]) a).

(** ** Acquiring an image *)

(** [HPPHelloTriangle::acquire_next_image]. *)
Definition acquire_next_image : M (Result * N) :=
  acquire_semaphore ← pool_acquire;
  a ← this;
  r ← acquireNextImageKHR (swapchain (swapchain_data a)) UINT64_MAX acquire_semaphore;
  let res := r.1 in
  let image := r.2 in
  if negb (bool_decide (res = eSuccess)) then
    pool_release acquire_semaphore ;;
    mret (res, image)
  else
    pfd ← frame (N.to_nat image);
    when (is_set (queue_submit_fence pfd))
      (emit (WaitForFences (queue_submit_fence pfd) true UINT64_MAX) ;;
       emit (ResetFences (queue_submit_fence pfd))) ;;
    when (is_set (primary_command_pool pfd))
      (emit (ResetCommandPool (primary_command_pool pfd))) ;;
    let old_semaphore := swapchain_acquire_semaphore pfd in
    when (is_set old_semaphore) (pool_release old_semaphore) ;;
    set_frame (N.to_nat image) (set_acquire_semaphore acquire_semaphore pfd) ;;
    mret (eSuccess, image).

(** ** Building the swapchain *)

Definition has_flag (flags bit : N) : bool := negb (N.land flags bit =? 0).

(** The image count [create_swapchain] asks for. *)
Definition desired_swapchain_images (surface_properties : SurfaceCapabilitiesKHR) : N :=
  let desired := add32 (minImageCount surface_properties) 1 in
  if (0 <? maxImageCount surface_properties)
     && (maxImageCount surface_properties <? desired)
  then maxImageCount surface_properties
  else desired.

(** [HPPHelloTriangle::create_swapchain]. *)
Definition create_swapchain (swapchain_extent : Extent2D)
    (surface_format : SurfaceFormatKHR) (old_swapchain : Handle) : M Handle :=
  surface_properties ← getSurfaceCapabilitiesKHR;
  let pre_transform :=
    if has_flag (supportedTransforms surface_properties) SurfaceTransform_eIdentity
    then SurfaceTransform_eIdentity
    else currentTransform surface_properties in
  let supported := supportedCompositeAlpha surface_properties in
  let composite :=
    if has_flag supported CompositeAlpha_eOpaque then CompositeAlpha_eOpaque
    else if has_flag supported CompositeAlpha_eInherit then CompositeAlpha_eInherit
    else if has_flag supported CompositeAlpha_ePreMultiplied then CompositeAlpha_ePreMultiplied
    else if has_flag supported CompositeAlpha_ePostMultiplied then CompositeAlpha_ePostMultiplied
    else CompositeAlpha_eOpaque in
  a ← this;
  create (CreateSwapchainKHR
    {| ci_surface := surface a;
       ci_minImageCount := desired_swapchain_images surface_properties;
       ci_imageFormat := sf_format surface_format;
       ci_imageColorSpace := sf_colorSpace surface_format;
       ci_imageExtent := swapchain_extent;
       ci_imageArrayLayers := 1;
       ci_imageUsage := ImageUsage_eColorAttachment;
       ci_imageSharingMode := SharingMode_eExclusive;
       ci_preTransform := pre_transform;
       ci_compositeAlpha := composite;
       ci_presentMode := PresentMode_eFifo;
       ci_clipped := true;
       ci_oldSwapchain := old_swapchain |}).

(** [HPPHelloTriangle::init_framebuffers]; the [assert] stops the program
    when framebuffers are still present. *)
Definition init_framebuffers : M unit :=
  a ← this;
  match framebuffers (swapchain_data a) with
  | _ :: _ => undefined
  | [] =>
      for_each (λ image_view,
        a ← this;
        fb ← create (CreateFramebuffer (render_pass a) image_view
                       (extent (swapchain_data a)));
        modify (λ a, set_swapchain_data
          (set_framebuffers (framebuffers (swapchain_data a) ++ [fb])
             (swapchain_data a)) a))
        (image_views (swapchain_data a))
  end.

(** [teardown_per_frame(per_frame_data[i])]. *)
Definition teardown_frame (i : nat) : M unit :=
  pfd ← frame i;
  pfd ← teardown_per_frame pfd;
  set_frame i pfd.

(** The extent [init_swapchain] builds with: the reported one, unless its
    width is [0xFFFFFFFF]. *)
Definition choose_extent (surface_properties : SurfaceCapabilitiesKHR)
    (stored : Extent2D) : Extent2D :=
  if width (currentExtent surface_properties) =? UINT32_MAX
  then stored
  else currentExtent surface_properties.

(** The body of [if (old_swapchain)] in [init_swapchain]: the old image
    views, the frame slots of the old images and the old swapchain go. *)
Definition retire_old_swapchain (old_swapchain : Handle) : M unit :=
  a ← this;
  for_each (λ image_view, emit (DestroyImageView image_view))
    (image_views (swapchain_data a)) ;;
  images ← getSwapchainImagesKHR old_swapchain;
  let image_count := length images in
  for_each teardown_frame (seq 0 image_count) ;;
  modify (λ a, set_swapchain_data (set_image_views [] (swapchain_data a)) a) ;;
  emit (DestroySwapchainKHR old_swapchain).

(** "Initialize per-frame resources" in [init_swapchain]: [image_count]
    fresh slots, each given a signaled fence, a command pool and a command
    buffer. *)
Definition init_per_frame (image_count : nat) : M unit :=
  modify (set_per_frame_data (replicate image_count FrameData_null)) ;;
  for_each (λ i,
    pfd ← frame i;
    a ← this;
    fence ← create (CreateFence true);
    pool ← create (CreateCommandPool true (graphics_queue_index a));
    buffer ← create (AllocateCommandBuffer pool);
    set_frame i
      {| queue_submit_fence := fence;
         primary_command_pool := pool;
         primary_command_buffer := buffer;
         swapchain_acquire_semaphore := swapchain_acquire_semaphore pfd;
         swapchain_release_semaphore := swapchain_release_semaphore pfd |})
    (seq 0 image_count).

(** The last loop of [init_swapchain]: one view per swapchain image,
    pushed onto [swapchain_data.image_views]. *)
Definition create_image_views (swapchain_images : list Handle) : M unit :=
  for_each (λ image,
    a ← this;
    view ← create (CreateImageView image (format (swapchain_data a)));
    modify (λ a, set_swapchain_data
      (set_image_views (image_views (swapchain_data a) ++ [view])
         (swapchain_data a)) a))
    swapchain_images.

(** [HPPHelloTriangle::init_swapchain]. *)
Definition init_swapchain : M unit :=
  surface_properties ← getSurfaceCapabilitiesKHR;
  a ← this;
  let swapchain_extent := choose_extent surface_properties (extent (swapchain_data a)) in
  surface_format ← select_surface_format;
  let old_swapchain := swapchain (swapchain_data a) in
  new_swapchain ← create_swapchain swapchain_extent surface_format old_swapchain;
  modify (λ a, set_swapchain_data (set_swapchain new_swapchain (swapchain_data a)) a) ;;
  when (is_set old_swapchain) (retire_old_swapchain old_swapchain) ;;
  modify (λ a, set_swapchain_data
    (set_extent_format swapchain_extent (sf_format surface_format) (swapchain_data a)) a) ;;
  swapchain_images ← getSwapchainImagesKHR new_swapchain;
  init_per_frame (length swapchain_images) ;;
  create_image_views swapchain_images.

(** [HPPHelloTriangle::teardown_framebuffers]. *)
Definition teardown_framebuffers : M unit :=
  emit QueueWaitIdle ;;
  a ← this;
  for_each (λ framebuffer, emit (DestroyFramebuffer framebuffer))
    (framebuffers (swapchain_data a)) ;;
  modify (λ a, set_swapchain_data (set_framebuffers [] (swapchain_data a)) a).

(** ** Rendering, resizing and the frame update *)

(** [HPPHelloTriangle::render_triangle]. *)
Definition render_triangle (swapchain_index : N) : M unit :=
  let i := N.to_nat swapchain_index in
  a ← this;
  match framebuffers (swapchain_data a) !! i with
  | None => undefined
  | Some framebuffer =>
      pfd ← frame i;
      let cmd := primary_command_buffer pfd in
      let area := extent (swapchain_data a) in
      emit (CmdBegin cmd true) ;;
      emit (CmdBeginRenderPass cmd (render_pass a) framebuffer area) ;;
      emit (CmdBindPipeline cmd (pipeline a)) ;;
      emit (CmdSetViewport cmd area) ;;
      emit (CmdSetScissor cmd area) ;;
      emit (CmdDraw cmd 3 1 0 0) ;;
      emit (CmdEndRenderPass cmd) ;;
      emit (CmdEnd cmd) ;;
      when (negb (is_set (swapchain_release_semaphore pfd)))
        (release ← create CreateSemaphore;
         set_frame i (set_release_semaphore release pfd)) ;;
      pfd ← frame i;
      emit (QueueSubmit (swapchain_acquire_semaphore pfd)
              PIPELINE_STAGE_COLOR_ATTACHMENT_OUTPUT_BIT cmd
              (swapchain_release_semaphore pfd) (queue_submit_fence pfd))
  end.

(** [HPPHelloTriangle::resize]; the two parameters are unnamed in the
    source. *)
Definition resize (_ _ : N) : M bool :=
  a ← this;
  if negb (is_set (device a)) then mret false
  else
    surface_properties ← getSurfaceCapabilitiesKHR;
    if bool_decide (currentExtent surface_properties = extent (swapchain_data a))
    then mret false
    else
      emit DeviceWaitIdle ;;
      teardown_framebuffers ;;
      init_swapchain ;;
      init_framebuffers ;;
      mret true.

Definition stale (res : Result) : bool :=
  bool_decide (res = eSuboptimalKHR) || bool_decide (res = eErrorOutOfDateKHR).

(** [resize(swapchain_data.extent.width, swapchain_data.extent.height)]. *)
Definition resize_to_stored_extent : M bool :=
  a ← this;
  resize (width (extent (swapchain_data a))) (height (extent (swapchain_data a))).

(** The head of [update]: acquire, and after a suboptimal or out-of-date
    result resize and acquire once more. *)
Definition acquire_with_retry : M (Result * N) :=
  r ← acquire_next_image;
  if stale r.1
  then resize_to_stored_extent ;; acquire_next_image
  else mret r.

(** The tail of [update], from "Present swapchain image" on. *)
Definition present_frame (index : N) : M unit :=
  pfd ← frame (N.to_nat index);
  a ← this;
  res ← presentKHR (swapchain_release_semaphore pfd)
          (swapchain (swapchain_data a)) index;
  if stale res then
    resize_to_stored_extent ;; mret tt
  else if negb (bool_decide (res = eSuccess)) then
    emit (LogError "Failed to present swapchain image."%string)
  else mret tt.

(** [HPPHelloTriangle::update]; its [delta_time] is not used. *)
Definition update : M unit :=
  r ← acquire_with_retry;
  let res := r.1 in
  let index := r.2 in
  if negb (bool_decide (res = eSuccess)) then
    emit QueueWaitIdle
  else
    render_triangle index ;;
    present_frame index.

End Sample.

(** * Vocabulary of the properties *)

Local Open Scope nat_scope.

(** ** Calls of a slot *)

(** The call [c], issued only for a handle that is not null. *)
Definition if_set (h : Handle) (c : Call) : list Call :=
  if is_set h then [c] else [].

(** The destructions a slot asks for: fence, command buffer, command pool,
    acquire semaphore, release semaphore, each only when present. *)
Definition teardown_calls (pfd : FrameData) : list Call :=
  if_set (queue_submit_fence pfd) (DestroyFence (queue_submit_fence pfd)) ++
  if_set (primary_command_buffer pfd)
    (FreeCommandBuffers (primary_command_pool pfd) (primary_command_buffer pfd)) ++
  if_set (primary_command_pool pfd) (DestroyCommandPool (primary_command_pool pfd)) ++
  if_set (swapchain_acquire_semaphore pfd)
    (DestroySemaphore (swapchain_acquire_semaphore pfd)) ++
  if_set (swapchain_release_semaphore pfd)
    (DestroySemaphore (swapchain_release_semaphore pfd)).

(** The old acquire semaphore of a slot, as a list: empty when absent. *)
Definition displaced (pfd : FrameData) : list Handle :=
  if is_set (swapchain_acquire_semaphore pfd)
  then [swapchain_acquire_semaphore pfd]
  else [].

(** The calls [acquire_next_image] issues for a slot after a successful
    acquire. *)
Definition slot_reuse_calls (pfd : FrameData) : list Call :=
  (if is_set (queue_submit_fence pfd)
   then [WaitForFences (queue_submit_fence pfd) true UINT64_MAX;
         ResetFences (queue_submit_fence pfd)]
   else []) ++
  if_set (primary_command_pool pfd) (ResetCommandPool (primary_command_pool pfd)).

(** ** The pool *)

(** [n] successive runs of [m], results in order. *)
Fixpoint repeat_m {A} (n : nat) (m : M A) : M (list A) :=
  match n with
  | O => mret []
  | S n' => x ← m; xs ← repeat_m n' m; mret (x :: xs)
  end.

(** The handles of a list that are not null. *)
Definition live (l : list Handle) : list Handle :=
  filter (λ h, h ≠ VK_NULL_HANDLE) l.

(** The acquire semaphores the sample holds: those in the pool and those
    bound to a slot. *)
Definition held_semaphores (a : HPPHelloTriangle) : list Handle :=
  live (recycled_semaphores a ++ (swapchain_acquire_semaphore <$> per_frame_data a)).

(** ** Call histories *)

Definition is_swapchain_creation (c : Call) : bool :=
  match c with CreateSwapchainKHR _ _ => true | _ => false end.

Definition is_acquire (c : Call) : bool :=
  match c with AcquireNextImageKHR _ _ _ _ _ => true | _ => false end.

Definition is_submit (c : Call) : bool :=
  match c with QueueSubmit _ _ _ _ _ => true | _ => false end.

Definition is_present (c : Call) : bool :=
  match c with QueuePresentKHR _ _ _ _ => true | _ => false end.

(** Calls that neither create a swapchain nor acquire, submit or present. *)
Definition quiet (c : Call) : bool :=
  negb (is_swapchain_creation c || is_acquire c || is_submit c || is_present c).

(** How many calls of [l] satisfy [p]. *)
Fixpoint count (p : Call → bool) (l : list Call) : nat :=
  match l with
  | [] => 0
  | c :: l' => (if p c then 1 else 0) + count p l'
  end.

(** [w'] continues [w] with quiet calls only. *)
Definition quietly (w w' : World) : Prop :=
  ∃ d, calls w' = calls w ++ d ∧ forallb quiet d = true.

(** [w'] has the same value as [w] for the member [π]. *)
Definition keeps {X} (π : HPPHelloTriangle → X) (w w' : World) : Prop :=
  π (app w') = π (app w).

(** What the loops of [init_swapchain] leave alone: the stored extent, the
    framebuffers, the swapchain handle, the pool and the device. *)
Definition housekeeping (w w' : World) : Prop :=
  quietly w w' ∧
  keeps (λ a, extent (swapchain_data a)) w w' ∧
  keeps (λ a, framebuffers (swapchain_data a)) w w' ∧
  keeps (λ a, swapchain (swapchain_data a)) w w' ∧
  keeps recycled_semaphores w w' ∧
  keeps device w w'.

(** What building the framebuffers leaves alone. *)
Definition framing (w w' : World) : Prop :=
  quietly w w' ∧
  keeps (λ a, extent (swapchain_data a)) w w' ∧
  keeps (λ a, swapchain (swapchain_data a)) w w' ∧
  keeps (λ a, image_views (swapchain_data a)) w w' ∧
  keeps per_frame_data w w' ∧
  keeps recycled_semaphores w w'.

Section Vocabulary.

Context (drv : Driver).

(** The acquire call issued in state [w0] with [semaphore], as the driver
    answers it. *)
Definition acquire_call (w0 : World) (semaphore : Handle) : Call :=
  AcquireNextImageKHR (swapchain (swapchain_data (app w0))) UINT64_MAX semaphore
    (drv_acquire drv (calls w0)).1 (drv_acquire drv (calls w0)).2.

(** The semaphores a call may add to those held: the one it created, when
    the pool was empty. *)
Definition allocated (w : World) : list Handle :=
  match recycled_semaphores (app w) with
  | [] => live [drv_new_handle drv (calls w)]
  | _ :: _ => []
  end.

(** The old swapchain, when there is one, has no more images than there
    are frame slots. *)
Definition slots_cover_images (w : World) : Prop :=
  is_set (swapchain (swapchain_data (app w))) = true →
  ∀ tr, length (drv_swapchain_images drv tr (swapchain (swapchain_data (app w))))
        ≤ length (per_frame_data (app w)).

(** The calls issued when the [init_swapchain] of a rebuilding [resize]
    asks the surface for its capabilities: [resize] has asked once itself
    and waited for the device, and [teardown_framebuffers] has waited for
    the queue and destroyed the framebuffers. *)
Definition history_at_rebuild (w : World) : list Call :=
  calls w ++
  [GetSurfaceCapabilitiesKHR (gpu (app w)) (surface (app w))
     (drv_surface_capabilities drv (calls w));
   DeviceWaitIdle; QueueWaitIdle] ++
  (DestroyFramebuffer <$> framebuffers (swapchain_data (app w))).

(** [resize] rebuilds exactly when the device exists and the surface
    reports an extent other than the stored one. *)
Definition extent_changed (w : World) : bool :=
  is_set (device (app w)) &&
  negb (bool_decide (currentExtent (drv_surface_capabilities drv (calls w))
                     = extent (swapchain_data (app w)))).

End Vocabulary.

(** ** A concrete frame *)

Local Open Scope N_scope.

Definition extent_800x600 : Extent2D := {| width := 800; height := 600 |}.
Definition extent_1024x768 : Extent2D := {| width := 1024; height := 768 |}.

Definition surface_report (reported : Extent2D) : SurfaceCapabilitiesKHR :=
  {| minImageCount := 2; maxImageCount := 0; currentExtent := reported;
     supportedTransforms := 1; currentTransform := 1; supportedCompositeAlpha := 1 |}.

(** A driver that always reports the extent [reported], answers the n-th
    acquire with the n-th entry of [acquires], answers every present with
    [present], gives every swapchain three images and numbers the handles
    it creates by the length of the history. *)
Definition scripted_driver (reported : Extent2D) (acquires : list (Result * N))
    (present : Result) : Driver :=
  {| drv_surface_capabilities := λ _, surface_report reported;
     drv_surface_format := λ _, {| sf_format := 44; sf_colorSpace := 0 |};
     drv_new_handle := λ tr, N.of_nat (100 + length tr)%nat;
     drv_swapchain_images := λ _ _, [11; 12; 13];
     drv_acquire := λ tr, default (eErrorDeviceLost, 0) (acquires !! count is_acquire tr);
     drv_present := λ _, present |}.

Definition slot (k : N) : FrameData :=
  {| queue_submit_fence := 40 + k;
     primary_command_pool := 50 + k;
     primary_command_buffer := 60 + k;
     swapchain_acquire_semaphore := VK_NULL_HANDLE;
     swapchain_release_semaphore := VK_NULL_HANDLE |}.

(** The sample after [prepare], with a swapchain of three images at
    800x600 and an empty semaphore pool. *)
Definition prepared_sample : HPPHelloTriangle :=
  {| gpu := 2; surface := 3; device := 1; queue := 4;
     graphics_queue_index := 0;
     swapchain_data :=
       {| swapchain := 5; extent := extent_800x600; format := 44;
          image_views := [21; 22; 23]; framebuffers := [31; 32; 33] |};
     per_frame_data := [slot 0; slot 1; slot 2];
     recycled_semaphores := [];
     render_pass := 6; pipeline := 7 |}.

Definition first_frame : World := {| app := prepared_sample; calls := [] |}.

(** The state of [first_frame] after an acquire that created semaphore
    100 and was answered "suboptimal". *)
Definition stale_frame : World :=
  {| app := set_recycled_semaphores [100] prepared_sample;
     calls := [CreateSemaphore 100;
               AcquireNextImageKHR 5 UINT64_MAX 100 eSuboptimalKHR 0] |}.

(** Two stale acquires in a row, the window unchanged or resized. *)
Definition stale_twice_same_extent : Driver :=
  scripted_driver extent_800x600 [(eSuboptimalKHR, 0); (eErrorOutOfDateKHR, 0)] eSuccess.
Definition stale_twice_resized : Driver :=
  scripted_driver extent_1024x768 [(eSuboptimalKHR, 0); (eErrorOutOfDateKHR, 0)] eSuccess.

(** Image 1 acquired, then a suboptimal present, the window unchanged or
    resized. *)
Definition present_stale_same_extent : Driver :=
  scripted_driver extent_800x600 [(eSuccess, 1)] eSuboptimalKHR.
Definition present_stale_resized : Driver :=
  scripted_driver extent_1024x768 [(eSuccess, 1)] eSuboptimalKHR.

(** The first frame of [present_stale_resized] once image 1 is acquired,
    and once it is rendered and submitted. *)
Definition acquired_frame : World :=
  Eval vm_compute in
    match acquire_with_retry present_stale_resized first_frame with
    | Some (_, w) => w
    | None => first_frame
    end.
Definition rendered_frame : World :=
  Eval vm_compute in
    match render_triangle present_stale_resized 1 acquired_frame with
    | Some (_, w) => w
    | None => acquired_frame
    end.

(** A surface whose size is determined by the swapchain. *)
Definition undefined_extent_driver : Driver :=
  scripted_driver undefined_extent [] eSuccess.

(** The calls a computation has issued when it returns. *)
Definition calls_of {A} (o : option (A * World)) : option (list Call) :=
  (λ p, calls p.2) <$> o.

(** The extents of the swapchains created in a history, in order. *)
Definition rebuild_extents (l : list Call) : list Extent2D :=
  omap (λ c, match c with
             | CreateSwapchainKHR info _ => Some (ci_imageExtent info)
             | _ => None
             end) l.

Local Close Scope N_scope.

(** * Vocabulary of the further properties *)

Section Creation.

Context (drv : Driver).

(** The handles the driver hands out when one object is created per
    element of [l], each creation recorded by [mk], the history starting
    at [c]. *)
Fixpoint created {A} (mk : A → Handle → Call) (l : list A) (c : list Call)
  : list Handle :=
  match l with
  | [] => []
  | x :: l' =>
      let h := drv_new_handle drv c in
      h :: created mk l' (c ++ [mk x h])
  end.

(** The calls of those creations, in order. *)
Definition creation_calls {A} (mk : A → Handle → Call) (l : list A) (c : list Call)
  : list Call :=
  zip_with mk l (created mk l c).

(** A slot as [init_swapchain] equips it, and the three calls that do so,
    the history starting at [c]. *)
Definition fresh_slot (queue_family : N) (c : list Call) : FrameData * list Call :=
  let fence := drv_new_handle drv c in
  let c1 := c ++ [CreateFence true fence] in
  let pool := drv_new_handle drv c1 in
  let c2 := c1 ++ [CreateCommandPool true queue_family pool] in
  let buffer := drv_new_handle drv c2 in
  ({| queue_submit_fence := fence;
      primary_command_pool := pool;
      primary_command_buffer := buffer;
      swapchain_acquire_semaphore := VK_NULL_HANDLE;
      swapchain_release_semaphore := VK_NULL_HANDLE |},
   [CreateFence true fence;
    CreateCommandPool true queue_family pool;
    AllocateCommandBuffer pool buffer]).

(** [n] such slots, one after the other. *)
Fixpoint fresh_slots (queue_family : N) (n : nat) (c : list Call)
  : list FrameData * list Call :=
  match n with
  | O => ([], [])
  | S n' =>
      let first := fresh_slot queue_family c in
      let others := fresh_slots queue_family n' (c ++ first.2) in
      (first.1 :: others.1, first.2 ++ others.2)
  end.

(** The history the driver sees when [acquire_next_image] asks for an
    image: a semaphore has been created if the pool was empty. *)
Definition history_at_acquire (w : World) : list Call :=
  calls w ++
  match recycled_semaphores (app w) with
  | [] => [CreateSemaphore (drv_new_handle drv (calls w))]
  | _ :: _ => []
  end.

(** The semaphore [acquire_next_image] passes to the driver: the last one
    of the pool, or one created when the pool is empty. *)
Definition next_semaphore (w : World) : Handle :=
  default (drv_new_handle drv (calls w)) (last (recycled_semaphores (app w))).

(** The semaphore [render_triangle] signals for a slot: the slot's release
    semaphore, or one created at history [c] when the slot has none. *)
Definition release_semaphore_at (pfd : FrameData) (c : list Call) : Handle :=
  if is_set (swapchain_release_semaphore pfd)
  then swapchain_release_semaphore pfd
  else drv_new_handle drv c.

End Creation.

(** ** The rebuilt Surface Set *)

Section Rebuilt.

Context (drv : Driver).

(** What a rebuilding [resize] has done when it took [w] to [w1]; every
    answer of the driver is the one it gives to the calls issued so far.
    After [resize]'s own query, the two idle waits and the destruction of
    the framebuffers, [init_swapchain] asked the surface for its
    capabilities, selected a format and created a swapchain, with the old
    one as [oldSwapchain] and with the current extent of that report (the
    stored extent when the reported width is 0xFFFFFFFF).  When there was a
    swapchain, the old image views, the frame slots of the old images and
    the old swapchain were disposed of.  One fresh frame slot was equipped
    per image of the new swapchain, one image view was created per image
    and one framebuffer per image view, and nothing else was called.  The
    sample holds the new swapchain, that extent, the selected format, those
    frame slots, image views and framebuffers; the semaphore pool and the
    other members are as they were. *)
Definition surface_set_rebuilt (w w1 : World) : Prop :=
  let a := app w in
  let old := swapchain (swapchain_data a) in
  let old_views := image_views (swapchain_data a) in
  let c0 := history_at_rebuild drv w in
  let caps1 := drv_surface_capabilities drv c0 in
  let reported := currentExtent caps1 in
  let built :=
    if (width reported =? UINT32_MAX)%N then extent (swapchain_data a) else reported in
  let ask1 := GetSurfaceCapabilitiesKHR (gpu a) (surface a) caps1 in
  let fmt := drv_surface_format drv (c0 ++ [ask1]) in
  let select := SelectSurfaceFormat (gpu a) (surface a) fmt in
  let caps2 := drv_surface_capabilities drv (c0 ++ [ask1; select]) in
  let ask2 := GetSurfaceCapabilitiesKHR (gpu a) (surface a) caps2 in
  let h := drv_new_handle drv (c0 ++ [ask1; select; ask2]) in
  ∃ info,
    let create := CreateSwapchainKHR info h in
    let old_images :=
      drv_swapchain_images drv
        (c0 ++ [ask1; select; ask2; create] ++ (DestroyImageView <$> old_views)) old in
    let retired :=
      if is_set old
      then (DestroyImageView <$> old_views) ++
           [GetSwapchainImagesKHR old old_images] ++
           concat (teardown_calls <$> take (length old_images) (per_frame_data a)) ++
           [DestroySwapchainKHR old]
      else [] in
    let c1 := c0 ++ [ask1; select; ask2; create] ++ retired in
    let images := drv_swapchain_images drv c1 h in
    let c2 := c1 ++ [GetSwapchainImagesKHR h images] in
    let slots := fresh_slots drv (graphics_queue_index a) (length images) c2 in
    let c3 := c2 ++ slots.2 in
    let mkv := λ image, CreateImageView image (sf_format fmt) in
    let views := (if is_set old then [] else old_views) ++ created drv mkv images c3 in
    let c4 := c3 ++ creation_calls drv mkv images c3 in
    let mkf := λ view, CreateFramebuffer (render_pass a) view built in
    ci_imageExtent info = built ∧
    ci_oldSwapchain info = old ∧
    calls w1 = c4 ++ creation_calls drv mkf views c4 ∧
    per_frame_data (app w1) = slots.1 ∧
    swapchain_data (app w1) =
      {| swapchain := h; extent := built; format := sf_format fmt;
         image_views := views; framebuffers := created drv mkf views c4 |} ∧
    recycled_semaphores (app w1) = recycled_semaphores a ∧
    (gpu (app w1), surface (app w1), device (app w1), queue (app w1),
     graphics_queue_index (app w1), render_pass (app w1), pipeline (app w1)) =
    (gpu a, surface a, device a, queue a, graphics_queue_index a, render_pass a,
     pipeline a).

End Rebuilt.

(** The commands [render_triangle] records into the command buffer [cmd],
    drawing into [framebuffer]. *)
Definition recorded_commands (a : HPPHelloTriangle) (cmd framebuffer : Handle)
  : list Call :=
  let area := extent (swapchain_data a) in
  [CmdBegin cmd true;
   CmdBeginRenderPass cmd (render_pass a) framebuffer area;
   CmdBindPipeline cmd (pipeline a);
   CmdSetViewport cmd area;
   CmdSetScissor cmd area;
   CmdDraw cmd 3 1 0 0;
   CmdEndRenderPass cmd;
   CmdEnd cmd].

Definition is_semaphore_creation (c : Call) : bool :=
  match c with CreateSemaphore _ => true | _ => false end.

(** Calls that destroy or free an object. *)
Definition is_destruction (c : Call) : bool :=
  match c with
  | DestroySwapchainKHR _ | DestroyImageView _ | DestroyFramebuffer _
  | DestroyFence _ | DestroyCommandPool _ | FreeCommandBuffers _ _
  | DestroySemaphore _ => true
  | _ => false
  end.

(** Calls that wait for the queue or the device to be idle. *)
Definition is_idle_wait (c : Call) : bool :=
  match c with
  | QueueWaitIdle | DeviceWaitIdle => true
  | _ => false
  end.

(** * Start-up and shutdown *)

(** The functions [prepare] calls before the first frame, and the
    destructor.  A [throw] ends the function: its outcome is the message
    of the exception. *)

Inductive Outcome (A : Type) :=
| Returned (a : A)
| Thrown (message : string).
Arguments Returned {A} a.
Arguments Thrown {A} message.

(** ** Extensions *)

(** [vk::ExtensionProperties]. *)
Record ExtensionProperties := { extensionName : string; specVersion : N }.

(** [std::ranges::find_if], as the position of the iterator it returns:
    that of the first element satisfying [p], or the length of the range,
    the position of [end()], when there is none. *)
Fixpoint find_if {A} (p : A → bool) (l : list A) : nat :=
  match l with
  | [] => 0
  | x :: l' => if p x then 0 else S (find_if p l')
  end.

(** [validate_extensions]; [strcmp(a, b) == 0] is equality of strings. *)
Definition validate_extensions (required : list string)
    (available : list ExtensionProperties) : bool :=
  find_if (λ extension,
             find_if (λ ep, String.eqb (extensionName ep) extension) available
             =? length available)
    required
  =? length required.

Definition VK_KHR_PORTABILITY_SUBSET_EXTENSION_NAME : string :=
  "VK_KHR_portability_subset".

(** The part of [vk::DeviceCreateInfo] that [create_device] fills in: one
    queue create info, with its family and count, and the names of the
    enabled extensions. *)
Record DeviceCreateInfo := {
  queueFamilyIndex : N;
  queueCount : N;
  enabledExtensionNames : list string
}.

(** [HPPHelloTriangle::create_device], up to the call of
    [gpu.createDevice]: the create info that call receives.
    [VKB_ENABLE_PORTABILITY] tells whether the macro of that name is
    defined, [device_extensions] is what
    [gpu.enumerateDeviceExtensionProperties] returns. *)
Definition create_device (VKB_ENABLE_PORTABILITY : bool)
    (device_extensions : list ExtensionProperties) (graphics_queue_index : N)
    (required_device_extensions : list string) : Outcome DeviceCreateInfo :=
  if negb (validate_extensions required_device_extensions device_extensions)
  then Thrown "Required device extensions are missing, will try without."
  else
    let active_device_extensions :=
      required_device_extensions ++
      (if VKB_ENABLE_PORTABILITY &&
          existsb (λ extension,
                     String.eqb (extensionName extension)
                       VK_KHR_PORTABILITY_SUBSET_EXTENSION_NAME)
            device_extensions
       then [VK_KHR_PORTABILITY_SUBSET_EXTENSION_NAME]
       else []) in
    Returned {| queueFamilyIndex := graphics_queue_index;
                queueCount := 1;
                enabledExtensionNames := active_device_extensions |}.

(** ** Creating the instance *)

(** What the preprocessor decides in [create_instance]: whether
    [VKB_DEBUG] or [VKB_VALIDATION_LAYERS] is defined, whether
    [VKB_ENABLE_PORTABILITY] is, and which of the [VK_USE_PLATFORM_*]
    macros is defined (a build defines one of them).  Loading the Vulkan
    library and initialising the dispatcher leave no trace in the sample and
    are not modelled. *)
Inductive Platform :=
| ANDROID_KHR
| WIN32_KHR
| METAL_EXT
| XCB_KHR
| XLIB_KHR
| WAYLAND_KHR
| DISPLAY_KHR.

Record Build := {
  debug_or_validation : bool;
  enable_portability : bool;
  platform : Platform
}.

Definition VK_EXT_DEBUG_UTILS_EXTENSION_NAME : string := "VK_EXT_debug_utils".
Definition VK_KHR_GET_PHYSICAL_DEVICE_PROPERTIES_2_EXTENSION_NAME : string :=
  "VK_KHR_get_physical_device_properties2".
Definition VK_KHR_PORTABILITY_ENUMERATION_EXTENSION_NAME : string :=
  "VK_KHR_portability_enumeration".
Definition VK_KHR_ANDROID_SURFACE_EXTENSION_NAME : string := "VK_KHR_android_surface".
Definition VK_KHR_WIN32_SURFACE_EXTENSION_NAME : string := "VK_KHR_win32_surface".
Definition VK_EXT_METAL_SURFACE_EXTENSION_NAME : string := "VK_EXT_metal_surface".
Definition VK_KHR_XCB_SURFACE_EXTENSION_NAME : string := "VK_KHR_xcb_surface".
Definition VK_KHR_XLIB_SURFACE_EXTENSION_NAME : string := "VK_KHR_xlib_surface".
Definition VK_KHR_WAYLAND_SURFACE_EXTENSION_NAME : string := "VK_KHR_wayland_surface".
Definition VK_KHR_DISPLAY_EXTENSION_NAME : string := "VK_KHR_display".

Definition platform_surface_extension (p : Platform) : string :=
  match p with
  | ANDROID_KHR => VK_KHR_ANDROID_SURFACE_EXTENSION_NAME
  | WIN32_KHR => VK_KHR_WIN32_SURFACE_EXTENSION_NAME
  | METAL_EXT => VK_EXT_METAL_SURFACE_EXTENSION_NAME
  | XCB_KHR => VK_KHR_XCB_SURFACE_EXTENSION_NAME
  | XLIB_KHR => VK_KHR_XLIB_SURFACE_EXTENSION_NAME
  | WAYLAND_KHR => VK_KHR_WAYLAND_SURFACE_EXTENSION_NAME
  | DISPLAY_KHR => VK_KHR_DISPLAY_EXTENSION_NAME
  end.

(** The platforms on which [create_instance] initialises volk. *)
Definition needs_volk (p : Platform) : bool :=
  match p with
  | DISPLAY_KHR | ANDROID_KHR | METAL_EXT => true
  | _ => false
  end.

(** The part of [vk::InstanceCreateInfo] that [create_instance] fills in;
    [enumeratePortability] is the flag [eEnumeratePortabilityKHR], [pNext]
    tells whether the debug messenger create info is chained. *)
Record InstanceCreateInfo := {
  enabledLayerNames : list string;
  instanceExtensionNames : list string;
  enumeratePortability : bool;
  pNext : bool
}.

Inductive InstanceLog :=
| LogI_enabled_validation_layer (layer : string)
| LogW_validation_layer_not_available (layer : string).

(** [HPPHelloTriangle::create_instance]: the create info
    [vk::createInstance] receives and what is logged.
    [available_instance_extensions] and [supported_instance_layers] are
    what the two enumerations return (of a layer, its name), and
    [volkInitialize] tells whether that call returns a failure. *)
Definition create_instance (build : Build)
    (available_instance_extensions : list ExtensionProperties)
    (supported_instance_layers : list string) (volkInitialize : bool)
    (required_instance_extensions required_validation_layers : list string)
  : Outcome (InstanceCreateInfo * list InstanceLog) :=
  let active_instance_extensions := required_instance_extensions in
  let active_instance_extensions :=
    active_instance_extensions ++
    (if debug_or_validation build then [VK_EXT_DEBUG_UTILS_EXTENSION_NAME] else []) in
  let portability_enumeration_available :=
    enable_portability build &&
    existsb (λ extension,
               String.eqb (extensionName extension)
                 VK_KHR_PORTABILITY_ENUMERATION_EXTENSION_NAME)
      available_instance_extensions in
  let active_instance_extensions :=
    active_instance_extensions ++
    (if enable_portability build
     then VK_KHR_GET_PHYSICAL_DEVICE_PROPERTIES_2_EXTENSION_NAME ::
          (if portability_enumeration_available
           then [VK_KHR_PORTABILITY_ENUMERATION_EXTENSION_NAME]
           else [])
     else []) in
  let active_instance_extensions :=
    active_instance_extensions ++ [platform_surface_extension (platform build)] in
  if negb (validate_extensions active_instance_extensions available_instance_extensions)
  then Thrown "Required instance extensions are missing."
  else
    let validationLayer := "VK_LAYER_KHRONOS_validation"%string in
    let layer_supported :=
      existsb (λ lp, String.eqb lp validationLayer) supported_instance_layers in
    let requested_instance_layers :=
      required_validation_layers ++
      (if debug_or_validation build && layer_supported then [validationLayer] else []) in
    let log :=
      if debug_or_validation build
      then if layer_supported
           then [LogI_enabled_validation_layer validationLayer]
           else [LogW_validation_layer_not_available validationLayer]
      else [] in
    let instance_info :=
      {| enabledLayerNames := requested_instance_layers;
         instanceExtensionNames := active_instance_extensions;
         enumeratePortability := portability_enumeration_available;
         pNext := debug_or_validation build |} in
    if needs_volk (platform build) && volkInitialize
    then Thrown "Failed to initialize volk."
    else Returned (instance_info, log).

(** ** Calls outside the frame cycle *)

(** The calls of start-up and shutdown; [Frame] embeds a call of the frame
    cycle. *)
Inductive LifetimeCall :=
| Frame (c : Call)
| CreateSurface (gpu created : Handle)
| GetSurfaceSupportKHR (gpu : Handle) (queue_family : N) (surface : Handle)
    (supported : bool)
| DestroySurfaceKHR (surface : Handle)
| DestroyPipeline (pipeline : Handle)
| DestroyPipelineLayout (layout : Handle)
| DestroyRenderPass (render_pass : Handle)
| DestroyDevice (device : Handle)
| DestroyDebugUtilsMessengerEXT (messenger : Handle)
| DestroyInstance (instance : Handle)
| LogE (message : string).

(** ** Selecting the physical device *)

Definition QueueFlagBits_eGraphics : N := 0x1.

(** [vk::QueueFamilyProperties], with the field the source reads. *)
Record QueueFamilyProperties := { queueFlags : N }.

(** A physical device as [select_physical_device_and_surface] sees it: its
    handle, its queue families, the surface [window->create_surface]
    returns for it, and what [getSurfaceSupportKHR] answers for a family
    and a surface. *)
Record PhysicalDevice := {
  physical_device : Handle;
  getQueueFamilyProperties : list QueueFamilyProperties;
  create_surface : Handle;
  getSurfaceSupportKHR : N → Handle → bool
}.

Definition set_gpu (h : Handle) (a : HPPHelloTriangle) :=
  {| gpu := h; surface := surface a; device := device a; queue := queue a;
     graphics_queue_index := graphics_queue_index a;
     swapchain_data := swapchain_data a;
     per_frame_data := per_frame_data a;
     recycled_semaphores := recycled_semaphores a;
     render_pass := render_pass a; pipeline := pipeline a |}.

Definition set_surface (h : Handle) (a : HPPHelloTriangle) :=
  {| gpu := gpu a; surface := h; device := device a; queue := queue a;
     graphics_queue_index := graphics_queue_index a;
     swapchain_data := swapchain_data a;
     per_frame_data := per_frame_data a;
     recycled_semaphores := recycled_semaphores a;
     render_pass := render_pass a; pipeline := pipeline a |}.

Definition set_graphics_queue_index (j : N) (a : HPPHelloTriangle) :=
  {| gpu := gpu a; surface := surface a; device := device a; queue := queue a;
     graphics_queue_index := j;
     swapchain_data := swapchain_data a;
     per_frame_data := per_frame_data a;
     recycled_semaphores := recycled_semaphores a;
     render_pass := render_pass a; pipeline := pipeline a |}.

(** The inner loop of [select_physical_device_and_surface], from family
    [j] on: the queries it issues, and the family it stops at, if any. *)
Fixpoint find_queue_family (g : PhysicalDevice) (surface : Handle)
    (families : list QueueFamilyProperties) (j : N)
  : list LifetimeCall * option N :=
  match families with
  | [] => ([], None)
  | properties :: families' =>
      let supports_present := getSurfaceSupportKHR g j surface in
      let query := GetSurfaceSupportKHR (physical_device g) j surface supports_present in
      if has_flag (queueFlags properties) QueueFlagBits_eGraphics && supports_present
      then ([query], Some j)
      else
        let r := find_queue_family g surface families' (j + 1)%N in
        (query :: r.1, r.2)
  end.

(** The outer loop, over the devices not yet visited: the sample, the
    calls issued, and whether a queue family was found. *)
Fixpoint select_among (gpus : list PhysicalDevice) (a : HPPHelloTriangle)
    (issued : list LifetimeCall)
  : Outcome (bool * HPPHelloTriangle * list LifetimeCall) :=
  match gpus with
  | [] => Returned (false, a, issued)
  | g :: gpus' =>
      let a := set_gpu (physical_device g) a in
      match getQueueFamilyProperties g with
      | [] => Thrown "No queue family found."
      | _ :: _ =>
          let issued :=
            issued ++ (if is_set (surface a) then [DestroySurfaceKHR (surface a)] else []) in
          let a := set_surface (create_surface g) a in
          let issued := issued ++ [CreateSurface (physical_device g) (surface a)] in
          if negb (is_set (surface a))
          then Thrown "Failed to create window surface."
          else
            let r := find_queue_family g (surface a) (getQueueFamilyProperties g) 0%N in
            match r.2 with
            | Some j => Returned (true, set_graphics_queue_index j a, issued ++ r.1)
            | None => select_among gpus' a (issued ++ r.1)
            end
      end
  end.

(** [HPPHelloTriangle::select_physical_device_and_surface]; [gpus] is what
    [instance.enumeratePhysicalDevices] returns. *)
Definition select_physical_device_and_surface (gpus : list PhysicalDevice)
    (a : HPPHelloTriangle) : Outcome (HPPHelloTriangle * list LifetimeCall) :=
  match select_among gpus a [] with
  | Thrown message => Thrown message
  | Returned (found_graphics_queue_index, a, issued) =>
      Returned
        (a,
         issued ++
         (if negb found_graphics_queue_index
          then [LogE "Did not find suitable queue which supports graphics and presentation."]
          else []))
  end.

(** ** The destructor *)

(** The members the destructor releases besides those of the frame
    cycle. *)
Record Bootstrap := {
  instance : Handle;
  debug_utils_messenger : Handle;
  pipeline_layout : Handle
}.

Record Lifetime := {
  members : HPPHelloTriangle;
  bootstrap : Bootstrap;
  issued : list LifetimeCall
}.

Definition L (A : Type) : Type := Lifetime → option (A * Lifetime).

Global Instance L_ret : MRet L := λ A a s, Some (a, s).
Global Instance L_bind : MBind L := λ A B f m s,
  match m s with
  | Some (a, s') => f a s'
  | None => None
  end.

Definition sample : L HPPHelloTriangle := λ s, Some (members s, s).
Definition boot : L Bootstrap := λ s, Some (bootstrap s, s).
Definition issue (c : LifetimeCall) : L unit :=
  λ s, Some (tt, {| members := members s; bootstrap := bootstrap s;
                    issued := issued s ++ [c] |}).

(** A step of the frame cycle that asks the driver nothing: its calls are
    appended as they come. *)
Definition frame_step (m : M unit) : L unit :=
  λ s,
    match m {| app := members s; calls := [] |} with
    | None => None
    | Some (_, w) =>
        Some (tt, {| members := app w; bootstrap := bootstrap s;
                     issued := issued s ++ (Frame <$> calls w) |})
    end.

Definition when_set (h : Handle) (c : LifetimeCall) : L unit :=
  if is_set h then issue c else mret tt.

(** [HPPHelloTriangle::~HPPHelloTriangle]. *)
Definition destructor : L unit :=
  frame_step (emit DeviceWaitIdle) ;;
  frame_step teardown_framebuffers ;;
  frame_step (a ← this; for_each teardown_frame (seq 0 (length (per_frame_data a)))) ;;
  frame_step (modify (set_per_frame_data [])) ;;
  frame_step (a ← this;
              for_each (λ semaphore, emit (DestroySemaphore semaphore))
                (recycled_semaphores a)) ;;
  a ← sample;
  b ← boot;
  when_set (pipeline a) (DestroyPipeline (pipeline a)) ;;
  when_set (pipeline_layout b) (DestroyPipelineLayout (pipeline_layout b)) ;;
  when_set (render_pass a) (DestroyRenderPass (render_pass a)) ;;
  frame_step (for_each (λ image_view, emit (DestroyImageView image_view))
                (image_views (swapchain_data a))) ;;
  when_set (swapchain (swapchain_data a))
    (Frame (DestroySwapchainKHR (swapchain (swapchain_data a)))) ;;
  when_set (surface a) (DestroySurfaceKHR (surface a)) ;;
  when_set (device a) (DestroyDevice (device a)) ;;
  when_set (debug_utils_messenger b)
    (DestroyDebugUtilsMessengerEXT (debug_utils_messenger b)) ;;
  issue (DestroyInstance (instance b)).

(** ** Vocabulary of start-up and shutdown *)

(** Family [j] of [g] supports graphics, and presentation to the surface
    created for [g]. *)
Definition suitable (g : PhysicalDevice) (j : N) : bool :=
  match getQueueFamilyProperties g !! N.to_nat j with
  | Some properties =>
      has_flag (queueFlags properties) QueueFlagBits_eGraphics &&
      getSurfaceSupportKHR g j (create_surface g)
  | None => false
  end.

(** A device the loop passes over: it has queue families and a surface
    could be created for it, but none of its families supports graphics and
    presentation. *)
Definition passed_over (g : PhysicalDevice) : Prop :=
  getQueueFamilyProperties g ≠ [] ∧
  is_set (create_surface g) = true ∧
  ∀ j, suitable g j = false.

(** The surfaces created, and those destroyed, in a list of calls. *)
Definition surfaces_created (l : list LifetimeCall) : list Handle :=
  omap (λ c, match c with CreateSurface _ s => Some s | _ => None end) l.

Definition surfaces_destroyed (l : list LifetimeCall) : list Handle :=
  omap (λ c, match c with DestroySurfaceKHR s => Some s | _ => None end) l.

Definition is_log (c : LifetimeCall) : bool :=
  match c with LogE _ => true | _ => false end.

(** The call [c], issued only for a handle that is not null. *)
Definition if_set_then (h : Handle) (c : LifetimeCall) : list LifetimeCall :=
  if is_set h then [c] else [].

(** The calls of the frame cycle among those of a lifetime. *)
Definition frame_calls (l : list LifetimeCall) : list Call :=
  omap (λ c, match c with Frame c => Some c | _ => None end) l.

(** The handles a frame slot holds, in the order [teardown_per_frame]
    releases them. *)
Definition slot_handles (pfd : FrameData) : list Handle :=
  live [queue_submit_fence pfd; primary_command_buffer pfd; primary_command_pool pfd;
        swapchain_acquire_semaphore pfd; swapchain_release_semaphore pfd].

(** The handle a call creates or allocates, and the handle a call destroys
    or frees. *)
Definition created_handle (c : Call) : option Handle :=
  match c with
  | CreateSwapchainKHR _ h | CreateImageView _ _ h | CreateFramebuffer _ _ _ h
  | CreateFence _ h | CreateCommandPool _ _ h | AllocateCommandBuffer _ h
  | CreateSemaphore h => Some h
  | _ => None
  end.

Definition destroyed_handle (c : Call) : option Handle :=
  match c with
  | DestroySwapchainKHR h | DestroyImageView h | DestroyFramebuffer h
  | DestroyFence h | DestroyCommandPool h | FreeCommandBuffers _ h
  | DestroySemaphore h => Some h
  | _ => None
  end.

(** ** Concrete frames, devices and builds *)

Local Open Scope N_scope.

(** The driver answers the first acquire "not ready". *)
Definition not_ready_driver : Driver :=
  scripted_driver extent_800x600 [(eNotReady, 0)] eSuccess.

(** The window keeps its size; image 1 is acquired and presented with
    success. *)
Definition steady_driver : Driver :=
  scripted_driver extent_800x600 [(eSuccess, 1)] eSuccess.

(** The sample when [prepare] calls [init_swapchain]: device and queue
    exist, nothing of the swapchain does. *)
Definition unbuilt_sample : HPPHelloTriangle :=
  {| gpu := 2; surface := 3; device := 1; queue := 4;
     graphics_queue_index := 0;
     swapchain_data :=
       {| swapchain := VK_NULL_HANDLE; extent := extent_800x600; format := 0;
          image_views := []; framebuffers := [] |};
     per_frame_data := [];
     recycled_semaphores := [];
     render_pass := VK_NULL_HANDLE; pipeline := VK_NULL_HANDLE |}.

Definition unbuilt : World := {| app := unbuilt_sample; calls := [] |}.

(** The sample as constructed: every member null. *)
Definition blank_sample : HPPHelloTriangle :=
  {| gpu := VK_NULL_HANDLE; surface := VK_NULL_HANDLE; device := VK_NULL_HANDLE;
     queue := VK_NULL_HANDLE; graphics_queue_index := 0;
     swapchain_data :=
       {| swapchain := VK_NULL_HANDLE; extent := {| width := 0; height := 0 |};
          format := 0; image_views := []; framebuffers := [] |};
     per_frame_data := [];
     recycled_semaphores := [];
     render_pass := VK_NULL_HANDLE; pipeline := VK_NULL_HANDLE |}.

(** A device with one compute-only family; a device whose second family
    supports graphics and presentation; a device without any family. *)
Definition compute_gpu : PhysicalDevice :=
  {| physical_device := 71;
     getQueueFamilyProperties := [{| queueFlags := 2 |}];
     create_surface := 81;
     getSurfaceSupportKHR := λ _ _, true |}.

Definition graphics_gpu : PhysicalDevice :=
  {| physical_device := 72;
     getQueueFamilyProperties := [{| queueFlags := 4 |}; {| queueFlags := 3 |}];
     create_surface := 82;
     getSurfaceSupportKHR := λ _ _, true |}.

Definition no_family_gpu : PhysicalDevice :=
  {| physical_device := 73;
     getQueueFamilyProperties := [];
     create_surface := 83;
     getSurfaceSupportKHR := λ _ _, true |}.

(** What the selection among [compute_gpu] and [graphics_gpu] returns. *)
Definition selection : HPPHelloTriangle * list LifetimeCall :=
  Eval vm_compute in
    match select_physical_device_and_surface [compute_gpu; graphics_gpu] blank_sample with
    | Returned r => r
    | Thrown _ => (blank_sample, [])
    end.

Definition some_bootstrap : Bootstrap :=
  {| instance := 91; debug_utils_messenger := VK_NULL_HANDLE; pipeline_layout := 92 |}.

Local Close Scope N_scope.

(** * Properties *)

(** ** Running computations *)

Lemma bind_Some {A B} (m : M A) (f : A → M B) w b w2 :
  (m ≫= f) w = Some (b, w2) ↔ ∃ a w1, m w = Some (a, w1) ∧ f a w1 = Some (b, w2).
Proof.
  unfold mbind, M_bind. split.
  - destruct (m w) as [[a w1]|]; [eauto | discriminate].
  - intros (a & w1 & -> & H). exact H.
Qed.

Lemma bind_run {A B} (m : M A) (f : A → M B) w a w1 :
  m w = Some (a, w1) → (m ≫= f) w = f a w1.
Proof. unfold mbind, M_bind. now intros ->. Qed.

(** Unfold the monad's plumbing and compute. *)
Ltac run_step :=
  unfold mbind, M_bind, mret, M_ret, this, history, emit, modify, when,
    undefined, frame, set_frame in *.
Ltac run := repeat (progress (run_step; cbn)).

Lemma set_recycled_semaphores_id a :
  set_recycled_semaphores (recycled_semaphores a) a = a.
Proof. now destruct a. Qed.

Lemma teardown_per_frame_run pfd w :
  teardown_per_frame pfd w =
    Some (FrameData_null, {| app := app w; calls := calls w ++ teardown_calls pfd |}).
Proof.
  destruct pfd as [f p b s r]. destruct w as [a c].
  unfold teardown_per_frame, teardown_calls, if_set; simpl.
  unfold mbind, M_bind, mret, M_ret, emit; simpl.
  destruct (is_set f) eqn:Hf, (is_set b) eqn:Hb, (is_set p) eqn:Hp,
    (is_set s) eqn:Hs, (is_set r) eqn:Hr; simpl;
    unfold FrameData_null;
    repeat match goal with
    | H : is_set ?h = false |- _ =>
        apply negb_false_iff, N.eqb_eq in H; subst h
    end;
    rewrite <- ?app_assoc; simpl; try rewrite app_nil_r; reflexivity.
Qed.

(** C4. [teardown_per_frame] destroys the fence, then frees the command
    buffer and destroys its pool, then destroys the acquire semaphore, then
    the release semaphore, each only when present; it returns the slot with
    every field null and issues nothing else, and a second teardown of the
    slot it returned issues no call at all and leaves the slot null. *)
Theorem teardown_per_frame_ordered_idempotent (pfd : FrameData) (w : World) :
  ∃ pfd1 w1,
    teardown_per_frame pfd w = Some (pfd1, w1) ∧
    pfd1 = FrameData_null ∧
    app w1 = app w ∧
    calls w1 = calls w ++ teardown_calls pfd ∧
    teardown_per_frame pfd1 w1 = Some (FrameData_null, w1).
Proof.
  eexists _, _. split; [apply teardown_per_frame_run |].
  repeat split.
Qed.

Section Pool.

Context (drv : Driver).

Lemma pool_release_run s w :
  pool_release s w =
    Some (tt, {| app := set_recycled_semaphores (recycled_semaphores (app w) ++ [s]) (app w);
                 calls := calls w |}).
Proof. reflexivity. Qed.

Lemma pool_acquire_pooled l s a c :
  recycled_semaphores a = l ++ [s] →
  pool_acquire drv {| app := a; calls := c |} =
    Some (s, {| app := set_recycled_semaphores l a; calls := c |}).
Proof.
  intros H. unfold pool_acquire, this. unfold mbind at 1, M_bind at 1. simpl.
  rewrite H, last_snoc, removelast_last. reflexivity.
Qed.

Lemma pool_acquire_empty a c :
  recycled_semaphores a = [] →
  pool_acquire drv {| app := a; calls := c |} =
    Some (drv_new_handle drv c,
          {| app := a; calls := c ++ [CreateSemaphore (drv_new_handle drv c)] |}).
Proof.
  intros H. unfold pool_acquire, this. unfold mbind at 1, M_bind at 1. simpl.
  rewrite H. reflexivity.
Qed.

Lemma set_recycled_semaphores_twice l1 l2 a :
  set_recycled_semaphores l1 (set_recycled_semaphores l2 a) =
  set_recycled_semaphores l1 a.
Proof. reflexivity. Qed.

Lemma release_all_run hs : ∀ a c,
  for_each pool_release hs {| app := a; calls := c |} =
    Some (tt, {| app := set_recycled_semaphores (recycled_semaphores a ++ hs) a;
                 calls := c |}).
Proof.
  induction hs as [|h hs IH]; intros a c; simpl.
  - now rewrite app_nil_r, set_recycled_semaphores_id.
  - erewrite bind_run by apply pool_release_run. simpl.
    rewrite IH. simpl. now rewrite <- app_assoc.
Qed.

Lemma acquire_all_run hs : ∀ l a c,
  recycled_semaphores a = l ++ hs →
  repeat_m (length hs) (pool_acquire drv) {| app := a; calls := c |} =
    Some (rev hs, {| app := set_recycled_semaphores l a; calls := c |}).
Proof.
  induction hs as [|h hs IH] using rev_ind; intros l a c H; simpl.
  - rewrite app_nil_r in H. rewrite <- H. now rewrite set_recycled_semaphores_id.
  - rewrite length_app, Nat.add_comm, rev_app_distr. simpl.
    rewrite app_assoc in H.
    erewrite bind_run by (apply pool_acquire_pooled; exact H).
    erewrite bind_run by (apply (IH l); reflexivity).
    reflexivity.
Qed.

(** C3. Releasing any [N] semaphores and then acquiring [N] times creates
    no semaphore: the acquires return the released handles, last released
    first, no driver call is issued and the pool is back where it was.  An
    acquire on an empty pool issues [createSemaphore] and returns what the
    driver created. *)
Theorem pool_reuse_law (hs : list Handle) (w : World) :
  (for_each pool_release hs ;; repeat_m (length hs) (pool_acquire drv)) w =
    Some (rev hs, w) ∧
  (recycled_semaphores (app w) = [] →
   pool_acquire drv w =
     Some (drv_new_handle drv (calls w),
           {| app := app w;
              calls := calls w ++ [CreateSemaphore (drv_new_handle drv (calls w))] |})).
Proof.
  destruct w as [a c]. split.
  - erewrite bind_run by apply release_all_run.
    erewrite acquire_all_run by reflexivity.
    now rewrite set_recycled_semaphores_twice, set_recycled_semaphores_id.
  - apply pool_acquire_empty.
Qed.

End Pool.

Section Acquire.

Context (drv : Driver).

(** [acquire_next_image] from the state [w0] in which the pool has given
    out [semaphore]. *)
Lemma acquire_next_image_run w semaphore w0 :
  pool_acquire drv w = Some (semaphore, w0) →
  acquire_next_image drv w =
    let r := drv_acquire drv (calls w0) in
    let a := app w0 in
    let c := calls w0 ++ [acquire_call drv w0 semaphore] in
    if bool_decide (r.1 = eSuccess) then
      match per_frame_data a !! N.to_nat r.2 with
      | None => None
      | Some pfd =>
          Some ((eSuccess, r.2),
                {| app := set_per_frame_data
                            (<[N.to_nat r.2 := set_acquire_semaphore semaphore pfd]>
                               (per_frame_data a))
                            (set_recycled_semaphores
                               (recycled_semaphores a ++ displaced pfd) a);
                   calls := c ++ slot_reuse_calls pfd |})
      end
    else
      Some (r, {| app := set_recycled_semaphores (recycled_semaphores a ++ [semaphore]) a;
                  calls := c |}).
Proof.
  intros Hpool. unfold acquire_next_image.
  erewrite bind_run by exact Hpool.
  destruct w0 as [a c]. unfold acquire_call, acquireNextImageKHR, pool_release.
  run.
  destruct (drv_acquire drv c) as [res image] eqn:Hr. cbn.
  destruct (bool_decide (res = eSuccess)) eqn:Hres; cbn.
  - unfold displaced, slot_reuse_calls, if_set.
    destruct (per_frame_data a !! N.to_nat image) as [pfd|] eqn:Hslot; cbn;
      [|reflexivity].
    destruct (is_set (queue_submit_fence pfd)),
      (is_set (primary_command_pool pfd)),
      (is_set (swapchain_acquire_semaphore pfd)); cbn;
      rewrite <- ?app_assoc, ?app_nil_r; cbn;
      destruct a; cbn; rewrite ?app_nil_r; reflexivity.
  - reflexivity.
Qed.

Lemma pool_acquire_cases w :
  ∃ semaphore w0,
    pool_acquire drv w = Some (semaphore, w0) ∧
    per_frame_data (app w0) = per_frame_data (app w) ∧
    swapchain_data (app w0) = swapchain_data (app w) ∧
    ((recycled_semaphores (app w) = [] ∧
      semaphore = drv_new_handle drv (calls w) ∧
      app w0 = app w ∧
      calls w0 = calls w ++ [CreateSemaphore semaphore]) ∨
     (recycled_semaphores (app w) = recycled_semaphores (app w0) ++ [semaphore] ∧
      calls w0 = calls w)).
Proof.
  destruct w as [a c]. cbn.
  destruct (last (recycled_semaphores a)) as [s|] eqn:Hlast.
  - apply last_Some in Hlast as [l Hl].
    eexists _, _. split; [apply (pool_acquire_pooled drv l s a c Hl) |].
    cbn. repeat split. right. now split.
  - apply last_None in Hlast.
    eexists _, _. split; [apply (pool_acquire_empty drv a c Hlast) |].
    cbn. repeat split. left. now repeat split.
Qed.

(** C2. When the driver hands out image [i] with success and slot [i]
    exists: after the acquire call the function waits on the slot's fence
    with timeout [UINT64_MAX] and resets it (only when the slot has a fence),
    then resets the slot's command pool (when the slot has one), and issues
    nothing else; the slot's old acquire semaphore is appended to the pool
    exactly when it was present; slot [i] receives the semaphore used for
    the acquire and keeps its release semaphore and its other fields; no
    other slot changes.  For a slot with a fence and a command pool the
    calls after the acquire are thus: wait, reset fence, reset pool. *)
Theorem acquire_next_image_success (w w0 : World) (semaphore : Handle) (i : N)
    (pfd : FrameData) :
  pool_acquire drv w = Some (semaphore, w0) →
  drv_acquire drv (calls w0) = (eSuccess, i) →
  per_frame_data (app w) !! N.to_nat i = Some pfd →
  ∃ w1,
    acquire_next_image drv w = Some ((eSuccess, i), w1) ∧
    calls w1 =
      calls w0 ++
      [AcquireNextImageKHR (swapchain (swapchain_data (app w))) UINT64_MAX
         semaphore eSuccess i] ++
      (if is_set (queue_submit_fence pfd)
       then [WaitForFences (queue_submit_fence pfd) true UINT64_MAX;
             ResetFences (queue_submit_fence pfd)]
       else []) ++
      (if is_set (primary_command_pool pfd)
       then [ResetCommandPool (primary_command_pool pfd)]
       else []) ∧
    recycled_semaphores (app w1) =
      recycled_semaphores (app w0) ++
      (if is_set (swapchain_acquire_semaphore pfd)
       then [swapchain_acquire_semaphore pfd]
       else []) ∧
    per_frame_data (app w1) =
      <[N.to_nat i :=
          {| queue_submit_fence := queue_submit_fence pfd;
             primary_command_pool := primary_command_pool pfd;
             primary_command_buffer := primary_command_buffer pfd;
             swapchain_acquire_semaphore := semaphore;
             swapchain_release_semaphore := swapchain_release_semaphore pfd |}]>
        (per_frame_data (app w)) ∧
    (is_set (queue_submit_fence pfd) = true →
     is_set (primary_command_pool pfd) = true →
     calls w1 =
       calls w0 ++
       [AcquireNextImageKHR (swapchain (swapchain_data (app w))) UINT64_MAX
          semaphore eSuccess i;
        WaitForFences (queue_submit_fence pfd) true UINT64_MAX;
        ResetFences (queue_submit_fence pfd);
        ResetCommandPool (primary_command_pool pfd)]).
Proof.
  intros Hpool Hacq Hslot.
  destruct (pool_acquire_cases w) as (s & w0' & Hpool' & Hpfd & Hsd & _).
  rewrite Hpool in Hpool'. injection Hpool' as <- <-.
  rewrite (acquire_next_image_run w semaphore w0 Hpool). cbn zeta.
  unfold acquire_call. rewrite Hacq, Hpfd, Hsd. cbn. rewrite Hslot.
  eexists. split; [reflexivity |]. cbn.
  rewrite <- app_assoc. split; [reflexivity |]. split; [reflexivity |].
  split; [reflexivity |].
  unfold slot_reuse_calls, if_set. intros -> ->. reflexivity.
Qed.

Lemma live_app l1 l2 : live (l1 ++ l2) = live l1 ++ live l2.
Proof. apply filter_app. Qed.

Lemma live_cons h l : live (h :: l) = live [h] ++ live l.
Proof. apply (live_app [h] l). Qed.

Lemma live_displaced pfd : live (displaced pfd) = live [swapchain_acquire_semaphore pfd].
Proof.
  unfold displaced. destruct (is_set _) eqn:H; [reflexivity |].
  apply negb_false_iff, N.eqb_eq in H. rewrite H. reflexivity.
Qed.

(** C9. Whenever [acquire_next_image] returns, the semaphore it took from
    the pool or created is in the pool again (result not success, slots
    untouched) or is the acquire semaphore of the acquired slot, whose old
    acquire semaphore, when present, went to the pool (success).  The
    semaphores held by pool and slots are therefore the same multiset as
    before, plus the created semaphore when the pool was empty. *)
Theorem acquire_next_image_keeps_semaphores (w w1 : World) (r : Result * N) :
  acquire_next_image drv w = Some (r, w1) →
  ∃ semaphore w0,
    pool_acquire drv w = Some (semaphore, w0) ∧
    (r.1 ≠ eSuccess →
       recycled_semaphores (app w1) = recycled_semaphores (app w0) ++ [semaphore] ∧
       per_frame_data (app w1) = per_frame_data (app w)) ∧
    (r.1 = eSuccess →
       ∃ pfd, per_frame_data (app w) !! N.to_nat r.2 = Some pfd ∧
         per_frame_data (app w1) =
           <[N.to_nat r.2 := set_acquire_semaphore semaphore pfd]>
             (per_frame_data (app w)) ∧
         recycled_semaphores (app w1) =
           recycled_semaphores (app w0) ++ displaced pfd) ∧
    held_semaphores (app w1) ≡ₚ allocated drv w ++ held_semaphores (app w).
Proof.
  intros Hrun.
  destruct (pool_acquire_cases w) as (s & w0 & Hpool & Hpfd & Hsd & Hcases).
  exists s, w0. split; [exact Hpool |].
  rewrite (acquire_next_image_run w s w0 Hpool) in Hrun. cbn zeta in Hrun.
  assert (Halloc : allocated drv w ++ held_semaphores (app w) ≡ₚ
            live [s] ++ live (recycled_semaphores (app w0)) ++
            live (swapchain_acquire_semaphore <$> per_frame_data (app w))).
  { unfold allocated, held_semaphores.
    destruct Hcases as [(Hnil & Hs & Happ & _) | (Hsnoc & _)].
    - rewrite Hnil, Happ, Hnil, Hs. reflexivity.
    - rewrite Hsnoc.
      destruct (recycled_semaphores (app w0) ++ [s]) eqn:Hl.
      { now destruct (recycled_semaphores (app w0)). }
      rewrite <- Hl, !live_app. cbn [app]. solve_Permutation. }
  destruct (bool_decide (_ = eSuccess)) eqn:Hres.
  - apply bool_decide_eq_true in Hres. rewrite Hpfd in Hrun.
    destruct (per_frame_data (app w) !! N.to_nat _) as [pfd|] eqn:Hslot;
      [|discriminate].
    injection Hrun as <- <-. cbn -[live].
    split; [intros Hne; now contradict Hne |].
    split; [intros _; exists pfd; now repeat split |].
    rewrite Halloc. unfold held_semaphores. cbn -[live].
    pose proof (lookup_lt_Some _ _ _ Hslot) as Hlt.
    rewrite insert_take_drop by exact Hlt.
    generalize (take_drop_middle _ _ _ Hslot).
    generalize (take (N.to_nat (drv_acquire drv (calls w0)).2) (per_frame_data (app w)))
      (drop (S (N.to_nat (drv_acquire drv (calls w0)).2)) (per_frame_data (app w))).
    intros T D <-.
    rewrite !fmap_app, !fmap_cons, !live_app.
    rewrite (live_cons (swapchain_acquire_semaphore (set_acquire_semaphore s pfd))),
      (live_cons (swapchain_acquire_semaphore pfd)), live_displaced.
    change (swapchain_acquire_semaphore (set_acquire_semaphore s pfd)) with s.
    solve_Permutation.
  - apply bool_decide_eq_false in Hres.
    injection Hrun as <- <-. cbn -[live].
    split; [intros _; now rewrite Hpfd |].
    split; [intros Heq; now contradict Hres |].
    rewrite Halloc. unfold held_semaphores. cbn -[live]. rewrite Hpfd, !live_app.
    solve_Permutation.
Qed.

End Acquire.

(** ** Call histories *)

Lemma count_app p l1 l2 : count p (l1 ++ l2) = count p l1 + count p l2.
Proof. induction l1 as [|c l1 IH]; simpl; [reflexivity | rewrite IH; lia]. Qed.

Lemma count_quiet p l :
  (∀ c, p c = true → quiet c = false) → forallb quiet l = true → count p l = 0.
Proof.
  intros Hp. induction l as [|c l IH]; simpl; [reflexivity |].
  intros [Hc Hl]%andb_true_iff. rewrite (IH Hl).
  destruct (p c) eqn:E; [|reflexivity]. apply Hp in E. congruence.
Qed.

Lemma quietly_refl w : quietly w w.
Proof. exists []. now rewrite app_nil_r. Qed.

Lemma quietly_trans w1 w2 w3 : quietly w1 w2 → quietly w2 w3 → quietly w1 w3.
Proof.
  intros (d1 & H1 & Q1) (d2 & H2 & Q2). exists (d1 ++ d2).
  rewrite H2, H1, <- app_assoc, forallb_app, Q1, Q2. now split.
Qed.

Lemma quietly_emit a a' c d :
  forallb quiet d = true →
  quietly {| app := a; calls := c |} {| app := a'; calls := c ++ d |}.
Proof. intros Q. now exists d. Qed.

(** Loops: an invariant [I] that makes every iteration return, and a
    relation [R] between the states before and after. *)
Lemma for_each_spec {A} (f : A → M unit) (l : list A)
    (I : World → Prop) (R : World → World → Prop) :
  (∀ w, R w w) →
  (∀ w1 w2 w3, R w1 w2 → R w2 w3 → R w1 w3) →
  (∀ x w, x ∈ l → I w → ∃ w', f x w = Some (tt, w') ∧ I w' ∧ R w w') →
  ∀ w, I w → ∃ w', for_each f l w = Some (tt, w') ∧ I w' ∧ R w w'.
Proof.
  intros Rrefl Rtrans. induction l as [|x l IH]; intros Hbody w HI.
  - exists w. repeat split; [exact HI | apply Rrefl].
  - destruct (Hbody x w) as (w1 & Hx & HI1 & HR1); [left | exact HI |].
    destruct (IH (λ y w Hy, Hbody y w (list_elem_of_further _ _ _ Hy)) w1 HI1)
      as (w2 & Hl & HI2 & HR2).
    exists w2. simpl. erewrite bind_run by exact Hx.
    repeat split; [exact Hl | exact HI2 | eapply Rtrans; eassumption].
Qed.

Lemma housekeeping_refl w : housekeeping w w.
Proof. repeat split. apply quietly_refl. Qed.

Lemma housekeeping_trans w1 w2 w3 :
  housekeeping w1 w2 → housekeeping w2 w3 → housekeeping w1 w3.
Proof.
  unfold housekeeping, keeps.
  intros (Q1 & E1 & F1 & S1 & P1 & D1) (Q2 & E2 & F2 & S2 & P2 & D2).
  split; [eapply quietly_trans; eassumption |].
  repeat split; congruence.
Qed.

Section Rebuild.

Context (drv : Driver).

Lemma getSurfaceCapabilitiesKHR_run a c :
  getSurfaceCapabilitiesKHR drv {| app := a; calls := c |} =
    Some (drv_surface_capabilities drv c,
          {| app := a;
             calls := c ++ [GetSurfaceCapabilitiesKHR (gpu a) (surface a)
                              (drv_surface_capabilities drv c)] |}).
Proof. reflexivity. Qed.

Lemma select_surface_format_run a c :
  select_surface_format drv {| app := a; calls := c |} =
    Some (drv_surface_format drv c,
          {| app := a;
             calls := c ++ [SelectSurfaceFormat (gpu a) (surface a)
                              (drv_surface_format drv c)] |}).
Proof. reflexivity. Qed.

Lemma getSwapchainImagesKHR_run sc a c :
  getSwapchainImagesKHR drv sc {| app := a; calls := c |} =
    Some (drv_swapchain_images drv c sc,
          {| app := a;
             calls := c ++ [GetSwapchainImagesKHR sc (drv_swapchain_images drv c sc)] |}).
Proof. reflexivity. Qed.

Lemma this_run a c : this {| app := a; calls := c |} = Some (a, {| app := a; calls := c |}).
Proof. reflexivity. Qed.

Lemma modify_run f a c :
  modify f {| app := a; calls := c |} = Some (tt, {| app := f a; calls := c |}).
Proof. reflexivity. Qed.

Lemma emit_run x a c :
  emit x {| app := a; calls := c |} = Some (tt, {| app := a; calls := c ++ [x] |}).
Proof. reflexivity. Qed.

Lemma for_each_emit {A} (g : A → Call) (l : list A) : ∀ a c,
  for_each (λ x, emit (g x)) l {| app := a; calls := c |} =
    Some (tt, {| app := a; calls := c ++ (g <$> l) |}).
Proof.
  induction l as [|x l IH]; intros a c; simpl.
  - now rewrite app_nil_r.
  - run. rewrite IH, <- app_assoc. reflexivity.
Qed.

Lemma forallb_quiet_fmap {A} (g : A → Call) (l : list A) :
  (∀ x, quiet (g x) = true) → forallb quiet (g <$> l) = true.
Proof. intros Hg. induction l as [|x l IH]; simpl; [reflexivity | now rewrite Hg]. Qed.

Lemma teardown_calls_quiet pfd : forallb quiet (teardown_calls pfd) = true.
Proof.
  unfold teardown_calls, if_set.
  repeat match goal with |- context [is_set ?h] => destruct (is_set h) end;
    reflexivity.
Qed.

(** *** Image count *)

Lemma desired_swapchain_images_clamp caps :
  desired_swapchain_images caps =
    if (maxImageCount caps =? 0)%N
    then add32 (minImageCount caps) 1
    else N.min (add32 (minImageCount caps) 1) (maxImageCount caps).
Proof.
  unfold desired_swapchain_images.
  destruct (N.eqb_spec (maxImageCount caps) 0) as [-> | Hmax].
  - reflexivity.
  - destruct (N.ltb_spec 0 (maxImageCount caps)); [|lia].
    destruct (N.ltb_spec (maxImageCount caps) (add32 (minImageCount caps) 1));
      cbn [andb]; lia.
Qed.

Lemma create_swapchain_run e f old a c :
  let caps := drv_surface_capabilities drv c in
  let query := GetSurfaceCapabilitiesKHR (gpu a) (surface a) caps in
  let h := drv_new_handle drv (c ++ [query]) in
  ∃ info,
    create_swapchain drv e f old {| app := a; calls := c |} =
      Some (h, {| app := a; calls := c ++ [query; CreateSwapchainKHR info h] |}) ∧
    ci_minImageCount info = desired_swapchain_images caps ∧
    ci_imageExtent info = e ∧
    ci_oldSwapchain info = old ∧
    ci_presentMode info = PresentMode_eFifo.
Proof.
  intros caps query h. eexists. split.
  - unfold create_swapchain, getSurfaceCapabilitiesKHR, create. run.
    rewrite <- app_assoc. reflexivity.
  - repeat split.
Qed.

(** C5. Whatever the surface reports, [create_swapchain] asks once for its
    capabilities and then creates the swapchain with an image count of
    [minImageCount + 1] (in [uint32_t]), lowered to [maxImageCount] when
    that is not zero and smaller; the 32-bit sum is the exact one unless
    [minImageCount] is [0xFFFFFFFF]; for [minImageCount = 2] and
    [maxImageCount = 0] the count is 3. *)
Theorem create_swapchain_image_count (e : Extent2D) (f : SurfaceFormatKHR)
    (old : Handle) (w : World) :
  let caps := drv_surface_capabilities drv (calls w) in
  ∃ info h w1,
    create_swapchain drv e f old w = Some (h, w1) ∧
    calls w1 =
      calls w ++ [GetSurfaceCapabilitiesKHR (gpu (app w)) (surface (app w)) caps;
                  CreateSwapchainKHR info h] ∧
    ci_minImageCount info =
      (if (maxImageCount caps =? 0)%N
       then add32 (minImageCount caps) 1
       else N.min (add32 (minImageCount caps) 1) (maxImageCount caps)) ∧
    ((minImageCount caps < UINT32_MAX)%N →
       add32 (minImageCount caps) 1 = (minImageCount caps + 1)%N) ∧
    (minImageCount caps = 2%N → maxImageCount caps = 0%N →
       ci_minImageCount info = 3%N).
Proof.
  intros caps. destruct w as [a c].
  destruct (create_swapchain_run e f old a c) as (info & Hrun & Hcount & _).
  eexists info, _, _. split; [exact Hrun |]. cbn [calls app].
  split; [reflexivity |].
  rewrite Hcount, desired_swapchain_images_clamp. subst caps.
  split; [reflexivity |]. split.
  - unfold add32, UINT32_MAX. intros Hlt. apply N.mod_small. lia.
  - cbn [calls]. intros Hmin Hmax. rewrite Hmin, Hmax. reflexivity.
Qed.

(** *** The blocks of [init_swapchain] *)

Lemma teardown_frame_run i a c pfd :
  per_frame_data a !! i = Some pfd →
  teardown_frame i {| app := a; calls := c |} =
    Some (tt, {| app := set_per_frame_data (<[i := FrameData_null]> (per_frame_data a)) a;
                 calls := c ++ teardown_calls pfd |}).
Proof.
  intros H. unfold teardown_frame.
  erewrite (bind_run (frame i)) by (run; rewrite H; reflexivity).
  erewrite bind_run by apply teardown_per_frame_run.
  reflexivity.
Qed.

Lemma teardown_frames_spec n w :
  n ≤ length (per_frame_data (app w)) →
  ∃ w', for_each teardown_frame (seq 0 n) w = Some (tt, w') ∧
    length (per_frame_data (app w')) = length (per_frame_data (app w)) ∧
    housekeeping w w'.
Proof.
  intros Hn.
  destruct (for_each_spec teardown_frame (seq 0 n)
              (λ w', length (per_frame_data (app w')) = length (per_frame_data (app w)))
              housekeeping housekeeping_refl housekeeping_trans) with (w := w)
    as (w' & Hrun & Hlen & Hk); [| reflexivity | eauto].
  intros i [a c] Hi Hlen. cbn in Hlen.
  apply elem_of_seq in Hi.
  destruct (lookup_lt_is_Some_2 (per_frame_data a) i) as [pfd Hpfd]; [lia |].
  eexists. split; [apply (teardown_frame_run i a c pfd Hpfd) |]. cbn.
  split; [rewrite length_insert; exact Hlen |].
  split; [apply quietly_emit, teardown_calls_quiet | now repeat split].
Qed.

Lemma retire_old_swapchain_spec old w :
  (∀ tr, length (drv_swapchain_images drv tr old) ≤ length (per_frame_data (app w))) →
  ∃ w', retire_old_swapchain drv old w = Some (tt, w') ∧ housekeeping w w'.
Proof.
  intros Hcover. destruct w as [a c]. unfold retire_old_swapchain.
  erewrite bind_run by apply this_run.
  erewrite bind_run by apply for_each_emit.
  erewrite bind_run by apply getSwapchainImagesKHR_run.
  match goal with |- context [for_each teardown_frame (seq 0 ?n) ≫= _] =>
    destruct (teardown_frames_spec n
      {| app := a;
         calls := (c ++ (DestroyImageView <$> image_views (swapchain_data a))) ++
                  [GetSwapchainImagesKHR old
                     (drv_swapchain_images drv
                        (c ++ (DestroyImageView <$> image_views (swapchain_data a))) old)] |})
      as (w1 & Hrun & _ & Hk)
  end.
  { cbn. apply Hcover. }
  cbn in Hrun |- *. erewrite bind_run by exact Hrun.
  destruct w1 as [a1 c1]. eexists. split; [reflexivity |].
  eapply housekeeping_trans; [| eapply housekeeping_trans; [exact Hk |]].
  - split; [| now repeat split].
    rewrite <- app_assoc. apply quietly_emit.
    rewrite forallb_app, forallb_quiet_fmap by reflexivity. reflexivity.
  - split; [| now repeat split].
    apply quietly_emit. reflexivity.
Qed.

Lemma init_per_frame_spec n w :
  ∃ w', init_per_frame drv n w = Some (tt, w') ∧
    length (per_frame_data (app w')) = n ∧
    housekeeping w w'.
Proof.
  destruct w as [a c]. unfold init_per_frame.
  erewrite bind_run by apply modify_run.
  match goal with |- context [for_each ?f (seq 0 n) ?w0] =>
    destruct (for_each_spec f (seq 0 n)
                (λ w', length (per_frame_data (app w')) = n)
                housekeeping housekeeping_refl housekeeping_trans) with (w := w0)
      as (w' & Hrun & Hlen & Hk)
  end.
  - intros i [a1 c1] Hi Hlen. cbn in Hlen. apply elem_of_seq in Hi.
    destruct (lookup_lt_is_Some_2 (per_frame_data a1) i) as [pfd Hpfd]; [lia |].
    erewrite (bind_run (frame i)) by (run; rewrite Hpfd; reflexivity).
    eexists. split; [reflexivity |]. cbn.
    split; [rewrite length_insert; exact Hlen |].
    split; [| now repeat split].
    rewrite <- !app_assoc. apply quietly_emit. reflexivity.
  - cbn. apply length_replicate.
  - exists w'. split; [exact Hrun |]. split; [exact Hlen |].
    eapply housekeeping_trans; [| exact Hk].
    split; [| now repeat split].
    exists []. cbn. now rewrite app_nil_r.
Qed.

Lemma create_image_views_spec images w :
  ∃ w', create_image_views drv images w = Some (tt, w') ∧
    length (per_frame_data (app w')) = length (per_frame_data (app w)) ∧
    housekeeping w w'.
Proof.
  unfold create_image_views.
  match goal with |- context [for_each ?f images w] =>
    destruct (for_each_spec f images
                (λ w', length (per_frame_data (app w')) = length (per_frame_data (app w)))
                housekeeping housekeeping_refl housekeeping_trans) with (w := w)
      as (w' & Hrun & Hlen & Hk)
  end; [| reflexivity | eauto].
  intros image [a1 c1] _ Hlen. cbn in Hlen.
  eexists. split; [reflexivity |]. cbn.
  split; [exact Hlen |].
  split; [apply quietly_emit; reflexivity | now repeat split].
Qed.

Lemma when_retire_spec old w :
  (is_set old = true →
   ∀ tr, length (drv_swapchain_images drv tr old) ≤ length (per_frame_data (app w))) →
  ∃ w', when (is_set old) (retire_old_swapchain drv old) w = Some (tt, w') ∧
    housekeeping w w'.
Proof.
  intros Hcover. unfold when. destruct (is_set old).
  - apply retire_old_swapchain_spec. now apply Hcover.
  - exists w. split; [reflexivity | apply housekeeping_refl].
Qed.

(** *** [init_swapchain] as a whole *)

Lemma init_swapchain_spec w :
  let a := app w in
  let caps := drv_surface_capabilities drv (calls w) in
  let chosen := choose_extent caps (extent (swapchain_data a)) in
  slots_cover_images drv w →
  ∃ w' fmt caps2 info h rest,
    init_swapchain drv w = Some (tt, w') ∧
    calls w' =
      calls w ++
      [GetSurfaceCapabilitiesKHR (gpu a) (surface a) caps;
       SelectSurfaceFormat (gpu a) (surface a) fmt;
       GetSurfaceCapabilitiesKHR (gpu a) (surface a) caps2;
       CreateSwapchainKHR info h] ++ rest ∧
    forallb quiet rest = true ∧
    ci_imageExtent info = chosen ∧
    ci_oldSwapchain info = swapchain (swapchain_data a) ∧
    ci_minImageCount info = desired_swapchain_images caps2 ∧
    extent (swapchain_data (app w')) = chosen ∧
    swapchain (swapchain_data (app w')) = h ∧
    framebuffers (swapchain_data (app w')) = framebuffers (swapchain_data a) ∧
    recycled_semaphores (app w') = recycled_semaphores a ∧
    device (app w') = device a.
Proof.
  destruct w as [a c]. cbn [app calls]. intros Hcover.
  unfold slots_cover_images in Hcover. cbn [app calls] in Hcover.
  unfold init_swapchain.
  erewrite bind_run by apply getSurfaceCapabilitiesKHR_run.
  erewrite bind_run by apply this_run.
  erewrite bind_run by apply select_surface_format_run.
  match goal with |- context [create_swapchain drv ?e ?f ?old] =>
    destruct (create_swapchain_run e f old a
      ((c ++ [GetSurfaceCapabilitiesKHR (gpu a) (surface a) (drv_surface_capabilities drv c)]) ++
       [SelectSurfaceFormat (gpu a) (surface a)
          (drv_surface_format drv
             (c ++ [GetSurfaceCapabilitiesKHR (gpu a) (surface a)
                      (drv_surface_capabilities drv c)]))]))
      as (info & Hcreate & Hcount & Hext & Hold & _)
  end.
  erewrite bind_run by exact Hcreate.
  erewrite bind_run by apply modify_run.
  match goal with |- context [when _ _ ≫= _] =>
    match goal with |- ∃ _ _ _ _ _ _, (_ ≫= _) ?w0 = _ ∧ _ =>
      destruct (when_retire_spec (swapchain (swapchain_data a)) w0)
        as (w1 & Hretire & Hk1); [exact Hcover |]
    end
  end.
  erewrite bind_run by exact Hretire.
  destruct w1 as [a1 c1].
  erewrite bind_run by apply modify_run.
  erewrite bind_run by apply getSwapchainImagesKHR_run.
  match goal with |- context [init_per_frame drv ?n ≫= _] =>
    match goal with |- ∃ _ _ _ _ _ _, (_ ≫= _) ?w0 = _ ∧ _ =>
      destruct (init_per_frame_spec n w0) as (w2 & Hframes & _ & Hk2)
    end
  end.
  erewrite bind_run by exact Hframes.
  match goal with |- context [create_image_views drv ?imgs w2] =>
    destruct (create_image_views_spec imgs w2) as (w3 & Hviews & _ & Hk3)
  end.
  pose proof (housekeeping_trans _ _ _ Hk2 Hk3) as Hk23.
  destruct Hk1 as ((d1 & Hc1 & Hq1) & _ & Hf1 & Hs1 & Hp1 & Hd1).
  destruct Hk23 as ((d2 & Hc2 & Hq2) & He2 & Hf2 & Hs2 & Hp2 & Hd2).
  unfold keeps in *. cbn in Hc1, Hf1, Hs1, Hp1, Hd1, Hc2, He2, Hf2, Hs2, Hp2, Hd2.
  repeat rewrite <- app_assoc in Hs1.
  repeat rewrite <- app_assoc in Hcount.
  eexists w3, _, _, info, _, (d1 ++ _ :: d2).
  split; [exact Hviews |].
  split; [rewrite Hc2, Hc1, <- !app_assoc; reflexivity |].
  split; [rewrite forallb_app; cbn; now rewrite Hq1, Hq2 |].
  repeat split; congruence.
Qed.

(** C6. Whenever [init_swapchain] builds (or rebuilds) the swapchain, with
    frame slots for all images of the old swapchain, it returns with the
    swapchain created at, and [swapchain_data.extent] set to, the current
    extent the surface reported to it, unless the reported width is
    [0xFFFFFFFF], as it is in the undefined extent: then both are the
    extent stored before the call. *)
Theorem init_swapchain_extent (w : World) :
  slots_cover_images drv w →
  let reported := currentExtent (drv_surface_capabilities drv (calls w)) in
  let stored := extent (swapchain_data (app w)) in
  let built := if (width reported =? UINT32_MAX)%N then stored else reported in
  ∃ w1 info h,
    init_swapchain drv w = Some (tt, w1) ∧
    extent (swapchain_data (app w1)) = built ∧
    CreateSwapchainKHR info h ∈ calls w1 ∧
    count is_swapchain_creation (drop (length (calls w)) (calls w1)) = 1 ∧
    ci_imageExtent info = built ∧
    swapchain (swapchain_data (app w1)) = h ∧
    (reported = undefined_extent → extent (swapchain_data (app w1)) = stored) ∧
    (width reported ≠ UINT32_MAX → extent (swapchain_data (app w1)) = reported).
Proof.
  intros Hcover reported stored built.
  destruct (init_swapchain_spec w Hcover)
    as (w1 & fmt & caps2 & info & h & rest & Hrun & Hcalls & Hq & Hext & _ & _ & Hstored & Hh & _).
  fold reported stored in Hext, Hstored. unfold choose_extent in Hext, Hstored.
  fold reported built in Hext, Hstored.
  exists w1, info, h.
  split; [exact Hrun |]. split; [exact Hstored |]. split.
  { rewrite Hcalls. apply elem_of_app. right.
    do 3 apply list_elem_of_further. left. }
  split.
  { rewrite Hcalls, drop_app_length. cbn.
    rewrite (count_quiet _ rest); [reflexivity | | exact Hq].
    now intros []. }
  split; [exact Hext |]. split; [exact Hh |].
  rewrite Hstored. unfold built. split.
  - intros ->. reflexivity.
  - intros Hwidth. apply N.eqb_neq in Hwidth. now rewrite Hwidth.
Qed.

(** *** Framebuffers *)

Lemma teardown_framebuffers_run a c :
  teardown_framebuffers {| app := a; calls := c |} =
    Some (tt, {| app := set_swapchain_data (set_framebuffers [] (swapchain_data a)) a;
                 calls := c ++ QueueWaitIdle ::
                            (DestroyFramebuffer <$> framebuffers (swapchain_data a)) |}).
Proof.
  unfold teardown_framebuffers.
  erewrite bind_run by apply emit_run.
  erewrite bind_run by apply this_run.
  erewrite bind_run by apply for_each_emit.
  rewrite modify_run, <- app_assoc. reflexivity.
Qed.

Lemma framing_refl w : framing w w.
Proof. repeat split. apply quietly_refl. Qed.

Lemma framing_trans w1 w2 w3 : framing w1 w2 → framing w2 w3 → framing w1 w3.
Proof.
  unfold framing, keeps.
  intros (Q1 & E1 & S1 & V1 & F1 & P1) (Q2 & E2 & S2 & V2 & F2 & P2).
  split; [eapply quietly_trans; eassumption |].
  repeat split; congruence.
Qed.

Lemma init_framebuffers_spec w :
  framebuffers (swapchain_data (app w)) = [] →
  ∃ w', init_framebuffers drv w = Some (tt, w') ∧ framing w w'.
Proof.
  intros Hempty. destruct w as [a c]. cbn in Hempty.
  unfold init_framebuffers.
  erewrite bind_run by apply this_run. rewrite Hempty.
  match goal with |- context [for_each ?f ?l ?w0] =>
    destruct (for_each_spec f l (λ _, True) framing framing_refl framing_trans)
      with (w := w0) as (w' & Hrun & _ & Hk)
  end; [| exact I | eauto].
  intros view [a1 c1] _ _.
  eexists. split; [reflexivity |]. cbn.
  split; [exact I |].
  split; [apply quietly_emit; reflexivity | now repeat split].
Qed.

(** *** [resize] *)

Lemma resize_without_device x y w :
  is_set (device (app w)) = false → resize drv x y w = Some (false, w).
Proof.
  intros Hdev. destruct w as [a c]. unfold resize.
  erewrite bind_run by apply this_run. cbn in Hdev. rewrite Hdev. reflexivity.
Qed.

Lemma resize_same_extent x y w :
  is_set (device (app w)) = true →
  currentExtent (drv_surface_capabilities drv (calls w)) = extent (swapchain_data (app w)) →
  resize drv x y w =
    Some (false,
          {| app := app w;
             calls := calls w ++
               [GetSurfaceCapabilitiesKHR (gpu (app w)) (surface (app w))
                  (drv_surface_capabilities drv (calls w))] |}).
Proof.
  intros Hdev Hsame. destruct w as [a c]. cbn in Hdev, Hsame. unfold resize.
  erewrite bind_run by apply this_run. rewrite Hdev. cbn [negb].
  erewrite bind_run by apply getSurfaceCapabilitiesKHR_run.
  now rewrite bool_decide_eq_true_2.
Qed.

Lemma resize_rebuilds x y w :
  let a := app w in
  let caps := drv_surface_capabilities drv (calls w) in
  is_set (device a) = true →
  currentExtent caps ≠ extent (swapchain_data a) →
  slots_cover_images drv w →
  ∃ w' caps1 fmt caps2 info h rest,
    resize drv x y w = Some (true, w') ∧
    calls w' =
      calls w ++
      [GetSurfaceCapabilitiesKHR (gpu a) (surface a) caps; DeviceWaitIdle; QueueWaitIdle] ++
      (DestroyFramebuffer <$> framebuffers (swapchain_data a)) ++
      [GetSurfaceCapabilitiesKHR (gpu a) (surface a) caps1;
       SelectSurfaceFormat (gpu a) (surface a) fmt;
       GetSurfaceCapabilitiesKHR (gpu a) (surface a) caps2;
       CreateSwapchainKHR info h] ++ rest ∧
    forallb quiet rest = true ∧
    ci_imageExtent info = choose_extent caps1 (extent (swapchain_data a)) ∧
    ci_oldSwapchain info = swapchain (swapchain_data a) ∧
    extent (swapchain_data (app w')) = choose_extent caps1 (extent (swapchain_data a)) ∧
    swapchain (swapchain_data (app w')) = h ∧
    recycled_semaphores (app w') = recycled_semaphores a.
Proof.
  destruct w as [a c]. cbn [app calls]. intros Hdev Hdiff Hcover.
  unfold slots_cover_images in Hcover. cbn [app calls] in Hcover.
  unfold resize.
  erewrite bind_run by apply this_run. rewrite Hdev. cbn [negb].
  erewrite bind_run by apply getSurfaceCapabilitiesKHR_run.
  rewrite bool_decide_eq_false_2 by exact Hdiff.
  erewrite bind_run by apply emit_run.
  erewrite bind_run by apply teardown_framebuffers_run.
  match goal with |- context [(init_swapchain drv ≫= _) ?w0] =>
    destruct (init_swapchain_spec w0)
      as (w1 & fmt & caps2 & info & h & rest1 & Hrun1 & Hc1 & Hq1 & Hext & Hold & _ &
          Hstored & Hh & Hfb & Hpool & _); [exact Hcover |]
  end.
  cbn [app calls swapchain_data set_swapchain_data set_framebuffers extent swapchain
       recycled_semaphores gpu surface framebuffers]
    in Hc1, Hext, Hold, Hstored, Hh, Hfb, Hpool.
  erewrite bind_run by exact Hrun1.
  destruct (init_framebuffers_spec w1) as (w2 & Hrun2 & Hk2); [exact Hfb |].
  erewrite bind_run by exact Hrun2.
  destruct Hk2 as ((d2 & Hc2 & Hq2) & He2 & Hs2 & _ & _ & Hp2).
  unfold keeps in *.
  match type of Hext with _ = choose_extent ?caps1 _ =>
    exists w2, caps1, fmt, caps2, info, h, (rest1 ++ d2)
  end.
  split; [reflexivity |].
  split; [rewrite Hc2, Hc1; cbn; repeat rewrite <- app_assoc; cbn; reflexivity |].
  split; [now rewrite forallb_app, Hq1, Hq2 |].
  repeat split; congruence.
Qed.

(** *** What a call of [resize] amounts to *)

Lemma count_cons p c l : count p (c :: l) = (if p c then 1 else 0) + count p l.
Proof. reflexivity. Qed.

Lemma count_fmap_quiet {A} p (g : A → Call) (l : list A) :
  (∀ x, p (g x) = false) → count p (g <$> l) = 0.
Proof. intros Hg. induction l as [|x l IH]; simpl; [reflexivity | now rewrite Hg]. Qed.

Lemma resize_calls x y w :
  slots_cover_images drv w →
  ∃ w1 d,
    resize drv x y w = Some (extent_changed drv w, w1) ∧
    calls w1 = calls w ++ d ∧
    count is_swapchain_creation d = (if extent_changed drv w then 1 else 0) ∧
    count is_acquire d = 0 ∧
    count is_submit d = 0 ∧
    count is_present d = 0 ∧
    (extent_changed drv w = false → app w1 = app w) ∧
    (extent_changed drv w = true →
     ∃ caps1 info h,
       CreateSwapchainKHR info h ∈ d ∧
       ci_imageExtent info = choose_extent caps1 (extent (swapchain_data (app w))) ∧
       extent (swapchain_data (app w1)) = ci_imageExtent info).
Proof.
  intros Hcover. unfold extent_changed.
  destruct (is_set (device (app w))) eqn:Hdev; cbn [andb].
  - destruct (decide (currentExtent (drv_surface_capabilities drv (calls w))
                      = extent (swapchain_data (app w)))) as [Hsame | Hdiff].
    + rewrite bool_decide_eq_true_2 by exact Hsame. cbn [negb].
      eexists _, [_]. split; [apply (resize_same_extent x y w Hdev Hsame) |].
      cbn. repeat split. discriminate.
    + rewrite bool_decide_eq_false_2 by exact Hdiff. cbn [negb].
      destruct (resize_rebuilds x y w Hdev Hdiff Hcover)
        as (w1 & caps1 & fmt & caps2 & info & h & rest & Hrun & Hcalls & Hq & Hext &
            _ & Hstored & _).
      eexists w1, _. split; [exact Hrun |]. split; [exact Hcalls |].
      repeat (rewrite count_app || rewrite count_cons). cbn [count].
      rewrite !count_fmap_quiet by reflexivity. cbn.
      rewrite !(count_quiet _ rest) by (exact Hq || now intros []).
      repeat split; [discriminate |].
      intros _. exists caps1, info, h. split; [| split; congruence].
      do 3 apply list_elem_of_further. apply elem_of_app. right.
      do 3 apply list_elem_of_further. left.
  - exists w, []. split; [apply (resize_without_device x y w Hdev) |].
    rewrite app_nil_r. repeat split. discriminate.
Qed.

End Rebuild.

(** ** The frame update *)

Section Frame.

Context (drv : Driver).

Lemma stale_not_success res : stale res = true → res ≠ eSuccess.
Proof. now intros H ->. Qed.

Lemma acquire_next_image_calls w r w1 :
  acquire_next_image drv w = Some (r, w1) →
  ∃ d, calls w1 = calls w ++ d ∧
    count is_acquire d = 1 ∧
    count is_swapchain_creation d = 0 ∧
    count is_submit d = 0 ∧
    count is_present d = 0.
Proof.
  intros Hrun.
  destruct (pool_acquire_cases drv w) as (s & w0 & Hpool & _ & _ & Hcases).
  rewrite (acquire_next_image_run drv w s w0 Hpool) in Hrun. cbn zeta in Hrun.
  assert (Hreuse : ∀ pfd p, (∀ c, p c = true → quiet c = false) →
                     count p (slot_reuse_calls pfd) = 0).
  { intros pfd p Hp. apply count_quiet; [exact Hp |].
    unfold slot_reuse_calls, if_set.
    now destruct (is_set (queue_submit_fence pfd)), (is_set (primary_command_pool pfd)). }
  assert (Hd0 : ∃ d0, calls w0 = calls w ++ d0 ∧ forallb quiet d0 = true ∧
                       count is_acquire d0 = 0).
  { destruct Hcases as [(_ & _ & _ & Hc) | (_ & Hc)].
    - eexists [_]. split; [exact Hc |]. now split.
    - exists []. rewrite app_nil_r. now split. }
  destruct Hd0 as (d0 & Hc0 & Hq0 & Ha0).
  destruct (bool_decide (_ = eSuccess)).
  - destruct (per_frame_data (app w0) !! _) as [pfd|]; [|discriminate].
    injection Hrun as <- <-. cbn [calls].
    exists (d0 ++ [acquire_call drv w0 s] ++ slot_reuse_calls pfd).
    split; [now rewrite Hc0, <- !app_assoc |].
    rewrite !count_app, Ha0. cbn [count acquire_call is_acquire is_swapchain_creation
                                  is_submit is_present].
    rewrite !Hreuse by now intros [].
    rewrite !(count_quiet _ d0) by (exact Hq0 || now intros []).
    now repeat split.
  - injection Hrun as <- <-. cbn [calls].
    exists (d0 ++ [acquire_call drv w0 s]).
    split; [now rewrite Hc0, <- !app_assoc |].
    rewrite !count_app, Ha0. cbn [count acquire_call is_acquire is_swapchain_creation
                                  is_submit is_present].
    rewrite !(count_quiet _ d0) by (exact Hq0 || now intros []).
    now repeat split.
Qed.

Lemma acquire_next_image_failure w r w1 :
  acquire_next_image drv w = Some (r, w1) →
  r.1 ≠ eSuccess →
  ∃ semaphore,
    last (calls w1) =
      Some (AcquireNextImageKHR (swapchain (swapchain_data (app w))) UINT64_MAX
              semaphore r.1 r.2) ∧
    last (recycled_semaphores (app w1)) = Some semaphore ∧
    per_frame_data (app w1) = per_frame_data (app w) ∧
    swapchain_data (app w1) = swapchain_data (app w).
Proof.
  intros Hrun Hfail.
  destruct (pool_acquire_cases drv w) as (s & w0 & Hpool & Hpfd & Hsd & _).
  rewrite (acquire_next_image_run drv w s w0 Hpool) in Hrun. cbn zeta in Hrun.
  destruct (bool_decide (_ = eSuccess)) eqn:Hres.
  - apply bool_decide_eq_true in Hres.
    destruct (per_frame_data (app w0) !! _); [|discriminate].
    injection Hrun as <- <-. now contradict Hfail.
  - injection Hrun as <- <-. exists s. cbn.
    rewrite !last_snoc. unfold acquire_call. rewrite Hsd. now repeat split.
Qed.

Lemma drop_calls (c d : list Call) : drop (length c) (c ++ d) = d.
Proof. apply drop_app_length. Qed.

Lemma presentKHR_run sem sc index a c :
  presentKHR drv sem sc index {| app := a; calls := c |} =
    Some (drv_present drv c,
          {| app := a; calls := c ++ [QueuePresentKHR sem sc index (drv_present drv c)] |}).
Proof. reflexivity. Qed.

Lemma frame_run i a c pfd :
  per_frame_data a !! i = Some pfd →
  frame i {| app := a; calls := c |} = Some (pfd, {| app := a; calls := c |}).
Proof. intros H. unfold frame. erewrite bind_run by apply this_run. now rewrite H. Qed.

Lemma update_renders w0 r w1 w :
  acquire_with_retry drv w0 = Some (r, w1) →
  r.1 = eSuccess →
  render_triangle drv r.2 w1 = Some (tt, w) →
  update drv w0 = present_frame drv r.2 w.
Proof.
  intros Hacq Hres Hrender. unfold update.
  erewrite bind_run by exact Hacq. cbn zeta.
  rewrite bool_decide_eq_true_2 by exact Hres. cbn [negb].
  erewrite bind_run by exact Hrender. reflexivity.
Qed.

Lemma render_triangle_calls i w w' :
  render_triangle drv i w = Some (tt, w') →
  ∃ d, calls w' = calls w ++ d ∧
    count is_acquire d = 0 ∧
    count is_swapchain_creation d = 0 ∧
    count is_submit d = 1 ∧
    count is_present d = 0.
Proof.
  destruct w as [a c]. unfold render_triangle.
  erewrite bind_run by apply this_run.
  destruct (framebuffers (swapchain_data a) !! N.to_nat i) as [fb|]; [|discriminate].
  destruct (per_frame_data a !! N.to_nat i) as [pfd|] eqn:Hslot.
  2:{ intros H. apply bind_Some in H as (? & ? & H & _).
      unfold frame in H. erewrite bind_run in H by apply this_run.
      rewrite Hslot in H. discriminate. }
  erewrite bind_run by (apply frame_run; exact Hslot).
  do 8 (erewrite bind_run by apply emit_run).
  pose proof (lookup_lt_Some _ _ _ Hslot) as Hlt.
  destruct (is_set (swapchain_release_semaphore pfd)); cbn [negb when].
  - erewrite (bind_run (mret tt)) by reflexivity.
    erewrite bind_run by (apply frame_run; exact Hslot).
    rewrite emit_run. intros [= <-]. cbn [calls].
    eexists. rewrite <- !app_assoc. split; [reflexivity |]. now cbn.
  - erewrite (bind_run (_ ≫= _)) by reflexivity.
    erewrite bind_run
      by (apply frame_run; cbn; apply list_lookup_insert_eq; exact Hlt).
    rewrite emit_run. intros [= <-]. cbn [calls].
    eexists. rewrite <- !app_assoc. split; [reflexivity |]. now cbn.
Qed.

(** The tail of [update] on its own: what C7 is about. *)
Lemma present_frame_calls (w : World) (index : N) (pfd : FrameData) :
  per_frame_data (app w) !! N.to_nat index = Some pfd →
  slots_cover_images drv w →
  let a := app w in
  let res := drv_present drv (calls w) in
  let present :=
    QueuePresentKHR (swapchain_release_semaphore pfd) (swapchain (swapchain_data a))
      index res in
  let wp := {| app := a; calls := calls w ++ [present] |} in
  let stored := extent (swapchain_data a) in
  ∃ w2 d,
    present_frame drv index w = Some (tt, w2) ∧
    calls w2 = calls w ++ present :: d ∧
    count is_present d = 0 ∧
    count is_acquire d = 0 ∧
    (stale res = true →
       resize drv (width stored) (height stored) wp = Some (extent_changed drv wp, w2) ∧
       count is_swapchain_creation d = (if extent_changed drv wp then 1 else 0) ∧
       (extent_changed drv wp = true →
        ∃ caps1 info h,
          CreateSwapchainKHR info h ∈ d ∧
          ci_imageExtent info = choose_extent caps1 stored)) ∧
    (stale res = false → res ≠ eSuccess →
       app w2 = a ∧ d = [LogError "Failed to present swapchain image."%string]) ∧
    (res = eSuccess → app w2 = a ∧ d = []).
Proof.
  intros Hslot Hcover a res present wp stored.
  destruct w as [a' c]. cbn [app calls] in *. subst a.
  unfold present_frame.
  erewrite bind_run by (apply frame_run; exact Hslot).
  erewrite bind_run by apply this_run.
  erewrite bind_run by apply presentKHR_run. fold res present.
  destruct (stale res) eqn:Hstale.
  - destruct (resize_calls drv (width stored) (height stored) wp Hcover)
      as (w2 & d & Hresize & Hc & Hn & Ha & _ & Hp & _ & Hbuilt).
    exists w2, d.
    split.
    { unfold resize_to_stored_extent.
      erewrite (bind_run (this ≫= _)); [reflexivity |].
      erewrite bind_run by apply this_run. exact Hresize. }
    split; [rewrite Hc; cbn; now rewrite <- app_assoc |].
    split; [exact Hp |]. split; [exact Ha |].
    split; [| split; [discriminate |]].
    + intros _. split; [exact Hresize |]. split; [exact Hn |].
      intros Hb. destruct (Hbuilt Hb) as (caps1 & info & h & Hin & Hext & _).
      now exists caps1, info, h.
    + intros ->. discriminate.
  - destruct (decide (res = eSuccess)) as [Hok | Hfail].
    + rewrite bool_decide_eq_true_2 by exact Hok. cbn [negb].
      eexists _, []. split; [reflexivity |]. cbn.
      split; [reflexivity |]. split; [reflexivity |]. split; [reflexivity |].
      split; [discriminate |].
      split; [intros _ Hne; now contradict Hne | now intros _].
    + rewrite bool_decide_eq_false_2 by exact Hfail. cbn [negb].
      eexists _, [_]. split; [reflexivity |]. cbn.
      split; [now rewrite <- app_assoc |].
      split; [reflexivity |]. split; [reflexivity |]. split; [discriminate |].
      split; [now intros _ _ | intros Hok; now contradict Hfail].
Qed.

(** C10. The two arguments of [resize] have no influence: on the same
    state, any two argument pairs give the same return value and the same
    resulting state (or both runs are undefined); the value returned is
    [true] exactly when the device exists and the surface reports an extent
    other than the stored one. *)
Theorem resize_ignores_arguments (x y x' y' : N) (w : World) :
  resize drv x y w = resize drv x' y' w ∧
  ∀ b w1, resize drv x y w = Some (b, w1) → b = extent_changed drv w.
Proof.
  split; [reflexivity |].
  intros b w1. unfold extent_changed.
  destruct (is_set (device (app w))) eqn:Hdev; cbn [andb].
  - destruct (decide (currentExtent (drv_surface_capabilities drv (calls w))
                      = extent (swapchain_data (app w)))) as [Hsame | Hdiff].
    + rewrite (resize_same_extent drv x y w Hdev Hsame).
      rewrite bool_decide_eq_true_2 by exact Hsame. now intros [= <- _].
    + rewrite bool_decide_eq_false_2 by exact Hdiff. cbn [negb].
      destruct w as [a c]. cbn [app calls] in *. unfold resize.
      erewrite bind_run by apply this_run. rewrite Hdev. cbn [negb].
      erewrite bind_run by apply getSurfaceCapabilitiesKHR_run.
      rewrite bool_decide_eq_false_2 by exact Hdiff.
      intros Hrun.
      repeat (apply bind_Some in Hrun as (? & ? & _ & Hrun)).
      now injection Hrun as <- _.
  - rewrite (resize_without_device drv x y w Hdev). now intros [= <- _].
Qed.

End Frame.

(** * The properties on the concrete frame *)

Lemma three_slots_cover reported acquires present w :
  length (per_frame_data (app w)) = 3 →
  slots_cover_images (scripted_driver reported acquires present) w.
Proof. intros H _ tr. rewrite H. cbn. lia. Qed.

(** Instance for C2: image 1 acquired in the first frame, with a created semaphore. *)
Lemma acquire_next_image_success_witness :
  pool_acquire present_stale_same_extent first_frame =
    Some (100%N, {| app := prepared_sample; calls := [CreateSemaphore 100] |}) ∧
  drv_acquire present_stale_same_extent [CreateSemaphore 100] = (eSuccess, 1%N) ∧
  per_frame_data prepared_sample !! 1 = Some (slot 1) ∧
  ∃ w1,
    acquire_next_image present_stale_same_extent first_frame = Some ((eSuccess, 1%N), w1) ∧
    calls w1 =
      [CreateSemaphore 100;
       AcquireNextImageKHR 5 UINT64_MAX 100 eSuccess 1;
       WaitForFences 41 true UINT64_MAX; ResetFences 41; ResetCommandPool 51] ∧
    recycled_semaphores (app w1) = [] ∧
    per_frame_data (app w1) !! 1 =
      Some {| queue_submit_fence := 41;
              primary_command_pool := 51;
              primary_command_buffer := 61;
              swapchain_acquire_semaphore := 100;
              swapchain_release_semaphore := VK_NULL_HANDLE |}.
Proof.
  split; [reflexivity |]. split; [reflexivity |]. split; [reflexivity |].
  destruct (acquire_next_image_success present_stale_same_extent first_frame
              {| app := prepared_sample; calls := [CreateSemaphore 100] |}
              100%N 1%N (slot 1) eq_refl eq_refl eq_refl)
    as (w1 & Hrun & Hcalls & Hpool & Hslots & _).
  exists w1. split; [exact Hrun |]. split; [exact Hcalls |]. split; [exact Hpool |].
  rewrite Hslots. reflexivity.
Defined.

(** Instance for C3: two releases, two acquires; and an acquire on the empty pool. *)
Lemma pool_reuse_law_witness :
  (for_each pool_release [7%N; 8%N] ;;
   repeat_m 2 (pool_acquire stale_twice_same_extent)) first_frame =
    Some ([8%N; 7%N], first_frame) ∧
  recycled_semaphores (app first_frame) = [] ∧
  pool_acquire stale_twice_same_extent first_frame =
    Some (100%N, {| app := prepared_sample; calls := [CreateSemaphore 100] |}).
Proof.
  destruct (pool_reuse_law stale_twice_same_extent [7%N; 8%N] first_frame)
    as [Hreuse Hempty].
  split; [exact Hreuse |]. split; [reflexivity |]. exact (Hempty eq_refl).
Defined.

(** Instance for C5: scenario A, [minImageCount = 2] and [maxImageCount = 0]. *)
Lemma create_swapchain_image_count_witness :
  (minImageCount (surface_report extent_800x600) < UINT32_MAX)%N ∧
  minImageCount (surface_report extent_800x600) = 2%N ∧
  maxImageCount (surface_report extent_800x600) = 0%N ∧
  ∃ info h w1,
    create_swapchain stale_twice_same_extent extent_800x600
      {| sf_format := 44; sf_colorSpace := 0 |} 5%N first_frame = Some (h, w1) ∧
    last (calls w1) = Some (CreateSwapchainKHR info h) ∧
    ci_minImageCount info = 3%N.
Proof.
  split; [reflexivity |]. split; [reflexivity |]. split; [reflexivity |].
  destruct (create_swapchain_image_count stale_twice_same_extent extent_800x600
              {| sf_format := 44; sf_colorSpace := 0 |} 5%N first_frame)
    as (info & h & w1 & Hrun & Hcalls & _ & _ & Hthree).
  exists info, h, w1. split; [exact Hrun |].
  split; [rewrite Hcalls; reflexivity | exact (Hthree eq_refl eq_refl)].
Defined.

(** Instance for C6: a rebuild on a resized window takes the reported extent; on a
    surface that reports the undefined extent it keeps the stored one. *)
Lemma init_swapchain_extent_witness :
  slots_cover_images stale_twice_resized first_frame ∧
  slots_cover_images undefined_extent_driver first_frame ∧
  (∃ w1, init_swapchain stale_twice_resized first_frame = Some (tt, w1) ∧
         extent (swapchain_data (app w1)) = extent_1024x768) ∧
  (∃ w1, init_swapchain undefined_extent_driver first_frame = Some (tt, w1) ∧
         extent (swapchain_data (app w1)) = extent_800x600).
Proof.
  assert (H1 : slots_cover_images stale_twice_resized first_frame)
    by (apply three_slots_cover; reflexivity).
  assert (H2 : slots_cover_images undefined_extent_driver first_frame)
    by (apply three_slots_cover; reflexivity).
  split; [exact H1 |]. split; [exact H2 |]. split.
  - destruct (init_swapchain_extent stale_twice_resized first_frame H1)
      as (w1 & info & h & Hrun & Hext & _).
    exists w1. split; [exact Hrun | exact Hext].
  - destruct (init_swapchain_extent undefined_extent_driver first_frame H2)
      as (w1 & info & h & Hrun & Hext & _).
    exists w1. split; [exact Hrun | exact Hext].
Defined.

(** Instance for C9: the first acquire of the first frame creates semaphore 100 and
    binds it to slot 1. *)
Lemma acquire_next_image_keeps_semaphores_witness :
  acquire_next_image present_stale_resized first_frame =
    Some ((eSuccess, 1%N), acquired_frame) ∧
  held_semaphores (app first_frame) = [] ∧
  held_semaphores (app acquired_frame) ≡ₚ [100%N].
Proof.
  assert (H : acquire_next_image present_stale_resized first_frame =
              Some ((eSuccess, 1%N), acquired_frame)) by (vm_compute; reflexivity).
  split; [exact H |]. split; [reflexivity |].
  destruct (acquire_next_image_keeps_semaphores present_stale_resized
              first_frame acquired_frame (eSuccess, 1%N) H)
    as (s & w0 & _ & _ & _ & Hheld).
  exact Hheld.
Defined.

(** Instance for C10: two argument pairs on the first frame, the window unchanged. *)
Lemma resize_ignores_arguments_witness :
  resize stale_twice_same_extent 1 2 first_frame =
    resize stale_twice_same_extent 800 600 first_frame ∧
  ∃ w1, resize stale_twice_same_extent 1 2 first_frame = Some (false, w1) ∧
        extent_changed stale_twice_same_extent first_frame = false.
Proof.
  destruct (resize_ignores_arguments stale_twice_same_extent 1 2 800 600 first_frame)
    as [Hsame Hvalue].
  split; [exact Hsame |].
  eexists. split; [reflexivity |].
  symmetry. eapply Hvalue. reflexivity.
Defined.

(** * Further properties of the frame cycle *)

(** ** Loops, call by call *)

Section Loops.

Context (drv : Driver).

Lemma length_created {A} (mk : A → Handle → Call) (l : list A) : ∀ c,
  length (created drv mk l c) = length l.
Proof. induction l as [|x l IH]; intros c; simpl; [reflexivity | now rewrite IH]. Qed.

Lemma length_creation_calls {A} (mk : A → Handle → Call) (l : list A) c :
  length (creation_calls drv mk l c) = length l.
Proof.
  unfold creation_calls. rewrite length_zip_with_l_eq; [reflexivity |].
  now rewrite length_created.
Qed.

Lemma count_creation_calls {A} p (mk : A → Handle → Call) (l : list A) :
  (∀ x h, p (mk x h) = false) → ∀ c, count p (creation_calls drv mk l c) = 0.
Proof.
  intros Hp. unfold creation_calls.
  induction l as [|x l IH]; intros c; simpl; [reflexivity |].
  now rewrite Hp, IH.
Qed.

(** A loop that creates one object per element and pushes its handle. *)
Lemma create_and_push_run {A} (mk : HPPHelloTriangle → A → Handle → Call)
    (push : Handle → HPPHelloTriangle → HPPHelloTriangle) (l : list A) :
  (∀ h a, mk (push h a) = mk a) →
  ∀ a c,
    for_each (λ x, a ← this; h ← create drv (mk a x); modify (push h)) l
      {| app := a; calls := c |} =
    Some (tt, {| app := foldl (λ a h, push h a) a (created drv (mk a) l c);
                 calls := c ++ creation_calls drv (mk a) l c |}).
Proof.
  intros Hmk. unfold creation_calls.
  induction l as [|x l IH]; intros a c; simpl.
  - now rewrite app_nil_r.
  - assert (Hbody :
      (a0 ← this; h ← create drv (mk a0 x); modify (push h)) {| app := a; calls := c |} =
      Some (tt, {| app := push (drv_new_handle drv c) a;
                   calls := c ++ [mk a x (drv_new_handle drv c)] |})) by reflexivity.
    erewrite bind_run by exact Hbody.
    rewrite IH, Hmk, <- app_assoc. reflexivity.
Qed.

Lemma push_framebuffers hs : ∀ a,
  foldl (λ a h, set_swapchain_data
           (set_framebuffers (framebuffers (swapchain_data a) ++ [h])
              (swapchain_data a)) a) a hs =
  set_swapchain_data
    (set_framebuffers (framebuffers (swapchain_data a) ++ hs) (swapchain_data a)) a.
Proof.
  induction hs as [|h hs IH]; intros a; simpl.
  - rewrite app_nil_r. now destruct a as [? ? ? ? ? [] ? ? ? ?].
  - rewrite IH. cbn. now rewrite <- app_assoc.
Qed.

Lemma push_image_views hs : ∀ a,
  foldl (λ a h, set_swapchain_data
           (set_image_views (image_views (swapchain_data a) ++ [h])
              (swapchain_data a)) a) a hs =
  set_swapchain_data
    (set_image_views (image_views (swapchain_data a) ++ hs) (swapchain_data a)) a.
Proof.
  induction hs as [|h hs IH]; intros a; simpl.
  - rewrite app_nil_r. now destruct a as [? ? ? ? ? [] ? ? ? ?].
  - rewrite IH. cbn. now rewrite <- app_assoc.
Qed.

Lemma create_image_views_run images a c :
  let mk := λ image, CreateImageView image (format (swapchain_data a)) in
  create_image_views drv images {| app := a; calls := c |} =
    Some (tt,
          {| app := set_swapchain_data
                      (set_image_views
                         (image_views (swapchain_data a) ++ created drv mk images c)
                         (swapchain_data a)) a;
             calls := c ++ creation_calls drv mk images c |}).
Proof.
  intros mk. unfold create_image_views.
  rewrite (create_and_push_run
             (λ a image, CreateImageView image (format (swapchain_data a)))
             (λ h a, set_swapchain_data
                       (set_image_views (image_views (swapchain_data a) ++ [h])
                          (swapchain_data a)) a)) by reflexivity.
  now rewrite push_image_views.
Qed.

Lemma init_framebuffers_run a c :
  framebuffers (swapchain_data a) = [] →
  let mk := λ view, CreateFramebuffer (render_pass a) view (extent (swapchain_data a)) in
  let views := image_views (swapchain_data a) in
  init_framebuffers drv {| app := a; calls := c |} =
    Some (tt,
          {| app := set_swapchain_data
                      (set_framebuffers (created drv mk views c) (swapchain_data a)) a;
             calls := c ++ creation_calls drv mk views c |}).
Proof.
  intros Hempty mk views. unfold init_framebuffers.
  erewrite bind_run by apply this_run. rewrite Hempty.
  rewrite (create_and_push_run
             (λ a view, CreateFramebuffer (render_pass a) view (extent (swapchain_data a)))
             (λ h a, set_swapchain_data
                       (set_framebuffers (framebuffers (swapchain_data a) ++ [h])
                          (swapchain_data a)) a)) by reflexivity.
  now rewrite push_framebuffers, Hempty.
Qed.

(** The teardown loop of [init_swapchain]: slots [k .. k+n-1] are torn
    down as they were before the loop. *)
Lemma teardown_frames_run n : ∀ k a c,
  k + n ≤ length (per_frame_data a) →
  ∃ slots,
    for_each teardown_frame (seq k n) {| app := a; calls := c |} =
      Some (tt, {| app := set_per_frame_data slots a;
                   calls := c ++ concat (teardown_calls <$> take n (drop k (per_frame_data a))) |}) ∧
    length slots = length (per_frame_data a) ∧
    drop (k + n) slots = drop (k + n) (per_frame_data a).
Proof.
  induction n as [|n IH]; intros k a c Hle.
  - exists (per_frame_data a). cbn. rewrite app_nil_r.
    split; [now destruct a | now split].
  - destruct (lookup_lt_is_Some_2 (per_frame_data a) k) as [pfd Hpfd]; [lia |].
    cbn [seq for_each]. erewrite bind_run by (apply teardown_frame_run; exact Hpfd).
    destruct (IH (S k) (set_per_frame_data (<[k := FrameData_null]> (per_frame_data a)) a)
                (c ++ teardown_calls pfd)) as (slots & Hrun & Hlen & Hdrop).
    { cbn. rewrite length_insert. lia. }
    cbn [per_frame_data set_per_frame_data] in Hrun, Hlen, Hdrop.
    rewrite length_insert in Hlen.
    exists slots. split; [| split; [exact Hlen |]].
    + rewrite Hrun, (drop_insert_lt _ (S k) k) by lia.
      rewrite (drop_S _ _ _ Hpfd). cbn [take fmap list_fmap concat].
      now rewrite <- !app_assoc.
    + replace (k + S n) with (S k + n) by lia. rewrite Hdrop.
      apply drop_insert_lt. lia.
Qed.

Lemma fresh_slots_length queue_family n : ∀ c,
  length (fresh_slots drv queue_family n c).1 = n.
Proof. induction n as [|n IH]; intros c; simpl; [reflexivity | now rewrite IH]. Qed.

Lemma init_per_frame_loop queue_family n : ∀ done a c,
  graphics_queue_index a = queue_family →
  per_frame_data a = done ++ replicate n FrameData_null →
  for_each (λ i,
    pfd ← frame i;
    a ← this;
    fence ← create drv (CreateFence true);
    pool ← create drv (CreateCommandPool true (graphics_queue_index a));
    buffer ← create drv (AllocateCommandBuffer pool);
    set_frame i
      {| queue_submit_fence := fence;
         primary_command_pool := pool;
         primary_command_buffer := buffer;
         swapchain_acquire_semaphore := swapchain_acquire_semaphore pfd;
         swapchain_release_semaphore := swapchain_release_semaphore pfd |})
    (seq (length done) n) {| app := a; calls := c |} =
  Some (tt, {| app := set_per_frame_data (done ++ (fresh_slots drv queue_family n c).1) a;
               calls := c ++ (fresh_slots drv queue_family n c).2 |}).
Proof.
  induction n as [|n IH]; intros done a c Hq Hslots.
  - cbn. rewrite !app_nil_r. cbn in Hslots. rewrite app_nil_r in Hslots.
    rewrite <- Hslots. now destruct a.
  - cbn [seq for_each].
    set (first := fresh_slot drv queue_family c).
    erewrite bind_run.
    2:{ erewrite (bind_run (frame _)).
        2:{ apply frame_run. rewrite Hslots.
            rewrite lookup_app_r by lia. rewrite Nat.sub_diag. reflexivity. }
        erewrite bind_run by apply this_run.
        unfold create. do 3 (erewrite (bind_run (history ≫= _)) by reflexivity).
        unfold set_frame. rewrite modify_run. cbn [calls app].
        rewrite Hslots, insert_app_r_alt by lia. rewrite Nat.sub_diag.
        cbn [list_insert insert replicate]. reflexivity. }
    specialize (IH (done ++ [first.1])).
    rewrite length_app, Nat.add_1_r in IH.
    erewrite IH;
      [| exact Hq
       | cbn [per_frame_data set_per_frame_data]; rewrite Hq;
         apply (app_assoc done [first.1])].
    cbn [fresh_slots]. fold first. cbn [fst snd].
    rewrite Hq.
    match goal with
    | |- context [fresh_slots drv queue_family n ?c'] =>
        assert (Hc : c' = c ++ first.2)
          by (subst first; unfold fresh_slot; cbn [snd];
              now repeat rewrite <- app_assoc);
        rewrite Hc
    end.
    rewrite <- (app_assoc done [first.1]), <- (app_assoc c first.2).
    reflexivity.
Qed.

Lemma init_per_frame_run n a c :
  init_per_frame drv n {| app := a; calls := c |} =
    Some (tt, {| app := set_per_frame_data
                          (fresh_slots drv (graphics_queue_index a) n c).1 a;
                 calls := c ++ (fresh_slots drv (graphics_queue_index a) n c).2 |}).
Proof.
  unfold init_per_frame. erewrite bind_run by apply modify_run.
  exact (init_per_frame_loop (graphics_queue_index a) n []
           (set_per_frame_data (replicate n FrameData_null) a) c eq_refl eq_refl).
Qed.

End Loops.

(** ** Building and rebuilding, call by call *)

Section Build.

Context (drv : Driver).

Lemma retire_old_swapchain_run old a c :
  (∀ tr, length (drv_swapchain_images drv tr old) ≤ length (per_frame_data a)) →
  let views := image_views (swapchain_data a) in
  let old_images := drv_swapchain_images drv (c ++ (DestroyImageView <$> views)) old in
  ∃ slots,
    retire_old_swapchain drv old {| app := a; calls := c |} =
      Some (tt,
            {| app := set_swapchain_data (set_image_views [] (swapchain_data a))
                        (set_per_frame_data slots a);
               calls := c ++ (DestroyImageView <$> views) ++
                        [GetSwapchainImagesKHR old old_images] ++
                        concat (teardown_calls <$>
                                  take (length old_images) (per_frame_data a)) ++
                        [DestroySwapchainKHR old] |}) ∧
    length slots = length (per_frame_data a).
Proof.
  intros Hcover views old_images. unfold retire_old_swapchain.
  erewrite bind_run by apply this_run.
  erewrite bind_run by apply for_each_emit.
  erewrite bind_run by apply getSwapchainImagesKHR_run.
  fold views old_images.
  destruct (teardown_frames_run (length old_images) 0 a
              ((c ++ (DestroyImageView <$> views)) ++
               [GetSwapchainImagesKHR old old_images]))
    as (slots & Hrun & Hlen & _); [apply Hcover |].
  erewrite bind_run by exact Hrun.
  exists slots. split; [| exact Hlen].
  erewrite bind_run by apply modify_run. rewrite emit_run.
  rewrite drop_0. cbn [app calls]. repeat rewrite <- app_assoc. reflexivity.
Qed.

(** [init_swapchain], call by call.  [retired] are the calls that dispose
    of the old swapchain, [images] the images of the new one. *)
Lemma init_swapchain_exact a c :
  let old := swapchain (swapchain_data a) in
  let views := image_views (swapchain_data a) in
  let caps := drv_surface_capabilities drv c in
  let chosen := choose_extent caps (extent (swapchain_data a)) in
  slots_cover_images drv {| app := a; calls := c |} →
  ∃ fmt caps2 info h retired images w',
    init_swapchain drv {| app := a; calls := c |} = Some (tt, w') ∧
    let c1 := c ++ [GetSurfaceCapabilitiesKHR (gpu a) (surface a) caps;
                    SelectSurfaceFormat (gpu a) (surface a) fmt;
                    GetSurfaceCapabilitiesKHR (gpu a) (surface a) caps2;
                    CreateSwapchainKHR info h] ++ retired in
    let c2 := c1 ++ [GetSwapchainImagesKHR h images] in
    let slots := fresh_slots drv (graphics_queue_index a) (length images) c2 in
    let c3 := c2 ++ slots.2 in
    let mk := λ image, CreateImageView image (sf_format fmt) in
    ci_imageExtent info = chosen ∧
    ci_oldSwapchain info = old ∧
    (is_set old = false → retired = []) ∧
    (is_set old = true →
     ∃ old_images,
       (∃ tr, old_images = drv_swapchain_images drv tr old) ∧
       retired = (DestroyImageView <$> views) ++
                 [GetSwapchainImagesKHR old old_images] ++
                 concat (teardown_calls <$> take (length old_images) (per_frame_data a)) ++
                 [DestroySwapchainKHR old]) ∧
    images = drv_swapchain_images drv c1 h ∧
    calls w' = c3 ++ creation_calls drv mk images c3 ∧
    per_frame_data (app w') = slots.1 ∧
    image_views (swapchain_data (app w')) =
      (if is_set old then [] else views) ++ created drv mk images c3 ∧
    swapchain (swapchain_data (app w')) = h ∧
    extent (swapchain_data (app w')) = chosen ∧
    format (swapchain_data (app w')) = sf_format fmt ∧
    framebuffers (swapchain_data (app w')) = framebuffers (swapchain_data a) ∧
    recycled_semaphores (app w') = recycled_semaphores a ∧
    (gpu (app w'), surface (app w'), device (app w'), queue (app w'),
     graphics_queue_index (app w'), render_pass (app w'), pipeline (app w')) =
    (gpu a, surface a, device a, queue a, graphics_queue_index a, render_pass a,
     pipeline a) ∧
    h = drv_new_handle drv
          (c ++ [GetSurfaceCapabilitiesKHR (gpu a) (surface a) caps;
                 SelectSurfaceFormat (gpu a) (surface a) fmt;
                 GetSurfaceCapabilitiesKHR (gpu a) (surface a) caps2]) ∧
    fmt = drv_surface_format drv
            (c ++ [GetSurfaceCapabilitiesKHR (gpu a) (surface a) caps]) ∧
    caps2 = drv_surface_capabilities drv
              (c ++ [GetSurfaceCapabilitiesKHR (gpu a) (surface a) caps;
                     SelectSurfaceFormat (gpu a) (surface a) fmt]) ∧
    (is_set old = true →
     let old_images :=
       drv_swapchain_images drv
         (c ++ [GetSurfaceCapabilitiesKHR (gpu a) (surface a) caps;
                SelectSurfaceFormat (gpu a) (surface a) fmt;
                GetSurfaceCapabilitiesKHR (gpu a) (surface a) caps2;
                CreateSwapchainKHR info h] ++ (DestroyImageView <$> views)) old in
     retired = (DestroyImageView <$> views) ++
               [GetSwapchainImagesKHR old old_images] ++
               concat (teardown_calls <$> take (length old_images) (per_frame_data a)) ++
               [DestroySwapchainKHR old]).
Proof.
  intros old views caps chosen Hcover.
  unfold slots_cover_images in Hcover. cbn [app calls] in Hcover. fold old in Hcover.
  unfold init_swapchain.
  erewrite bind_run by apply getSurfaceCapabilitiesKHR_run.
  erewrite bind_run by apply this_run.
  erewrite bind_run by apply select_surface_format_run.
  fold caps chosen old.
  set (fmt := drv_surface_format drv _).
  match goal with |- context [create_swapchain drv chosen fmt old ≫= _] =>
    match goal with |- context [(_ ≫= _) {| app := a; calls := ?c0 |}] =>
      destruct (create_swapchain_run drv chosen fmt old a c0)
        as (info & Hcreate & _ & Hext & Hold & _)
    end
  end.
  erewrite bind_run by exact Hcreate.
  erewrite bind_run by apply modify_run.
  set (caps2 := drv_surface_capabilities drv (_ ++ _)) in *.
  set (h := drv_new_handle drv _) in *.
  exists fmt, caps2, info, h.
  destruct (is_set old) eqn:Hset; cbn [when].
  - match goal with |- context [(retire_old_swapchain drv old ≫= _) {| app := ?a0; calls := ?c0 |}] =>
      destruct (retire_old_swapchain_run old a0 c0) as (slots & Hretire & _);
        [apply (Hcover eq_refl) |]
    end.
    cbn [app calls image_views swapchain_data set_swapchain_data set_swapchain
         per_frame_data] in Hretire.
    erewrite bind_run by exact Hretire.
    erewrite bind_run by apply modify_run.
    erewrite bind_run by apply getSwapchainImagesKHR_run.
    erewrite bind_run by apply init_per_frame_run.
    rewrite create_image_views_run.
    match type of Hretire with
    | _ = Some (_, {| app := _; calls := _ ++ ?ret |}) => exists ret
    end.
    eexists _, _. split; [reflexivity |].
    cbn [app calls image_views swapchain_data set_swapchain_data set_image_views
         set_per_frame_data per_frame_data set_extent_format set_swapchain format
         graphics_queue_index extent swapchain framebuffers recycled_semaphores
         gpu surface device queue render_pass pipeline].
    split; [exact Hext |]. split; [exact Hold |]. split; [discriminate |].
    split; [intros _; eexists; split; [eexists; reflexivity | reflexivity] |].
    subst fmt caps2 h. repeat rewrite <- app_assoc. cbn [Datatypes.app].
    repeat split.
  - erewrite (bind_run (mret tt)) by reflexivity.
    erewrite bind_run by apply modify_run.
    erewrite bind_run by apply getSwapchainImagesKHR_run.
    erewrite bind_run by apply init_per_frame_run.
    rewrite create_image_views_run.
    exists [].
    eexists _, _. split; [reflexivity |].
    cbn [app calls image_views swapchain_data set_swapchain_data set_image_views
         set_per_frame_data per_frame_data set_extent_format set_swapchain format
         graphics_queue_index extent swapchain framebuffers recycled_semaphores
         gpu surface device queue render_pass pipeline].
    split; [exact Hext |]. split; [exact Hold |]. split; [reflexivity |].
    split; [discriminate |].
    subst fmt caps2 h. repeat rewrite <- app_assoc. cbn [Datatypes.app]. rewrite ?app_nil_r.
    repeat split. discriminate.
Qed.

End Build.

(** ** Acquiring, rendering and presenting a frame *)

Section FrameSteps.

Context (drv : Driver).

Lemma pool_acquire_run w :
  pool_acquire drv w =
    Some (next_semaphore drv w,
          {| app := set_recycled_semaphores (removelast (recycled_semaphores (app w))) (app w);
             calls := history_at_acquire drv w |}).
Proof.
  destruct w as [a c]. unfold next_semaphore, history_at_acquire. cbn [app calls].
  destruct (last (recycled_semaphores a)) as [s|] eqn:Hlast.
  - apply last_Some in Hlast as [l Hl].
    rewrite (pool_acquire_pooled drv l s a c Hl), Hl, removelast_last.
    destruct l; cbn; now rewrite app_nil_r.
  - apply last_None in Hlast.
    rewrite (pool_acquire_empty drv a c Hlast), Hlast. cbn.
    now rewrite <- Hlast, set_recycled_semaphores_id.
Qed.

(** [acquire_next_image], call by call. *)
Lemma acquire_next_image_exact w :
  let semaphore := next_semaphore drv w in
  let c0 := history_at_acquire drv w in
  let r := drv_acquire drv c0 in
  let sc := swapchain (swapchain_data (app w)) in
  let c1 := c0 ++ [AcquireNextImageKHR sc UINT64_MAX semaphore r.1 r.2] in
  let pool := removelast (recycled_semaphores (app w)) in
  acquire_next_image drv w =
    if bool_decide (r.1 = eSuccess) then
      match per_frame_data (app w) !! N.to_nat r.2 with
      | None => None
      | Some pfd =>
          Some ((eSuccess, r.2),
                {| app := set_per_frame_data
                            (<[N.to_nat r.2 := set_acquire_semaphore semaphore pfd]>
                               (per_frame_data (app w)))
                            (set_recycled_semaphores (pool ++ displaced pfd) (app w));
                   calls := c1 ++ slot_reuse_calls pfd |})
      end
    else
      Some (r, {| app := set_recycled_semaphores (pool ++ [semaphore]) (app w);
                  calls := c1 |}).
Proof.
  intros semaphore c0 r sc c1 pool.
  rewrite (acquire_next_image_run drv w _ _ (pool_acquire_run w)). cbn zeta.
  unfold acquire_call. reflexivity.
Qed.

(** X1. [acquire_next_image] indexes [per_frame_data] with the image the
    driver hands out, and only after a success: it has a defined outcome
    exactly when the driver's result is not success or the image index is
    below the number of frame slots. *)
Theorem acquire_next_image_defined (w : World) :
  let r := drv_acquire drv (history_at_acquire drv w) in
  is_Some (acquire_next_image drv w) ↔
  r.1 ≠ eSuccess ∨ N.to_nat r.2 < length (per_frame_data (app w)).
Proof.
  intros r.
  rewrite acquire_next_image_exact. cbn zeta. fold r.
  destruct (bool_decide (r.1 = eSuccess)) eqn:Hres.
  - apply bool_decide_eq_true in Hres.
    rewrite <- lookup_lt_is_Some.
    destruct (per_frame_data (app w) !! N.to_nat r.2) as [pfd|].
    + split; [intros _; right; eauto | intros _; eauto].
    + split; [intros [? [=]] | intros [Hne | [? [=]]]; now contradict Hne].
  - apply bool_decide_eq_false in Hres. split; [now left | eauto].
Qed.

(** X2. When the acquire of [update] fails with a result that is neither
    suboptimal nor out-of-date (not ready, timeout, device lost, ...), the
    frame is dropped: after the acquire the only call is a wait for the
    queue to be idle; nothing is resized, rendered, presented or logged,
    the frame slots and the swapchain data are untouched, and the semaphore
    of the acquire is the last entry of the pool. *)
Theorem update_drops_frame (w : World) :
  let r := drv_acquire drv (history_at_acquire drv w) in
  let semaphore := next_semaphore drv w in
  r.1 ≠ eSuccess →
  stale r.1 = false →
  ∃ w1,
    update drv w = Some (tt, w1) ∧
    calls w1 =
      history_at_acquire drv w ++
      [AcquireNextImageKHR (swapchain (swapchain_data (app w))) UINT64_MAX
         semaphore r.1 r.2;
       QueueWaitIdle] ∧
    per_frame_data (app w1) = per_frame_data (app w) ∧
    swapchain_data (app w1) = swapchain_data (app w) ∧
    recycled_semaphores (app w1) =
      removelast (recycled_semaphores (app w)) ++ [semaphore].
Proof.
  intros r semaphore Hfail Hstale.
  pose proof (acquire_next_image_exact w) as Hrun. cbn zeta in Hrun.
  fold r semaphore in Hrun.
  rewrite bool_decide_eq_false_2 in Hrun by exact Hfail.
  unfold update, acquire_with_retry.
  erewrite bind_run; [| erewrite bind_run by exact Hrun; rewrite Hstale; reflexivity].
  cbn zeta. rewrite bool_decide_eq_false_2 by exact Hfail. cbn [negb].
  rewrite emit_run. eexists. split; [reflexivity |].
  cbn [app calls per_frame_data swapchain_data recycled_semaphores
       set_recycled_semaphores].
  rewrite <- app_assoc. now repeat split.
Qed.

Lemma bind_none {A B} (m : M A) (f : A → M B) w : m w = None → (m ≫= f) w = None.
Proof. unfold mbind, M_bind. now intros ->. Qed.

Lemma frame_none i a c :
  per_frame_data a !! i = None → frame i {| app := a; calls := c |} = None.
Proof. intros H. unfold frame. erewrite bind_run by apply this_run. now rewrite H. Qed.

Lemma set_per_frame_data_id a : set_per_frame_data (per_frame_data a) a = a.
Proof. now destruct a. Qed.

Lemma render_triangle_run i a c fb pfd :
  framebuffers (swapchain_data a) !! N.to_nat i = Some fb →
  per_frame_data a !! N.to_nat i = Some pfd →
  let cmd := primary_command_buffer pfd in
  let c1 := c ++ recorded_commands a cmd fb in
  let release := release_semaphore_at drv pfd c1 in
  render_triangle drv i {| app := a; calls := c |} =
    Some (tt,
          {| app := set_per_frame_data
                      (<[N.to_nat i := set_release_semaphore release pfd]>
                         (per_frame_data a)) a;
             calls := c1 ++
               (if is_set (swapchain_release_semaphore pfd)
                then []
                else [CreateSemaphore release]) ++
               [QueueSubmit (swapchain_acquire_semaphore pfd)
                  PIPELINE_STAGE_COLOR_ATTACHMENT_OUTPUT_BIT cmd release
                  (queue_submit_fence pfd)] |}).
Proof.
  intros Hfb Hslot cmd c1 release. unfold render_triangle.
  erewrite bind_run by apply this_run. rewrite Hfb.
  erewrite bind_run by (apply frame_run; exact Hslot).
  do 8 (erewrite bind_run by apply emit_run).
  pose proof (lookup_lt_Some _ _ _ Hslot) as Hlt.
  assert (Hc1 : (((((((c ++ [CmdBegin cmd true]) ++
            [CmdBeginRenderPass cmd (render_pass a) fb (extent (swapchain_data a))]) ++
            [CmdBindPipeline cmd (pipeline a)]) ++
            [CmdSetViewport cmd (extent (swapchain_data a))]) ++
            [CmdSetScissor cmd (extent (swapchain_data a))]) ++
            [CmdDraw cmd 3 1 0 0]) ++ [CmdEndRenderPass cmd]) ++ [CmdEnd cmd] = c1).
  { subst c1. unfold recorded_commands. now repeat rewrite <- app_assoc. }
  fold cmd. rewrite Hc1.
  subst release. unfold release_semaphore_at.
  destruct (is_set (swapchain_release_semaphore pfd)) eqn:Hrel; cbn [negb when].
  - erewrite (bind_run (mret tt)) by reflexivity.
    erewrite bind_run by (apply frame_run; exact Hslot).
    rewrite emit_run.
    replace (set_release_semaphore (swapchain_release_semaphore pfd) pfd) with pfd
      by now destruct pfd.
    rewrite list_insert_id by exact Hslot.
    now rewrite set_per_frame_data_id.
  - erewrite (bind_run (_ ≫= _)) by reflexivity.
    erewrite bind_run
      by (apply frame_run; cbn; apply list_lookup_insert_eq; exact Hlt).
    rewrite emit_run. cbn. now rewrite <- !app_assoc.
Qed.

Lemma render_triangle_is_Some (i : N) (w : World) :
  is_Some (render_triangle drv i w) ↔
  N.to_nat i < length (framebuffers (swapchain_data (app w))) ∧
  N.to_nat i < length (per_frame_data (app w)).
Proof.
  destruct w as [a c]. cbn [app]. rewrite <- !lookup_lt_is_Some.
  destruct (framebuffers (swapchain_data a) !! N.to_nat i) as [fb|] eqn:Hfb.
  - destruct (per_frame_data a !! N.to_nat i) as [pfd|] eqn:Hslot.
    + rewrite (render_triangle_run i a c fb pfd Hfb Hslot). cbn zeta.
      split; [intros _; split; eauto | intros _; eauto].
    + unfold render_triangle. erewrite bind_run by apply this_run. rewrite Hfb.
      rewrite bind_none by (apply frame_none; exact Hslot).
      split; [intros [? [=]] | intros [_ [? [=]]]].
  - unfold render_triangle. erewrite bind_run by apply this_run. rewrite Hfb.
    split; [intros [? [=]] | intros [[? [=]] _]].
Qed.

(** X3. [render_triangle] indexes the framebuffers and the frame slots
    with the swapchain index: it has a defined outcome exactly when the
    index is below both the number of framebuffers and the number of frame
    slots. *)
Theorem render_triangle_defined (i : N) (w : World) :
  is_Some (render_triangle drv i w) ↔
  N.to_nat i < length (framebuffers (swapchain_data (app w))) ∧
  N.to_nat i < length (per_frame_data (app w)).
Proof. exact (render_triangle_is_Some i w). Qed.

(** X4. [render_triangle] creates the release semaphore of a slot only
    when the slot has none, stores it in the slot and signals it in the
    submit, which is the last call, after the eight recorded commands; the
    submit waits on the slot's acquire semaphore at the color-attachment-
    output stage and signals the slot's fence.  Only the release semaphore
    of slot [i] changes.  When the semaphore is not null, rendering the
    same slot again creates nothing and signals the same semaphore. *)
Theorem render_triangle_release_semaphore (i : N) (w : World) (fb : Handle)
    (pfd : FrameData) :
  framebuffers (swapchain_data (app w)) !! N.to_nat i = Some fb →
  per_frame_data (app w) !! N.to_nat i = Some pfd →
  let cmd := primary_command_buffer pfd in
  let commands := recorded_commands (app w) cmd fb in
  let release := release_semaphore_at drv pfd (calls w ++ commands) in
  let submit :=
    QueueSubmit (swapchain_acquire_semaphore pfd)
      PIPELINE_STAGE_COLOR_ATTACHMENT_OUTPUT_BIT cmd release (queue_submit_fence pfd) in
  ∃ w1,
    render_triangle drv i w = Some (tt, w1) ∧
    calls w1 =
      calls w ++ commands ++
      (if is_set (swapchain_release_semaphore pfd) then [] else [CreateSemaphore release]) ++
      [submit] ∧
    per_frame_data (app w1) =
      <[N.to_nat i := set_release_semaphore release pfd]> (per_frame_data (app w)) ∧
    swapchain_data (app w1) = swapchain_data (app w) ∧
    recycled_semaphores (app w1) = recycled_semaphores (app w) ∧
    (is_set release = true →
     ∃ w2,
       render_triangle drv i w1 = Some (tt, w2) ∧
       calls w2 = calls w1 ++ commands ++ [submit] ∧
       app w2 = app w1).
Proof.
  intros Hfb Hslot cmd commands release submit. destruct w as [a c].
  cbn [app calls] in *.
  rewrite (render_triangle_run i a c fb pfd Hfb Hslot). cbn zeta.
  fold cmd commands release submit.
  eexists. split; [reflexivity |]. cbn [app calls per_frame_data set_per_frame_data
    swapchain_data recycled_semaphores].
  split; [now rewrite <- app_assoc |]. split; [reflexivity |].
  split; [reflexivity |]. split; [reflexivity |].
  intros Hrel.
  pose proof (lookup_lt_Some _ _ _ Hslot) as Hlt.
  erewrite render_triangle_run;
    [| exact Hfb | cbn; apply list_lookup_insert_eq; exact Hlt].
  cbn zeta. unfold release_semaphore_at at 1 2 3.
  cbn [swapchain_release_semaphore set_release_semaphore per_frame_data
       set_per_frame_data primary_command_buffer swapchain_acquire_semaphore
       queue_submit_fence].
  rewrite Hrel. eexists. split; [reflexivity |]. cbn [app calls].
  split.
  - fold cmd. unfold commands, recorded_commands. cbn. now rewrite <- !app_assoc.
  - rewrite list_insert_insert_eq.
    replace (set_release_semaphore release (set_release_semaphore release pfd))
      with (set_release_semaphore release pfd) by reflexivity.
    reflexivity.
Qed.

(** X5. A frame whose acquire succeeds, call by call: after the acquire
    (and before it the creation of a semaphore, when the pool is empty)
    and the wait and reset of the slot (fence, then command pool), the
    commands are recorded, the release semaphore is created when the slot
    has none, and the submit waits on the very semaphore handed to the
    acquire and signals the release semaphore and the slot's fence; the
    present is the next call, waits on that release semaphore and presents
    the acquired index on the swapchain the image came from.  Whatever
    follows the present contains no acquire and no present, and nothing
    follows when the present succeeds. *)
Theorem update_frame_chain (w : World) (i : N) (pfd : FrameData) (fb : Handle) :
  let semaphore := next_semaphore drv w in
  let sc := swapchain (swapchain_data (app w)) in
  let cmd := primary_command_buffer pfd in
  let recorded :=
    history_at_acquire drv w ++
    [AcquireNextImageKHR sc UINT64_MAX semaphore eSuccess i] ++
    slot_reuse_calls pfd ++
    recorded_commands (app w) cmd fb in
  let release := release_semaphore_at drv pfd recorded in
  let submitted :=
    recorded ++
    (if is_set (swapchain_release_semaphore pfd) then [] else [CreateSemaphore release]) ++
    [QueueSubmit semaphore PIPELINE_STAGE_COLOR_ATTACHMENT_OUTPUT_BIT cmd release
       (queue_submit_fence pfd)] in
  let res := drv_present drv submitted in
  drv_acquire drv (history_at_acquire drv w) = (eSuccess, i) →
  per_frame_data (app w) !! N.to_nat i = Some pfd →
  framebuffers (swapchain_data (app w)) !! N.to_nat i = Some fb →
  slots_cover_images drv w →
  ∃ w1 after,
    update drv w = Some (tt, w1) ∧
    calls w1 = submitted ++ [QueuePresentKHR release sc i res] ++ after ∧
    count is_acquire after = 0 ∧
    count is_present after = 0 ∧
    (res = eSuccess →
     after = [] ∧
     per_frame_data (app w1) =
       <[N.to_nat i :=
           {| queue_submit_fence := queue_submit_fence pfd;
              primary_command_pool := primary_command_pool pfd;
              primary_command_buffer := cmd;
              swapchain_acquire_semaphore := semaphore;
              swapchain_release_semaphore := release |}]> (per_frame_data (app w))).
Proof.
  intros semaphore sc cmd recorded release submitted res Hacq Hslot Hfb Hcover.
  pose proof (lookup_lt_Some _ _ _ Hslot) as Hlt.
  pose proof (acquire_next_image_exact w) as Hrun. cbn zeta in Hrun.
  rewrite Hacq in Hrun. cbn [fst snd] in Hrun.
  rewrite bool_decide_eq_true_2, Hslot in Hrun by reflexivity.
  fold semaphore sc in Hrun.
  unfold update, acquire_with_retry.
  erewrite bind_run; [| erewrite bind_run by exact Hrun; reflexivity].
  cbn zeta. cbn [fst snd]. rewrite bool_decide_eq_true_2 by reflexivity. cbn [negb].
  erewrite bind_run.
  2:{ apply render_triangle_run.
      - cbn. exact Hfb.
      - cbn. apply list_lookup_insert_eq. exact Hlt. }
  cbn zeta.
  cbn [primary_command_buffer set_acquire_semaphore swapchain_acquire_semaphore
       swapchain_release_semaphore queue_submit_fence].
  fold cmd.
  match goal with
  | |- context [release_semaphore_at drv ?p ?c] =>
      assert (Hrecorded : c = recorded)
        by (subst recorded; unfold recorded_commands; cbn;
            now repeat rewrite <- app_assoc);
      rewrite Hrecorded;
      change (release_semaphore_at drv p recorded) with release
  end.
  match goal with
  | |- context [present_frame drv i {| app := ?a0; calls := ?c0 |}] =>
      assert (Hsubmitted : c0 = submitted) by reflexivity;
      rewrite Hsubmitted;
      destruct (present_frame_calls drv {| app := a0; calls := submitted |} i
                  (set_release_semaphore release (set_acquire_semaphore semaphore pfd)))
        as (w1 & after & Hpresent & Hcalls & Hp & Ha & _ & _ & Hok)
  end.
  { cbn. rewrite list_insert_insert_eq. apply list_lookup_insert_eq. exact Hlt. }
  { intros Hset tr. cbn in Hset |- *. rewrite !length_insert.
    exact (Hcover Hset tr). }
  cbn [app calls swapchain_release_semaphore set_release_semaphore swapchain_data
       set_per_frame_data set_recycled_semaphores] in Hpresent, Hcalls, Hok.
  fold sc res in Hcalls, Hok.
  exists w1, after.
  split; [exact Hpresent |]. split; [exact Hcalls |].
  split; [exact Ha |]. split; [exact Hp |].
  intros Hres. destruct (Hok Hres) as [Happ ->]. split; [reflexivity |].
  rewrite Happ. cbn. now rewrite list_insert_insert_eq.
Qed.

End FrameSteps.

(** ** Framebuffers, first build and rebuild *)

Section Surface.

Context (drv : Driver).

(** X6. [teardown_framebuffers] waits for the queue to be idle first,
    then destroys every framebuffer once, in order, and empties the vector,
    changing nothing else; run again, it only waits for the queue. *)
Theorem teardown_framebuffers_idempotent (w : World) :
  ∃ w1 w2,
    teardown_framebuffers w = Some (tt, w1) ∧
    calls w1 =
      calls w ++ QueueWaitIdle ::
        (DestroyFramebuffer <$> framebuffers (swapchain_data (app w))) ∧
    app w1 = set_swapchain_data (set_framebuffers [] (swapchain_data (app w))) (app w) ∧
    teardown_framebuffers w1 = Some (tt, w2) ∧
    app w2 = app w1 ∧
    calls w2 = calls w1 ++ [QueueWaitIdle].
Proof.
  destruct w as [a c]. rewrite teardown_framebuffers_run.
  eexists _, _. split; [reflexivity |]. cbn [app calls].
  split; [reflexivity |]. split; [reflexivity |].
  rewrite teardown_framebuffers_run. split; [reflexivity |]. now split.
Qed.

Lemma created_lookup {A} (mk : A → Handle → Call) (l : list A) : ∀ c k,
  k < length l →
  created drv mk l c !! k =
    Some (drv_new_handle drv (c ++ take k (creation_calls drv mk l c))).
Proof.
  unfold creation_calls.
  induction l as [|x l IH]; intros c k Hk; cbn in Hk; [lia |].
  destruct k as [|k]; cbn.
  - now rewrite app_nil_r.
  - rewrite IH by lia. now rewrite <- app_assoc.
Qed.

(** X7. [init_framebuffers] asserts that no framebuffer is left: with a
    framebuffer present it has no defined outcome.  Otherwise it creates
    one framebuffer per image view, in the order of the views, each on the
    render pass and with the stored extent, and stores the handles in that
    order: as many framebuffers as views, the k-th being the handle the
    driver returned for the k-th creation.  Nothing else changes. *)
Theorem init_framebuffers_one_per_view (w : World) :
  let a := app w in
  let views := image_views (swapchain_data a) in
  let mk := λ view, CreateFramebuffer (render_pass a) view (extent (swapchain_data a)) in
  (framebuffers (swapchain_data a) ≠ [] → init_framebuffers drv w = None) ∧
  (framebuffers (swapchain_data a) = [] →
   ∃ w1 fbs,
     init_framebuffers drv w = Some (tt, w1) ∧
     app w1 = set_swapchain_data (set_framebuffers fbs (swapchain_data a)) a ∧
     length fbs = length views ∧
     calls w1 = calls w ++ zip_with mk views fbs ∧
     ∀ k, k < length views →
       fbs !! k = Some (drv_new_handle drv (calls w ++ take k (zip_with mk views fbs)))).
Proof.
  intros a views mk. destruct w as [a' c]. cbn [app calls] in *. subst a. split.
  - intros Hfb. unfold init_framebuffers. erewrite bind_run by apply this_run.
    now destruct (framebuffers (swapchain_data a')).
  - intros Hempty. rewrite (init_framebuffers_run drv a' c Hempty). cbn zeta.
    fold views mk. eexists _, (created drv mk views c).
    split; [reflexivity |]. cbn [app calls].
    split; [reflexivity |]. split; [apply length_created |].
    split; [reflexivity |].
    intros k Hk. exact (created_lookup mk views c k Hk).
Qed.

Lemma create_swapchain_info e f old a c :
  let caps := drv_surface_capabilities drv c in
  let supported := supportedCompositeAlpha caps in
  ∃ info h,
    create_swapchain drv e f old {| app := a; calls := c |} =
      Some (h, {| app := a;
                  calls := c ++ [GetSurfaceCapabilitiesKHR (gpu a) (surface a) caps;
                                 CreateSwapchainKHR info h] |}) ∧
    ci_compositeAlpha info =
      (if has_flag supported CompositeAlpha_eOpaque then CompositeAlpha_eOpaque
       else if has_flag supported CompositeAlpha_eInherit then CompositeAlpha_eInherit
       else if has_flag supported CompositeAlpha_ePreMultiplied
            then CompositeAlpha_ePreMultiplied
       else if has_flag supported CompositeAlpha_ePostMultiplied
            then CompositeAlpha_ePostMultiplied
       else CompositeAlpha_eOpaque) ∧
    ci_preTransform info =
      (if has_flag (supportedTransforms caps) SurfaceTransform_eIdentity
       then SurfaceTransform_eIdentity
       else currentTransform caps) ∧
    (ci_surface info, ci_imageFormat info, ci_imageColorSpace info) =
      (surface a, sf_format f, sf_colorSpace f) ∧
    (ci_imageArrayLayers info, ci_imageUsage info, ci_imageSharingMode info,
     ci_presentMode info, ci_clipped info) =
      (1%N, ImageUsage_eColorAttachment, SharingMode_eExclusive, PresentMode_eFifo, true).
Proof.
  intros caps supported. eexists _, _. split.
  - unfold create_swapchain, getSurfaceCapabilitiesKHR, create. run.
    rewrite <- app_assoc. reflexivity.
  - repeat split.
Qed.

(** X8. What [create_swapchain] asks of the surface.  The composite
    alpha mode is the first the surface supports among opaque, inherit,
    pre-multiplied and post-multiplied, in this order, so that a supported
    mode is requested whenever one of the four is supported; when none is,
    opaque is requested all the same.  The pre-transform is the identity
    when the surface supports it and the current transform otherwise.  The
    swapchain is on the sample's surface, with the format and color space
    passed in, one array layer, color-attachment usage, exclusive sharing,
    FIFO presentation and clipping. *)
Theorem create_swapchain_negotiation (e : Extent2D) (f : SurfaceFormatKHR)
    (old : Handle) (w : World) :
  let caps := drv_surface_capabilities drv (calls w) in
  let supported := supportedCompositeAlpha caps in
  let modes := [CompositeAlpha_eOpaque; CompositeAlpha_eInherit;
                CompositeAlpha_ePreMultiplied; CompositeAlpha_ePostMultiplied] in
  ∃ info h w1,
    create_swapchain drv e f old w = Some (h, w1) ∧
    last (calls w1) = Some (CreateSwapchainKHR info h) ∧
    ci_compositeAlpha info =
      default CompositeAlpha_eOpaque (head (List.filter (has_flag supported) modes)) ∧
    (existsb (has_flag supported) modes = true →
     has_flag supported (ci_compositeAlpha info) = true) ∧
    (has_flag (supportedTransforms caps) SurfaceTransform_eIdentity = true →
     ci_preTransform info = SurfaceTransform_eIdentity) ∧
    (has_flag (supportedTransforms caps) SurfaceTransform_eIdentity = false →
     ci_preTransform info = currentTransform caps) ∧
    (ci_surface info, ci_imageFormat info, ci_imageColorSpace info) =
      (surface (app w), sf_format f, sf_colorSpace f) ∧
    (ci_imageArrayLayers info, ci_imageUsage info, ci_imageSharingMode info,
     ci_presentMode info, ci_clipped info) =
      (1%N, ImageUsage_eColorAttachment, SharingMode_eExclusive, PresentMode_eFifo, true).
Proof.
  intros caps supported modes. destruct w as [a c]. cbn [app calls] in *.
  destruct (create_swapchain_info e f old a c)
    as (info & h & Hrun & Halpha & Htransform & Hsurface & Hrest).
  fold caps supported in Halpha, Htransform.
  exists info, h. eexists. split; [exact Hrun |]. cbn [calls].
  split.
  { match goal with
    | |- last (c ++ [?x; ?y]) = _ => change (c ++ [x; y]) with (c ++ [x] ++ [y])
    end.
    rewrite app_assoc. apply last_snoc. }
  assert (Hchosen : ci_compositeAlpha info =
            default CompositeAlpha_eOpaque (head (List.filter (has_flag supported) modes))).
  { rewrite Halpha. subst modes. cbn [List.filter].
    destruct (has_flag supported CompositeAlpha_eOpaque); [reflexivity |].
    destruct (has_flag supported CompositeAlpha_eInherit); [reflexivity |].
    destruct (has_flag supported CompositeAlpha_ePreMultiplied); [reflexivity |].
    destruct (has_flag supported CompositeAlpha_ePostMultiplied); reflexivity. }
  split; [exact Hchosen |].
  split.
  { rewrite Halpha. subst modes. cbn [existsb].
    destruct (has_flag supported CompositeAlpha_eOpaque) eqn:H1; [now intros _ |].
    destruct (has_flag supported CompositeAlpha_eInherit) eqn:H2; [now intros _ |].
    destruct (has_flag supported CompositeAlpha_ePreMultiplied) eqn:H3; [now intros _ |].
    destruct (has_flag supported CompositeAlpha_ePostMultiplied) eqn:H4; [now intros _ |].
    discriminate. }
  rewrite Htransform.
  split; [now intros -> |]. split; [now intros -> |].
  split; [exact Hsurface | exact Hrest].
Qed.

Lemma count_fresh_slots p queue_family n :
  (∀ h, p (CreateFence true h) = false) →
  (∀ h, p (CreateCommandPool true queue_family h) = false) →
  (∀ pool h, p (AllocateCommandBuffer pool h) = false) →
  ∀ c, count p (fresh_slots drv queue_family n c).2 = 0.
Proof.
  intros Hf Hp Hb. induction n as [|n IH]; intros c; [reflexivity |].
  cbn [fresh_slots snd]. rewrite count_app, IH. unfold fresh_slot. cbn.
  now rewrite Hf, Hp, Hb.
Qed.

Lemma fresh_slots_semaphores queue_family n : ∀ c pfd,
  pfd ∈ (fresh_slots drv queue_family n c).1 →
  swapchain_acquire_semaphore pfd = VK_NULL_HANDLE ∧
  swapchain_release_semaphore pfd = VK_NULL_HANDLE.
Proof.
  induction n as [|n IH]; intros c pfd Hin; cbn in Hin.
  - now apply elem_of_nil in Hin.
  - apply elem_of_cons in Hin as [-> | Hin]; [now split | exact (IH _ _ Hin)].
Qed.

(** X9. The first build: with no swapchain yet, [init_swapchain] creates
    the swapchain with a null [oldSwapchain], destroys nothing and waits
    for nothing, gives the frame slots one fresh slot per image of the new
    swapchain (fence, command pool and command buffer created in turn,
    both semaphores null) and appends one image view per image; the
    framebuffers and the semaphore pool are as before. *)
Theorem init_swapchain_first_build (w : World) :
  is_set (swapchain (swapchain_data (app w))) = false →
  ∃ w1 d info images,
    init_swapchain drv w = Some (tt, w1) ∧
    calls w1 = calls w ++ d ∧
    count is_destruction d = 0 ∧
    count is_idle_wait d = 0 ∧
    count is_swapchain_creation d = 1 ∧
    CreateSwapchainKHR info (swapchain (swapchain_data (app w1))) ∈ d ∧
    ci_oldSwapchain info = VK_NULL_HANDLE ∧
    GetSwapchainImagesKHR (swapchain (swapchain_data (app w1))) images ∈ d ∧
    length (per_frame_data (app w1)) = length images ∧
    (∀ pfd, pfd ∈ per_frame_data (app w1) →
       swapchain_acquire_semaphore pfd = VK_NULL_HANDLE ∧
       swapchain_release_semaphore pfd = VK_NULL_HANDLE) ∧
    length (image_views (swapchain_data (app w1))) =
      length (image_views (swapchain_data (app w))) + length images ∧
    framebuffers (swapchain_data (app w1)) = framebuffers (swapchain_data (app w)) ∧
    recycled_semaphores (app w1) = recycled_semaphores (app w).
Proof.
  intros Hnull. destruct w as [a c]. cbn [app calls] in *.
  destruct (init_swapchain_exact drv a c)
    as (fmt & caps2 & info & h & retired & images & w1 & Hrun & H); cbn zeta in *.
  { intros Hset. cbn in Hset. congruence. }
  destruct H as (Hext & Hold & Hret & _ & Himages & Hcalls & Hslots & Hviews & Hh &
                 _ & _ & Hfb & Hpool & _).
  rewrite (Hret Hnull) in *. rewrite Hnull in Hviews.
  match type of Hcalls with
  | _ = (((c ++ ?x) ++ ?y) ++ ?z) ++ ?v => exists w1, (x ++ y ++ z ++ v), info, images
  end.
  split; [exact Hrun |].
  split; [rewrite Hcalls; now rewrite <- !app_assoc |].
  rewrite Hh.
  split.
  { rewrite !count_app, count_fresh_slots, count_creation_calls by reflexivity.
    reflexivity. }
  split.
  { rewrite !count_app, count_fresh_slots, count_creation_calls by reflexivity.
    reflexivity. }
  split.
  { rewrite !count_app, count_fresh_slots, count_creation_calls by reflexivity.
    reflexivity. }
  split.
  { apply elem_of_app. left. apply elem_of_app. left.
    do 3 apply list_elem_of_further. left. }
  split.
  { rewrite Hold. apply negb_false_iff, N.eqb_eq in Hnull. exact Hnull. }
  split.
  { apply elem_of_app. right. apply elem_of_app. left. left. }
  split; [rewrite Hslots; apply fresh_slots_length |].
  split; [rewrite Hslots; apply fresh_slots_semaphores |].
  split; [rewrite Hviews, length_app, length_created; reflexivity |].
  split; [exact Hfb | exact Hpool].
Qed.

Lemma init_swapchain_rebuild_calls (w : World) :
  let a := app w in
  let old := swapchain (swapchain_data a) in
  let views := image_views (swapchain_data a) in
  is_set old = true →
  slots_cover_images drv w →
  ∃ w1 before info old_images after,
    init_swapchain drv w = Some (tt, w1) ∧
    calls w1 =
      calls w ++ before ++
      [CreateSwapchainKHR info (swapchain (swapchain_data (app w1)))] ++
      (DestroyImageView <$> views) ++
      [GetSwapchainImagesKHR old old_images] ++
      concat (teardown_calls <$> take (length old_images) (per_frame_data a)) ++
      [DestroySwapchainKHR old] ++ after ∧
    ci_oldSwapchain info = old ∧
    (∃ tr, old_images = drv_swapchain_images drv tr old) ∧
    count is_destruction before = 0 ∧
    count is_swapchain_creation before = 0 ∧
    count is_destruction after = 0 ∧
    count is_swapchain_creation after = 0 ∧
    length (image_views (swapchain_data (app w1))) = length (per_frame_data (app w1)) ∧
    framebuffers (swapchain_data (app w1)) = framebuffers (swapchain_data a) ∧
    recycled_semaphores (app w1) = recycled_semaphores a.
Proof.
  intros a old views Hset Hcover. destruct w as [a' c]. cbn [app calls] in *.
  subst a. fold old in Hset.
  destruct (init_swapchain_exact drv a' c Hcover)
    as (fmt & caps2 & info & h & retired & images & w1 & Hrun & H); cbn zeta in *.
  destruct H as (_ & Hold & _ & Hret & _ & Hcalls & Hslots & Hviews & Hh &
                 _ & _ & Hfbs & Hpool & _).
  fold old views in Hold, Hret, Hviews. rewrite Hset in Hviews.
  destruct (Hret Hset) as (old_images & Himages & ->).
  match type of Hcalls with
  | _ = ((?c1 ++ ?y) ++ ?z) ++ ?v =>
      exists w1, [GetSurfaceCapabilitiesKHR (gpu a') (surface a')
                    (drv_surface_capabilities drv c);
                  SelectSurfaceFormat (gpu a') (surface a') fmt;
                  GetSurfaceCapabilitiesKHR (gpu a') (surface a') caps2],
        info, old_images, (y ++ z ++ v)
  end.
  split; [exact Hrun |].
  split.
  { rewrite Hcalls, Hh. repeat rewrite <- app_assoc. cbn [Datatypes.app]. reflexivity. }
  split; [exact Hold |]. split; [exact Himages |].
  split; [reflexivity |]. split; [reflexivity |].
  split.
  { rewrite !count_app, count_fresh_slots, count_creation_calls by reflexivity.
    reflexivity. }
  split.
  { rewrite !count_app, count_fresh_slots, count_creation_calls by reflexivity.
    reflexivity. }
  split; [| split; [exact Hfbs | exact Hpool]].
  rewrite Hviews, Hslots, fresh_slots_length. cbn. apply length_created.
Qed.

(** X10. A rebuild: with a swapchain in place, [init_swapchain] creates
    the new swapchain first, handing it the old one as [oldSwapchain]; then
    it destroys every old image view, once and in order, asks for the images
    of the old swapchain, tears down the frame slots of those images, and
    destroys the old swapchain; those images are the ones the driver
    reports.  Nothing is destroyed before or after this block, no second
    swapchain is created, and the framebuffers and the semaphore pool are
    as they were.  Afterwards there are as many image views as frame
    slots. *)
Theorem init_swapchain_retires_old (w : World) :
  let a := app w in
  let old := swapchain (swapchain_data a) in
  let views := image_views (swapchain_data a) in
  is_set old = true →
  slots_cover_images drv w →
  ∃ w1 before info old_images after,
    init_swapchain drv w = Some (tt, w1) ∧
    calls w1 =
      calls w ++ before ++
      [CreateSwapchainKHR info (swapchain (swapchain_data (app w1)))] ++
      (DestroyImageView <$> views) ++
      [GetSwapchainImagesKHR old old_images] ++
      concat (teardown_calls <$> take (length old_images) (per_frame_data a)) ++
      [DestroySwapchainKHR old] ++ after ∧
    ci_oldSwapchain info = old ∧
    (∃ tr, old_images = drv_swapchain_images drv tr old) ∧
    count is_destruction before = 0 ∧
    count is_swapchain_creation before = 0 ∧
    count is_destruction after = 0 ∧
    count is_swapchain_creation after = 0 ∧
    length (image_views (swapchain_data (app w1))) = length (per_frame_data (app w1)) ∧
    framebuffers (swapchain_data (app w1)) = framebuffers (swapchain_data a) ∧
    recycled_semaphores (app w1) = recycled_semaphores a.
Proof. exact (init_swapchain_rebuild_calls w). Qed.

(** A rebuilding [resize], through the states between its steps. *)
Lemma resize_rebuild_run x y a c :
  is_set (device a) = true →
  currentExtent (drv_surface_capabilities drv c) ≠ extent (swapchain_data a) →
  slots_cover_images drv {| app := a; calls := c |} →
  let c0 := c ++ [GetSurfaceCapabilitiesKHR (gpu a) (surface a)
                    (drv_surface_capabilities drv c);
                  DeviceWaitIdle; QueueWaitIdle] ++
            (DestroyFramebuffer <$> framebuffers (swapchain_data a)) in
  let old := swapchain (swapchain_data a) in
  let chosen := choose_extent (drv_surface_capabilities drv c0) (extent (swapchain_data a)) in
  ∃ w2 images d,
    resize drv x y {| app := a; calls := c |} = Some (true, w2) ∧
    calls w2 = c0 ++ d ∧
    GetSwapchainImagesKHR (swapchain (swapchain_data (app w2))) images ∈ d ∧
    extent (swapchain_data (app w2)) = chosen ∧
    device (app w2) = device a ∧
    length (per_frame_data (app w2)) = length images ∧
    (∀ pfd, pfd ∈ per_frame_data (app w2) →
       swapchain_acquire_semaphore pfd = VK_NULL_HANDLE ∧
       swapchain_release_semaphore pfd = VK_NULL_HANDLE) ∧
    length (image_views (swapchain_data (app w2))) =
      length (if is_set old then [] else image_views (swapchain_data a)) + length images ∧
    length (framebuffers (swapchain_data (app w2))) =
      length (image_views (swapchain_data (app w2))) ∧
    recycled_semaphores (app w2) = recycled_semaphores a.
Proof.
  intros Hdev Hdiff Hcover c0 old chosen.
  unfold slots_cover_images in Hcover. cbn [app calls] in Hcover.
  unfold resize.
  erewrite bind_run by apply this_run. rewrite Hdev. cbn [negb].
  erewrite bind_run by apply getSurfaceCapabilitiesKHR_run.
  rewrite bool_decide_eq_false_2 by exact Hdiff.
  erewrite bind_run by apply emit_run.
  erewrite bind_run by apply teardown_framebuffers_run.
  match goal with |- context [(init_swapchain drv ≫= _) {| app := ?a0; calls := ?c' |}] =>
    assert (Hc0 : c' = c0)
      by (subst c0; repeat rewrite <- app_assoc; reflexivity);
    rewrite Hc0;
    destruct (init_swapchain_exact drv a0 c0)
      as (fmt & caps2 & info & h & retired & images & w1 & Hrun & H); [exact Hcover |]
  end.
  cbn zeta in H.
  cbn [app calls swapchain_data set_swapchain_data set_framebuffers extent swapchain
       recycled_semaphores gpu surface framebuffers image_views per_frame_data device
       graphics_queue_index queue render_pass pipeline] in H.
  fold old chosen in H.
  destruct H as (_ & _ & _ & _ & _ & Hcalls & Hslots & Hviews & Hh & Hext & _ & Hfb &
                 Hpool & Hrest & _).
  erewrite bind_run by exact Hrun.
  destruct w1 as [a1 c1]. cbn [app calls] in *.
  erewrite bind_run by (apply init_framebuffers_run; exact Hfb).
  match type of Hcalls with
  | _ = ((?c' ++ ?y) ++ ?z) ++ ?v =>
      match c' with
      | c0 ++ ?x => eexists _, images, (x ++ y ++ z ++ v ++ _)
      end
  end.
  split; [reflexivity |]. cbn [app calls swapchain_data set_swapchain_data
    set_framebuffers extent swapchain recycled_semaphores framebuffers image_views
    per_frame_data device].
  split; [rewrite Hcalls; now repeat rewrite <- app_assoc |].
  split.
  { rewrite Hh. apply elem_of_app. right. apply elem_of_app. left. left. }
  split; [exact Hext |].
  split; [congruence |].
  split; [rewrite Hslots; apply fresh_slots_length |].
  split; [rewrite Hslots; apply fresh_slots_semaphores |].
  split; [rewrite Hviews, length_app, length_created; reflexivity |].
  split; [apply length_created | exact Hpool].
Qed.

(** X11. After a [resize] that rebuilds an existing swapchain, the frame
    slots, the image views and the framebuffers each number exactly the
    images of the new swapchain; every slot is fresh, holding no semaphore;
    and [render_triangle] has a defined outcome for every index below the
    image count. *)
Theorem resize_rebuild_sizes (x y : N) (w : World) :
  extent_changed drv w = true →
  is_set (swapchain (swapchain_data (app w))) = true →
  slots_cover_images drv w →
  ∃ w1 images,
    resize drv x y w = Some (true, w1) ∧
    GetSwapchainImagesKHR (swapchain (swapchain_data (app w1))) images
      ∈ drop (length (calls w)) (calls w1) ∧
    length (per_frame_data (app w1)) = length images ∧
    length (image_views (swapchain_data (app w1))) = length images ∧
    length (framebuffers (swapchain_data (app w1))) = length images ∧
    (∀ pfd, pfd ∈ per_frame_data (app w1) →
       swapchain_acquire_semaphore pfd = VK_NULL_HANDLE ∧
       swapchain_release_semaphore pfd = VK_NULL_HANDLE) ∧
    (∀ i, N.to_nat i < length images → is_Some (render_triangle drv i w1)).
Proof.
  intros Hchanged Hset Hcover. destruct w as [a c].
  unfold extent_changed in Hchanged. cbn [app calls] in *.
  apply andb_true_iff in Hchanged as [Hdev Hdiff].
  apply negb_true_iff, bool_decide_eq_false in Hdiff.
  destruct (resize_rebuild_run x y a c Hdev Hdiff Hcover)
    as (w1 & images & d & Hrun & Hcalls & Hin & _ & _ & Hslots & Hnull & Hviews &
        Hfbs & _).
  cbn zeta in *. rewrite Hset in Hviews. cbn in Hviews.
  exists w1, images. split; [exact Hrun |].
  split.
  { rewrite Hcalls, <- app_assoc, drop_calls. apply elem_of_app. now right. }
  split; [exact Hslots |]. split; [exact Hviews |].
  split; [congruence |]. split; [exact Hnull |].
  intros i Hi. apply render_triangle_is_Some. lia.
Qed.

(** X12. When the device exists (and the frame slots cover the images of
    the swapchain), [resize] settles on a surface that keeps reporting one
    extent other than the special value: whatever it did the first time,
    the stored extent is then the reported one, and a second [resize], with
    any arguments, only queries the surface and changes nothing. *)
Theorem resize_settles (x y x' y' : N) (w : World) (reported : Extent2D) :
  (∀ tr, currentExtent (drv_surface_capabilities drv tr) = reported) →
  width reported ≠ UINT32_MAX →
  is_set (device (app w)) = true →
  slots_cover_images drv w →
  ∃ rebuilt w1 w2,
    resize drv x y w = Some (rebuilt, w1) ∧
    extent (swapchain_data (app w1)) = reported ∧
    resize drv x' y' w1 = Some (false, w2) ∧
    app w2 = app w1 ∧
    calls w2 =
      calls w1 ++
      [GetSurfaceCapabilitiesKHR (gpu (app w1)) (surface (app w1))
         (drv_surface_capabilities drv (calls w1))].
Proof.
  intros Hreport Hwidth Hdev Hcover.
  assert (Hnoop : ∀ w1, is_set (device (app w1)) = true →
            extent (swapchain_data (app w1)) = reported →
            ∃ w2, resize drv x' y' w1 = Some (false, w2) ∧ app w2 = app w1 ∧
              calls w2 = calls w1 ++
                [GetSurfaceCapabilitiesKHR (gpu (app w1)) (surface (app w1))
                   (drv_surface_capabilities drv (calls w1))]).
  { intros w1 Hdev1 Hext1. eexists. split.
    - rewrite (resize_same_extent drv x' y' w1 Hdev1); [reflexivity |].
      now rewrite Hreport.
    - now split. }
  destruct (decide (reported = extent (swapchain_data (app w)))) as [Hsame | Hdiff].
  - assert (Hrun := resize_same_extent drv x y w Hdev).
    rewrite Hreport in Hrun. specialize (Hrun Hsame).
    match type of Hrun with
    | _ = Some (_, ?w1) =>
        destruct (Hnoop w1 Hdev (eq_sym Hsame)) as (w2 & Hrun2 & Happ2 & Hcalls2);
        exists false, w1, w2
    end.
    split; [exact Hrun |]. split; [now cbn |].
    split; [exact Hrun2 |]. split; [exact Happ2 | exact Hcalls2].
  - destruct w as [a c]. cbn [app calls] in *.
    destruct (resize_rebuild_run x y a c Hdev) as (w1 & images & d & Hrun & _ & _ & Hext &
      Hdev1 & _); [now rewrite Hreport | exact Hcover |].
    cbn zeta in Hext. unfold choose_extent in Hext. rewrite Hreport in Hext.
    apply N.eqb_neq in Hwidth. rewrite Hwidth in Hext.
    destruct (Hnoop w1) as (w2 & Hrun2 & Happ2 & Hcalls2); [congruence | exact Hext |].
    exists true, w1, w2. now repeat split.
Qed.

(** X13. On a surface that keeps reporting the special extent
    (0xFFFFFFFF, 0xFFFFFFFF), [resize] never settles: it rebuilds the
    swapchain, the stored extent stays what it was, and the reported extent
    still differs from it, so that the next [resize] rebuilds again. *)
Theorem resize_undefined_extent_rebuilds_again (x y : N) (w : World) :
  (∀ tr, currentExtent (drv_surface_capabilities drv tr) = undefined_extent) →
  extent (swapchain_data (app w)) ≠ undefined_extent →
  is_set (device (app w)) = true →
  slots_cover_images drv w →
  ∃ w1,
    resize drv x y w = Some (true, w1) ∧
    count is_swapchain_creation (drop (length (calls w)) (calls w1)) = 1 ∧
    extent (swapchain_data (app w1)) = extent (swapchain_data (app w)) ∧
    extent_changed drv w1 = true.
Proof.
  intros Hreport Hstored Hdev Hcover.
  destruct (resize_calls drv x y w Hcover) as (w1' & d & Hrun' & Hcalls & Hcount & _).
  assert (Hchanged : extent_changed drv w = true).
  { unfold extent_changed. rewrite Hdev, Hreport. cbn.
    apply negb_true_iff, bool_decide_eq_false. congruence. }
  rewrite Hchanged in Hrun', Hcount.
  destruct w as [a c]. cbn [app calls] in *.
  destruct (resize_rebuild_run x y a c Hdev) as (w1 & images & d1 & Hrun & _ & _ & Hext &
    Hdev1 & _); [rewrite Hreport; congruence | exact Hcover |].
  rewrite Hrun in Hrun'. injection Hrun' as ->.
  cbn zeta in Hext. unfold choose_extent in Hext. rewrite Hreport in Hext.
  cbn in Hext.
  exists w1'. split; [exact Hrun |].
  split; [now rewrite Hcalls, drop_calls |].
  split; [exact Hext |].
  unfold extent_changed. rewrite Hdev1, Hdev, Hreport, Hext. cbn.
  apply negb_true_iff, bool_decide_eq_false. congruence.
Qed.

End Surface.

(** ** A rebuilding [resize], and the recovery of [update] *)

Section Recovery.

Context (drv : Driver).

(** [resize] when it rebuilds, call by call and member by member: every
    answer of the driver is the one it gives to the calls issued so far. *)
Lemma resize_rebuild_exact x y a c :
  is_set (device a) = true →
  currentExtent (drv_surface_capabilities drv c) ≠ extent (swapchain_data a) →
  slots_cover_images drv {| app := a; calls := c |} →
  let old := swapchain (swapchain_data a) in
  let old_views := image_views (swapchain_data a) in
  let c0 := history_at_rebuild drv {| app := a; calls := c |} in
  let caps1 := drv_surface_capabilities drv c0 in
  let chosen := choose_extent caps1 (extent (swapchain_data a)) in
  let ask1 := GetSurfaceCapabilitiesKHR (gpu a) (surface a) caps1 in
  let fmt := drv_surface_format drv (c0 ++ [ask1]) in
  let select := SelectSurfaceFormat (gpu a) (surface a) fmt in
  let caps2 := drv_surface_capabilities drv (c0 ++ [ask1; select]) in
  let ask2 := GetSurfaceCapabilitiesKHR (gpu a) (surface a) caps2 in
  let h := drv_new_handle drv (c0 ++ [ask1; select; ask2]) in
  ∃ info w1,
    resize drv x y {| app := a; calls := c |} = Some (true, w1) ∧
    let create := CreateSwapchainKHR info h in
    let old_images :=
      drv_swapchain_images drv
        (c0 ++ [ask1; select; ask2; create] ++ (DestroyImageView <$> old_views)) old in
    let retired :=
      if is_set old
      then (DestroyImageView <$> old_views) ++
           [GetSwapchainImagesKHR old old_images] ++
           concat (teardown_calls <$> take (length old_images) (per_frame_data a)) ++
           [DestroySwapchainKHR old]
      else [] in
    let c1 := c0 ++ [ask1; select; ask2; create] ++ retired in
    let images := drv_swapchain_images drv c1 h in
    let c2 := c1 ++ [GetSwapchainImagesKHR h images] in
    let slots := fresh_slots drv (graphics_queue_index a) (length images) c2 in
    let c3 := c2 ++ slots.2 in
    let mkv := λ image, CreateImageView image (sf_format fmt) in
    let views := (if is_set old then [] else old_views) ++ created drv mkv images c3 in
    let c4 := c3 ++ creation_calls drv mkv images c3 in
    let mkf := λ view, CreateFramebuffer (render_pass a) view chosen in
    ci_imageExtent info = chosen ∧
    ci_oldSwapchain info = old ∧
    calls w1 = c4 ++ creation_calls drv mkf views c4 ∧
    per_frame_data (app w1) = slots.1 ∧
    swapchain_data (app w1) =
      {| swapchain := h; extent := chosen; format := sf_format fmt;
         image_views := views; framebuffers := created drv mkf views c4 |} ∧
    recycled_semaphores (app w1) = recycled_semaphores a ∧
    (gpu (app w1), surface (app w1), device (app w1), queue (app w1),
     graphics_queue_index (app w1), render_pass (app w1), pipeline (app w1)) =
    (gpu a, surface a, device a, queue a, graphics_queue_index a, render_pass a,
     pipeline a).
Proof.
  intros Hdev Hdiff Hcover old old_views c0 caps1 chosen ask1 fmt select caps2 ask2 h.
  unfold slots_cover_images in Hcover. cbn [app calls] in Hcover.
  unfold resize.
  erewrite bind_run by apply this_run. rewrite Hdev. cbn [negb].
  erewrite bind_run by apply getSurfaceCapabilitiesKHR_run.
  rewrite bool_decide_eq_false_2 by exact Hdiff.
  erewrite bind_run by apply emit_run.
  erewrite bind_run by apply teardown_framebuffers_run.
  match goal with |- context [(init_swapchain drv ≫= _) {| app := ?a0; calls := ?c' |}] =>
    assert (Hc0 : c' = c0)
      by (subst c0; unfold history_at_rebuild; cbn [app calls];
          repeat rewrite <- app_assoc; reflexivity);
    rewrite Hc0;
    destruct (init_swapchain_exact drv a0 c0)
      as (fmt' & caps2' & info & h' & retired & images & w1 & Hrun & H); [exact Hcover |]
  end.
  cbn zeta in H.
  cbn [app calls swapchain_data set_swapchain_data set_framebuffers extent swapchain
       recycled_semaphores gpu surface framebuffers image_views per_frame_data device
       graphics_queue_index queue render_pass pipeline] in H.
  destruct H as (Hinfo & Hold & Hret0 & _ & Himages & Hcalls & Hslots & Hviews & Hh &
                 Hext & Hfmt & Hfb & Hpool & Hrest & Hnew & Hf & Hc2 & Hret1).
  assert (Hfmt' : fmt' = fmt) by exact Hf. clear Hf. revert Hfmt. subst fmt'. intros Hfmt.
  assert (Hcaps2' : caps2' = caps2) by exact Hc2. clear Hc2. subst caps2'.
  assert (Hh' : h' = h) by exact Hnew. clear Hnew. revert Hh. subst h'. intros Hh.
  erewrite bind_run by exact Hrun.
  destruct w1 as [a1 c1]. cbn [app calls] in *.
  erewrite bind_run by (apply init_framebuffers_run; exact Hfb).
  injection Hrest as Hgpu Hsurface Hdevice Hqueue Hindex Hpass Hpipeline.
  exists info. eexists. split; [reflexivity |].
  cbn zeta.
  cbn [app calls swapchain_data set_swapchain_data set_framebuffers extent swapchain
       recycled_semaphores gpu surface framebuffers image_views per_frame_data device
       graphics_queue_index queue render_pass pipeline format].
  unfold set_framebuffers.
  assert (Hretired : retired =
            if is_set old
            then (DestroyImageView <$> old_views) ++
                 [GetSwapchainImagesKHR old
                    (drv_swapchain_images drv
                       (c0 ++ [ask1; select; ask2; CreateSwapchainKHR info h] ++
                        (DestroyImageView <$> old_views)) old)] ++
                 concat (teardown_calls <$>
                           take (length (drv_swapchain_images drv
                                   (c0 ++ [ask1; select; ask2; CreateSwapchainKHR info h] ++
                                    (DestroyImageView <$> old_views)) old))
                                (per_frame_data a)) ++
                 [DestroySwapchainKHR old]
            else []).
  { destruct (is_set old) eqn:Hset; [exact (Hret1 Hset) | exact (Hret0 Hset)]. }
  clear Hret0 Hret1. subst retired. subst images.
  rewrite Hviews, Hext, Hpass, Hcalls, Hh, Hfmt.
  split; [exact Hinfo |]. split; [exact Hold |]. split; [reflexivity |].
  split; [exact Hslots |]. split; [reflexivity |]. split; [exact Hpool |].
  congruence.
Qed.

(** C8. [resize] returns [false] with every member of the sample as it
    was (swapchain handle, image views, framebuffers, frame slots and
    semaphore pool among them), having issued at most the capability query,
    whenever the device is null or the surface reports the stored extent.
    When the device exists and the reported extent differs (and the frame
    slots cover the images of the swapchain), it returns [true], and what it
    did is fixed call by call and member by member, every answer of the
    driver being the one it gives to the calls issued so far.  After the
    query it waits for the device and for the queue to be idle and destroys
    every framebuffer.  It asks the surface again, selects a format, and
    creates one swapchain, with the old one as [oldSwapchain] and with the
    extent of that second report (the stored extent when the reported width
    is 0xFFFFFFFF).  When there was a swapchain it destroys the old image
    views, tears down the frame slots of the old images and destroys the old
    swapchain.  It asks for the images of the new swapchain and equips one
    fresh frame slot per image (fence, command pool, command buffer, no
    semaphore), creates one image view per image and one framebuffer per
    image view, of the chosen extent.  Nothing else is called, so one
    swapchain is created in all.  Afterwards the sample holds the new
    swapchain, the chosen extent, the selected format, those frame slots,
    image views and framebuffers, and the semaphore pool and the other
    members as they were. *)
Theorem resize_noop_unless_extent_changed (x y : N) (w : World) :
  let a := app w in
  let caps := drv_surface_capabilities drv (calls w) in
  let query := GetSurfaceCapabilitiesKHR (gpu a) (surface a) caps in
  (is_set (device a) = false ∨ currentExtent caps = extent (swapchain_data a) →
   ∃ w1,
     resize drv x y w = Some (false, w1) ∧
     app w1 = a ∧
     swapchain (swapchain_data (app w1)) = swapchain (swapchain_data a) ∧
     image_views (swapchain_data (app w1)) = image_views (swapchain_data a) ∧
     framebuffers (swapchain_data (app w1)) = framebuffers (swapchain_data a) ∧
     per_frame_data (app w1) = per_frame_data a ∧
     recycled_semaphores (app w1) = recycled_semaphores a ∧
     (calls w1 = calls w ∨ calls w1 = calls w ++ [query])) ∧
  (is_set (device a) = true → currentExtent caps ≠ extent (swapchain_data a) →
   slots_cover_images drv w →
   let old := swapchain (swapchain_data a) in
   let old_views := image_views (swapchain_data a) in
   let c0 :=
     calls w ++
     [query; DeviceWaitIdle; QueueWaitIdle] ++
     (DestroyFramebuffer <$> framebuffers (swapchain_data a)) in
   let caps1 := drv_surface_capabilities drv c0 in
   let chosen :=
     if (width (currentExtent caps1) =? UINT32_MAX)%N
     then extent (swapchain_data a)
     else currentExtent caps1 in
   let ask1 := GetSurfaceCapabilitiesKHR (gpu a) (surface a) caps1 in
   let fmt := drv_surface_format drv (c0 ++ [ask1]) in
   let select := SelectSurfaceFormat (gpu a) (surface a) fmt in
   let caps2 := drv_surface_capabilities drv (c0 ++ [ask1; select]) in
   let ask2 := GetSurfaceCapabilitiesKHR (gpu a) (surface a) caps2 in
   let h := drv_new_handle drv (c0 ++ [ask1; select; ask2]) in
   ∃ w1 info,
     let create := CreateSwapchainKHR info h in
     let old_images :=
       drv_swapchain_images drv
         (c0 ++ [ask1; select; ask2; create] ++ (DestroyImageView <$> old_views)) old in
     let retired :=
       if is_set old
       then (DestroyImageView <$> old_views) ++
            [GetSwapchainImagesKHR old old_images] ++
            concat (teardown_calls <$> take (length old_images) (per_frame_data a)) ++
            [DestroySwapchainKHR old]
       else [] in
     let c1 := c0 ++ [ask1; select; ask2; create] ++ retired in
     let images := drv_swapchain_images drv c1 h in
     let c2 := c1 ++ [GetSwapchainImagesKHR h images] in
     let slots := fresh_slots drv (graphics_queue_index a) (length images) c2 in
     let c3 := c2 ++ slots.2 in
     let mkv := λ image, CreateImageView image (sf_format fmt) in
     let views := (if is_set old then [] else old_views) ++ created drv mkv images c3 in
     let c4 := c3 ++ creation_calls drv mkv images c3 in
     let mkf := λ view, CreateFramebuffer (render_pass a) view chosen in
     resize drv x y w = Some (true, w1) ∧
     calls w1 = c4 ++ creation_calls drv mkf views c4 ∧
     count is_swapchain_creation (drop (length (calls w)) (calls w1)) = 1 ∧
     ci_imageExtent info = chosen ∧
     ci_oldSwapchain info = old ∧
     per_frame_data (app w1) = slots.1 ∧
     length (per_frame_data (app w1)) = length images ∧
     (∀ pfd, pfd ∈ per_frame_data (app w1) →
        swapchain_acquire_semaphore pfd = VK_NULL_HANDLE ∧
        swapchain_release_semaphore pfd = VK_NULL_HANDLE) ∧
     swapchain_data (app w1) =
       {| swapchain := h; extent := chosen; format := sf_format fmt;
          image_views := views; framebuffers := created drv mkf views c4 |} ∧
     length (framebuffers (swapchain_data (app w1))) = length views ∧
     recycled_semaphores (app w1) = recycled_semaphores a ∧
     (gpu (app w1), surface (app w1), device (app w1), queue (app w1),
      graphics_queue_index (app w1), render_pass (app w1), pipeline (app w1)) =
     (gpu a, surface a, device a, queue a, graphics_queue_index a, render_pass a,
      pipeline a)).
Proof.
  intros a caps query. split.
  - intros Hnoop.
    destruct (is_set (device a)) eqn:Hdev.
    + destruct Hnoop as [Hnull | Hsame]; [discriminate |].
      eexists. split; [apply (resize_same_extent drv x y w Hdev Hsame) |].
      cbn. repeat split. now right.
    + exists w. split; [apply (resize_without_device drv x y w Hdev) |].
      repeat split. now left.
  - intros Hdev Hdiff Hcover.
    destruct (resize_calls drv x y w Hcover) as (w' & d & Hrun' & Hd & Hn & _).
    assert (Hb : extent_changed drv w = true).
    { unfold extent_changed. fold a. rewrite Hdev.
      now rewrite bool_decide_eq_false_2 by exact Hdiff. }
    rewrite Hb in Hrun', Hn.
    destruct w as [a' c]. cbn [app calls] in *. subst a.
    destruct (resize_rebuild_exact x y a' c Hdev Hdiff Hcover)
      as (info & w1 & Hrun & H).
    cbn zeta in H. unfold history_at_rebuild, choose_extent in H. cbn [app calls] in H.
    destruct H as (Hinfo & Hold & Hcalls & Hslots & Hdata & Hpool & Hrest).
    exists w1, info.
    split; [exact Hrun |]. split; [exact Hcalls |].
    split.
    { assert (Hw : w' = w1) by congruence. subst w'.
      now rewrite Hd, drop_calls. }
    split; [exact Hinfo |]. split; [exact Hold |]. split; [exact Hslots |].
    split; [rewrite Hslots; apply fresh_slots_length |].
    split; [rewrite Hslots; apply fresh_slots_semaphores |].
    split; [exact Hdata |].
    split; [rewrite Hdata; cbn [framebuffers]; apply length_created |].
    split; [exact Hpool | exact Hrest].
Qed.

(** *** What a call of [resize] leaves behind *)

Lemma resize_outcome x y w :
  slots_cover_images drv w →
  ∃ w1 d,
    resize drv x y w = Some (extent_changed drv w, w1) ∧
    calls w1 = calls w ++ d ∧
    count is_swapchain_creation d = (if extent_changed drv w then 1 else 0) ∧
    count is_acquire d = 0 ∧
    count is_submit d = 0 ∧
    count is_present d = 0 ∧
    (extent_changed drv w = false → app w1 = app w) ∧
    (extent_changed drv w = true → surface_set_rebuilt drv w w1).
Proof.
  intros Hcover.
  destruct (resize_calls drv x y w Hcover)
    as (w1 & d & Hrun & Hd & Hn & Ha & Hs & Hp & Hsame & _).
  exists w1, d. do 7 (split; [assumption |]).
  intros Hb. rewrite Hb in Hrun.
  unfold extent_changed in Hb. apply andb_true_iff in Hb as [Hdev Hdiff].
  apply negb_true_iff, bool_decide_eq_false in Hdiff.
  destruct w as [a c]. cbn [app calls] in *.
  destruct (resize_rebuild_exact x y a c Hdev Hdiff Hcover) as (info & w1' & Hrun' & H).
  assert (Hw : w1' = w1) by congruence. subst w1'.
  exists info. exact H.
Qed.

(** *** Presenting, with what a rebuild leaves behind *)

Lemma present_frame_outcome (w : World) (index : N) (pfd : FrameData) :
  per_frame_data (app w) !! N.to_nat index = Some pfd →
  slots_cover_images drv w →
  let a := app w in
  let res := drv_present drv (calls w) in
  let present :=
    QueuePresentKHR (swapchain_release_semaphore pfd) (swapchain (swapchain_data a))
      index res in
  let wp := {| app := a; calls := calls w ++ [present] |} in
  let stored := extent (swapchain_data a) in
  ∃ w2 d,
    present_frame drv index w = Some (tt, w2) ∧
    calls w2 = calls w ++ present :: d ∧
    count is_present d = 0 ∧
    count is_acquire d = 0 ∧
    (stale res = true →
       resize drv (width stored) (height stored) wp = Some (extent_changed drv wp, w2) ∧
       count is_swapchain_creation d = (if extent_changed drv wp then 1 else 0) ∧
       (extent_changed drv wp = false → app w2 = a) ∧
       (extent_changed drv wp = true → surface_set_rebuilt drv wp w2)) ∧
    (stale res = false → res ≠ eSuccess →
       app w2 = a ∧ d = [LogError "Failed to present swapchain image."%string]) ∧
    (res = eSuccess → app w2 = a ∧ d = []).
Proof.
  intros Hslot Hcover a res present wp stored.
  destruct (present_frame_calls drv w index pfd Hslot Hcover)
    as (w2 & d & Hrun & Hcalls & Hp & Ha & Hstale & Hlog & Hok).
  fold a res present wp stored in Hcalls, Hstale, Hlog, Hok.
  exists w2, d. do 4 (split; [assumption |]).
  split; [| split; assumption].
  intros Hres. destruct (Hstale Hres) as (Hresize & Hn & _).
  split; [exact Hresize |]. split; [exact Hn |].
  destruct (resize_outcome (width stored) (height stored) wp Hcover)
    as (w2' & d' & Hresize' & Hd' & _ & _ & _ & _ & Hsame & Hbuilt).
  assert (Hw : w2' = w2) by congruence. subst w2'.
  assert (Hd : d' = d).
  { rewrite Hcalls in Hd'. unfold wp in Hd'. cbn [calls] in Hd'.
    rewrite <- app_assoc in Hd'. apply app_inv_head in Hd'.
    cbn [Datatypes.app] in Hd'. now injection Hd'. }
  subst d'. split; [exact Hsame | exact Hbuilt].
Qed.

(** C1, as the code has it.  When the first acquire of [update] returns
    suboptimal or out-of-date (and the frame slots cover the images of the
    swapchain): the semaphore of that acquire is the last entry of the pool
    again; [resize] runs once, on the stored width and height.  It creates
    no swapchain, and leaves the sample as it was, unless the device exists
    and the surface reports an extent other than the stored one.  Then it
    creates one swapchain, and what it leaves behind is the rebuilt Surface
    Set of [surface_set_rebuilt]: the extent of the new swapchain, and the
    stored one from then on, is the current extent the surface reports when
    [init_swapchain] asks (after [resize]'s own query, the two idle waits
    and the destruction of the framebuffers), or the previously stored
    extent when the width of that report is 0xFFFFFFFF; the frame slots,
    image views and framebuffers are those of the new swapchain's images.
    Then [acquire_next_image] runs a second time and its result is the
    result of the acquire stage, so that two acquires are issued so far.
    If that second result is not success either, [update] waits for the
    queue to be idle and returns, with no submit and no present.  If it is
    success, the rest of the update (rendering and presenting) issues no
    further acquire. *)
Theorem update_stale_acquire (w w1 : World) (r1 : Result * N) :
  acquire_next_image drv w = Some (r1, w1) →
  stale r1.1 = true →
  slots_cover_images drv w1 →
  let stored := extent (swapchain_data (app w1)) in
  let rebuilt := extent_changed drv w1 in
  ∃ semaphore w2,
    last (calls w1) =
      Some (AcquireNextImageKHR (swapchain (swapchain_data (app w))) UINT64_MAX
              semaphore r1.1 r1.2) ∧
    last (recycled_semaphores (app w1)) = Some semaphore ∧
    resize drv (width stored) (height stored) w1 = Some (rebuilt, w2) ∧
    count is_swapchain_creation (drop (length (calls w1)) (calls w2)) =
      (if rebuilt then 1 else 0) ∧
    count is_acquire (drop (length (calls w1)) (calls w2)) = 0 ∧
    (rebuilt = false → app w2 = app w1) ∧
    (rebuilt = true → surface_set_rebuilt drv w1 w2) ∧
    acquire_with_retry drv w = acquire_next_image drv w2 ∧
    ∀ r2 w3,
      acquire_next_image drv w2 = Some (r2, w3) →
      count is_acquire (drop (length (calls w)) (calls w3)) = 2 ∧
      count is_swapchain_creation (drop (length (calls w)) (calls w3)) =
        (if rebuilt then 1 else 0) ∧
      (r2.1 ≠ eSuccess →
       ∃ w4,
         update drv w = Some (tt, w4) ∧
         app w4 = app w3 ∧
         calls w4 = calls w3 ++ [QueueWaitIdle] ∧
         count is_submit (drop (length (calls w)) (calls w4)) = 0 ∧
         count is_present (drop (length (calls w)) (calls w4)) = 0) ∧
      (r2.1 = eSuccess →
       ∀ w4 pfd,
         render_triangle drv r2.2 w3 = Some (tt, w4) →
         per_frame_data (app w4) !! N.to_nat r2.2 = Some pfd →
         slots_cover_images drv w4 →
         ∃ w5,
           update drv w = Some (tt, w5) ∧
           count is_acquire (drop (length (calls w)) (calls w5)) = 2).
Proof.
  intros Hfirst Hstale Hcover stored rebuilt.
  destruct (acquire_next_image_failure drv w r1 w1 Hfirst (stale_not_success _ Hstale))
    as (s & Hlast & Hpool & _).
  destruct (resize_outcome (width stored) (height stored) w1 Hcover)
    as (w2 & d2 & Hresize & Hc2 & Hn2 & Ha2 & Hs2 & Hp2 & Hsame & Hbuilt).
  destruct (acquire_next_image_calls drv w r1 w1 Hfirst)
    as (d1 & Hc1 & Ha1 & Hn1 & Hs1 & Hp1).
  exists s, w2. fold rebuilt in Hresize, Hn2, Hsame, Hbuilt.
  split; [exact Hlast |]. split; [exact Hpool |]. split; [exact Hresize |].
  rewrite Hc2, drop_calls.
  split; [exact Hn2 |]. split; [exact Ha2 |].
  split; [exact Hsame |]. split; [exact Hbuilt |].
  assert (Hstage : acquire_with_retry drv w = acquire_next_image drv w2).
  { unfold acquire_with_retry. erewrite bind_run by exact Hfirst.
    rewrite Hstale. unfold resize_to_stored_extent.
    destruct w1 as [a1 c1].
    erewrite (bind_run (this ≫= _)); [reflexivity |].
    erewrite bind_run by apply this_run. exact Hresize. }
  split; [exact Hstage |].
  intros r2 w3 Hsecond.
  destruct (acquire_next_image_calls drv w2 r2 w3 Hsecond)
    as (d3 & Hc3 & Ha3 & Hn3 & Hs3 & Hp3).
  assert (Hall : calls w3 = calls w ++ (d1 ++ d2 ++ d3)).
  { now rewrite Hc3, Hc2, Hc1, <- !app_assoc. }
  rewrite Hall, drop_calls, !count_app, Ha1, Ha2, Ha3, Hn1, Hn2, Hn3.
  split; [reflexivity |]. split; [lia |].
  assert (Hretry : acquire_with_retry drv w = Some (r2, w3))
    by (rewrite Hstage; exact Hsecond).
  split.
  - intros Hfail. eexists. split.
    + unfold update. erewrite bind_run by exact Hretry.
      cbn zeta. rewrite bool_decide_eq_false_2 by exact Hfail. reflexivity.
    + cbn. rewrite Hall. repeat split.
      * rewrite <- app_assoc, drop_calls, !count_app, Hs1, Hs2, Hs3. reflexivity.
      * rewrite <- app_assoc, drop_calls, !count_app, Hp1, Hp2, Hp3. reflexivity.
  - intros Hok w4 pfd Hrender Hslot Hcover4.
    destruct (render_triangle_calls drv _ _ _ Hrender) as (d4 & Hc4 & Ha4 & _).
    destruct (present_frame_calls drv w4 r2.2 pfd Hslot Hcover4)
      as (w5 & d5 & Hpresent & Hc5 & _ & Ha5 & _).
    exists w5. split.
    + rewrite (update_renders drv w r2 w3 w4 Hretry Hok Hrender). exact Hpresent.
    + rewrite Hc5, Hc4, Hall, <- !app_assoc, drop_calls.
      rewrite !count_app, count_cons, Ha1, Ha2, Ha3, Ha4, Ha5. reflexivity.
Qed.

(** C7, as the code has it.  In an update that acquired image [index],
    rendered and now presents (with the frame slots covering the swapchain
    images): one present call is issued, waiting on the slot's release
    semaphore.  On a suboptimal or out-of-date result [resize] runs once, on
    the stored width and height, and nothing is presented again.  That
    [resize] creates no swapchain, and leaves the sample as it was, unless
    the device exists and the surface reports an extent other than the
    stored one.  Then it creates one swapchain, and what it leaves behind is
    the rebuilt Surface Set of [surface_set_rebuilt]: the extent of the new
    swapchain, and the stored one from then on, is the current extent the
    surface reports when [init_swapchain] asks (after [resize]'s own query,
    the two idle waits and the destruction of the framebuffers), or the
    previously stored extent when the width of that report is 0xFFFFFFFF;
    the frame slots, image views and framebuffers are those of the new
    swapchain's images.  On any other result that is not success the only
    further call is the error log; on success there is none. *)
Theorem update_present_result (w0 w1 w : World) (r : Result * N) (pfd : FrameData) :
  acquire_with_retry drv w0 = Some (r, w1) →
  r.1 = eSuccess →
  render_triangle drv r.2 w1 = Some (tt, w) →
  per_frame_data (app w) !! N.to_nat r.2 = Some pfd →
  slots_cover_images drv w →
  let a := app w in
  let res := drv_present drv (calls w) in
  let present :=
    QueuePresentKHR (swapchain_release_semaphore pfd) (swapchain (swapchain_data a))
      r.2 res in
  let wp := {| app := a; calls := calls w ++ [present] |} in
  let stored := extent (swapchain_data a) in
  ∃ w2 d,
    update drv w0 = Some (tt, w2) ∧
    calls w2 = calls w ++ present :: d ∧
    count is_present d = 0 ∧
    count is_acquire d = 0 ∧
    (stale res = true →
       resize drv (width stored) (height stored) wp = Some (extent_changed drv wp, w2) ∧
       count is_swapchain_creation d = (if extent_changed drv wp then 1 else 0) ∧
       (extent_changed drv wp = false → app w2 = a) ∧
       (extent_changed drv wp = true → surface_set_rebuilt drv wp w2)) ∧
    (stale res = false → res ≠ eSuccess →
       app w2 = a ∧ d = [LogError "Failed to present swapchain image."%string]) ∧
    (res = eSuccess → app w2 = a ∧ d = []).
Proof.
  intros Hacq Hres Hrender Hslot Hcover.
  rewrite (update_renders drv w0 r w1 w Hacq Hres Hrender).
  apply present_frame_outcome; assumption.
Qed.

End Recovery.

(** * The recovery on the concrete frame *)

(** Instance for C1: a stale first acquire on a resized window. *)
Lemma update_stale_acquire_witness :
  acquire_next_image stale_twice_resized first_frame =
    Some ((eSuboptimalKHR, 0%N), stale_frame) ∧
  stale eSuboptimalKHR = true ∧
  slots_cover_images stale_twice_resized stale_frame ∧
  ∃ w2, resize stale_twice_resized 800 600 stale_frame = Some (true, w2) ∧
        surface_set_rebuilt stale_twice_resized stale_frame w2 ∧
        acquire_with_retry stale_twice_resized first_frame =
          acquire_next_image stale_twice_resized w2.
Proof.
  assert (H1 : acquire_next_image stale_twice_resized first_frame =
               Some ((eSuboptimalKHR, 0%N), stale_frame)) by reflexivity.
  assert (Hc : slots_cover_images stale_twice_resized stale_frame)
    by (apply three_slots_cover; reflexivity).
  split; [exact H1 |]. split; [reflexivity |]. split; [exact Hc |].
  destruct (update_stale_acquire stale_twice_resized first_frame stale_frame
              (eSuboptimalKHR, 0%N) H1 eq_refl Hc)
    as (s & w2 & _ & _ & Hresize & _ & _ & _ & Hbuilt & Hstage & _).
  exists w2. split; [exact Hresize |]. split; [exact (Hbuilt eq_refl) | exact Hstage].
Defined.

(** Against C1 as stated: with the window unchanged, the update
    whose first acquire is suboptimal creates no swapchain at all; with the
    window resized to 1024x768 it creates one, at 1024x768 and not at the
    stored 800x600. *)
Lemma update_stale_acquire_rebuild_counterexample :
  calls_of (acquire_next_image stale_twice_same_extent first_frame) =
    Some [CreateSemaphore 100;
          AcquireNextImageKHR 5 UINT64_MAX 100 eSuboptimalKHR 0] ∧
  calls_of (update stale_twice_same_extent first_frame) =
    Some [CreateSemaphore 100;
          AcquireNextImageKHR 5 UINT64_MAX 100 eSuboptimalKHR 0;
          GetSurfaceCapabilitiesKHR 2 3 (surface_report extent_800x600);
          AcquireNextImageKHR 5 UINT64_MAX 100 eErrorOutOfDateKHR 0;
          QueueWaitIdle] ∧
  rebuild_extents <$> calls_of (update stale_twice_same_extent first_frame) = Some [] ∧
  extent (swapchain_data (app first_frame)) = extent_800x600 ∧
  rebuild_extents <$> calls_of (update stale_twice_resized first_frame) =
    Some [extent_1024x768].
Proof. repeat split; vm_compute; reflexivity. Qed.

(** Instance for C7: image 1 acquired and rendered, the present answered "suboptimal"
    on a resized window. *)
Lemma update_present_result_witness :
  acquire_with_retry present_stale_resized first_frame =
    Some ((eSuccess, 1%N), acquired_frame) ∧
  render_triangle present_stale_resized 1 acquired_frame = Some (tt, rendered_frame) ∧
  per_frame_data (app rendered_frame) !! 1 =
    Some {| queue_submit_fence := 41;
            primary_command_pool := 51;
            primary_command_buffer := 61;
            swapchain_acquire_semaphore := 100;
            swapchain_release_semaphore := 113 |} ∧
  slots_cover_images present_stale_resized rendered_frame ∧
  ∃ w2 d,
    update present_stale_resized first_frame = Some (tt, w2) ∧
    calls w2 = calls rendered_frame ++ QueuePresentKHR 113 5 1 eSuboptimalKHR :: d ∧
    count is_present d = 0 ∧
    count is_swapchain_creation d = 1 ∧
    surface_set_rebuilt present_stale_resized
      {| app := app rendered_frame;
         calls := calls rendered_frame ++ [QueuePresentKHR 113 5 1 eSuboptimalKHR] |}
      w2.
Proof.
  assert (H1 : acquire_with_retry present_stale_resized first_frame =
               Some ((eSuccess, 1%N), acquired_frame)) by (vm_compute; reflexivity).
  assert (H2 : render_triangle present_stale_resized 1 acquired_frame =
               Some (tt, rendered_frame)) by (vm_compute; reflexivity).
  assert (Hc : slots_cover_images present_stale_resized rendered_frame)
    by (apply three_slots_cover; reflexivity).
  split; [exact H1 |]. split; [exact H2 |]. split; [reflexivity |].
  split; [exact Hc |].
  destruct (update_present_result present_stale_resized first_frame acquired_frame
              rendered_frame (eSuccess, 1%N) _ H1 eq_refl H2 eq_refl Hc)
    as (w2 & d & Hrun & Hcalls & Hpresent & _ & Hstale & _).
  exists w2, d. split; [exact Hrun |]. split; [exact Hcalls |].
  split; [exact Hpresent |].
  destruct (Hstale eq_refl) as (_ & Hcount & _ & Hbuilt).
  split; [exact Hcount | exact (Hbuilt eq_refl)].
Defined.

(** Against C7 as stated: with the window unchanged, the update
    whose present is suboptimal creates no swapchain, its last call being
    the capability query of [resize]; with the window resized to 1024x768
    it creates one, at 1024x768 and not at the stored 800x600. *)
Lemma update_present_rebuild_counterexample :
  calls_of (update present_stale_same_extent first_frame) =
    Some [CreateSemaphore 100;
          AcquireNextImageKHR 5 UINT64_MAX 100 eSuccess 1;
          WaitForFences 41 true UINT64_MAX; ResetFences 41; ResetCommandPool 51;
          CmdBegin 61 true;
          CmdBeginRenderPass 61 6 32 extent_800x600;
          CmdBindPipeline 61 7;
          CmdSetViewport 61 extent_800x600;
          CmdSetScissor 61 extent_800x600;
          CmdDraw 61 3 1 0 0; CmdEndRenderPass 61; CmdEnd 61;
          CreateSemaphore 113;
          QueueSubmit 100 PIPELINE_STAGE_COLOR_ATTACHMENT_OUTPUT_BIT 61 113 41;
          QueuePresentKHR 113 5 1 eSuboptimalKHR;
          GetSurfaceCapabilitiesKHR 2 3 (surface_report extent_800x600)] ∧
  rebuild_extents <$> calls_of (update present_stale_same_extent first_frame) = Some [] ∧
  extent (swapchain_data (app first_frame)) = extent_800x600 ∧
  rebuild_extents <$> calls_of (update present_stale_resized first_frame) =
    Some [extent_1024x768].
Proof. repeat split; vm_compute; reflexivity. Qed.

(** Instance for C8: the first frame's [resize] on an unchanged and on a resized
    window. *)
Lemma resize_noop_unless_extent_changed_witness :
  currentExtent (drv_surface_capabilities stale_twice_same_extent (calls first_frame))
    = extent (swapchain_data (app first_frame)) ∧
  (∃ w1, resize stale_twice_same_extent 640 480 first_frame = Some (false, w1) ∧
         app w1 = prepared_sample) ∧
  is_set (device (app first_frame)) = true ∧
  currentExtent (drv_surface_capabilities stale_twice_resized (calls first_frame))
    ≠ extent (swapchain_data (app first_frame)) ∧
  slots_cover_images stale_twice_resized first_frame ∧
  (∃ w1, resize stale_twice_resized 640 480 first_frame = Some (true, w1) ∧
         swapchain (swapchain_data (app w1)) ≠ 5%N ∧
         extent (swapchain_data (app w1)) = extent_1024x768 ∧
         length (per_frame_data (app w1)) = 3 ∧
         length (framebuffers (swapchain_data (app w1))) = 3).
Proof.
  assert (Hc : slots_cover_images stale_twice_resized first_frame)
    by (apply three_slots_cover; reflexivity).
  assert (Hdiff : currentExtent (drv_surface_capabilities stale_twice_resized
                                   (calls first_frame))
                  ≠ extent (swapchain_data (app first_frame))) by discriminate.
  split; [reflexivity |]. split.
  - destruct (resize_noop_unless_extent_changed stale_twice_same_extent 640 480
                first_frame) as [Hnoop _].
    destruct (Hnoop (or_intror eq_refl)) as (w1 & Hrun & Happ & _).
    exists w1. split; [exact Hrun | exact Happ].
  - split; [reflexivity |]. split; [exact Hdiff |]. split; [exact Hc |].
    destruct (resize_noop_unless_extent_changed stale_twice_resized 640 480
                first_frame) as [_ Hrebuild].
    destruct (Hrebuild eq_refl Hdiff Hc)
      as (w1 & info & Hrun & _ & _ & _ & _ & Hslots & _ & _ & Hdata & _).
    exists w1. split; [exact Hrun |].
    rewrite Hdata, Hslots. cbn [swapchain extent framebuffers].
    split; [vm_compute; discriminate |].
    split; [vm_compute; reflexivity |].
    split; [rewrite fresh_slots_length | rewrite length_created, length_app, length_created];
      vm_compute; reflexivity.
Defined.

(** * Properties of start-up and shutdown *)

(** ** Extensions *)

Lemma find_if_end {A} (p : A → bool) (l : list A) :
  find_if p l = length l ↔ ∀ x, x ∈ l → p x = false.
Proof.
  induction l as [|x l IH]; cbn.
  - split; [intros _ y Hy; now apply elem_of_nil in Hy | reflexivity].
  - destruct (p x) eqn:Hx.
    + split; [discriminate |]. intros H. specialize (H x (list_elem_of_here _ _)).
      congruence.
    + split.
      * intros [= Hl] y Hy. apply elem_of_cons in Hy as [-> | Hy]; [exact Hx |].
        now apply IH.
      * intros H. f_equal. apply IH. intros y Hy. apply H. now right.
Qed.

Lemma find_if_found {A} (p : A → bool) (l : list A) :
  find_if p l ≠ length l ↔ ∃ x, x ∈ l ∧ p x = true.
Proof.
  induction l as [|x l IH]; cbn.
  - split; [congruence | intros (y & Hy & _); now apply elem_of_nil in Hy].
  - destruct (p x) eqn:Hx.
    + split; [intros _; exists x; split; [left | exact Hx] | discriminate].
    + split.
      * intros Hne. destruct (proj1 IH) as (y & Hy & Hp); [congruence |].
        exists y. split; [now right | exact Hp].
      * intros (y & Hy & Hp) [= Hl]. apply elem_of_cons in Hy as [-> | Hy]; [congruence |].
        apply IH; eauto.
Qed.

Lemma extension_available (extension : string) (available : list ExtensionProperties) :
  (find_if (λ ep, String.eqb (extensionName ep) extension) available =? length available)
    = false ↔
  extension ∈ extensionName <$> available.
Proof.
  rewrite Nat.eqb_neq, find_if_found, list_elem_of_fmap. split.
  - intros (ep & Hin & Heq). apply String.eqb_eq in Heq. eauto.
  - intros (ep & -> & Hin). exists ep. split; [exact Hin | apply String.eqb_refl].
Qed.

Lemma validate_extensions_true required available :
  validate_extensions required available = true ↔
  ∀ extension, extension ∈ required → extension ∈ extensionName <$> available.
Proof.
  unfold validate_extensions. rewrite Nat.eqb_eq, find_if_end.
  split; intros H extension Hin; apply extension_available, H, Hin.
Qed.

Lemma validate_extensions_false required available :
  validate_extensions required available = false ↔
  ∃ extension, extension ∈ required ∧ extension ∉ extensionName <$> available.
Proof.
  unfold validate_extensions. rewrite Nat.eqb_neq, find_if_found.
  split; intros (extension & Hin & H); exists extension; (split; [exact Hin |]).
  - intros Hav. apply extension_available in Hav. rewrite Nat.eqb_eq in H.
    rewrite Nat.eqb_neq in Hav. contradiction.
  - apply Nat.eqb_eq. destruct (decide (find_if (λ ep, String.eqb (extensionName ep) extension)
      available = length available)) as [Heq | Hne]; [exact Heq |].
    contradict H. apply extension_available. now apply Nat.eqb_neq.
Qed.

(** X14. [validate_extensions] returns [true] exactly when every required
    name is the name of an available extension, and [false] exactly when
    some required name is missing; with nothing required it returns [true]
    whatever is available. *)
Theorem validate_extensions_all_available (required : list string)
    (available : list ExtensionProperties) :
  (validate_extensions required available = true ↔
   ∀ extension, extension ∈ required → extension ∈ extensionName <$> available) ∧
  (validate_extensions required available = false ↔
   ∃ extension, extension ∈ required ∧ extension ∉ extensionName <$> available) ∧
  validate_extensions [] available = true.
Proof.
  split; [apply validate_extensions_true |].
  split; [apply validate_extensions_false | reflexivity].
Qed.

(** X15. [create_device] throws exactly when a required extension is not
    available.  Otherwise the device is created with one queue of the
    graphics family, and the enabled extensions are the required ones, in
    order, followed by [VK_KHR_portability_subset] when the build enables
    portability and the device offers that extension; every enabled
    extension is an available one. *)
Theorem create_device_enables_available (VKB_ENABLE_PORTABILITY : bool)
    (available : list ExtensionProperties) (graphics_queue_index : N)
    (required : list string) :
  let names := extensionName <$> available in
  let portability := VK_KHR_PORTABILITY_SUBSET_EXTENSION_NAME in
  match create_device VKB_ENABLE_PORTABILITY available graphics_queue_index required with
  | Thrown message =>
      (∃ extension, extension ∈ required ∧ extension ∉ names) ∧
      message = "Required device extensions are missing, will try without."%string
  | Returned info =>
      (∀ extension, extension ∈ required → extension ∈ names) ∧
      (∀ extension, extension ∈ enabledExtensionNames info → extension ∈ names) ∧
      (∃ extra, enabledExtensionNames info = required ++ extra ∧
         (extra = [portability] ∨ extra = []) ∧
         (extra = [portability] ↔ VKB_ENABLE_PORTABILITY = true ∧ portability ∈ names)) ∧
      queueFamilyIndex info = graphics_queue_index ∧
      queueCount info = 1%N
  end.
Proof.
  intros names portability. unfold create_device.
  destruct (validate_extensions required available) eqn:Hvalid; cbn [negb].
  - pose proof (proj1 (validate_extensions_true _ _) Hvalid) as Hreq.
    assert (Hport : existsb (λ extension, String.eqb (extensionName extension) portability)
                      available = true ↔ portability ∈ names).
    { rewrite existsb_exists. unfold names. rewrite list_elem_of_fmap. split.
      - intros (ep & Hin & Heq). apply String.eqb_eq in Heq.
        exists ep. split; [now symmetry | now apply list_elem_of_In].
      - intros (ep & Heq & Hin). exists ep.
        split; [now apply list_elem_of_In | rewrite <- Heq; apply String.eqb_refl]. }
    fold portability. cbn [enabledExtensionNames queueFamilyIndex queueCount].
    split; [exact Hreq |]. split; [| split; [| now split]].
    + intros extension Hin. apply elem_of_app in Hin as [Hin | Hin]; [now apply Hreq |].
      destruct VKB_ENABLE_PORTABILITY; cbn [andb] in Hin;
        [| now apply elem_of_nil in Hin].
      destruct (existsb _ available) eqn:Hex; [| now apply elem_of_nil in Hin].
      apply list_elem_of_singleton in Hin as ->. now apply Hport.
    + eexists. split; [reflexivity |].
      destruct VKB_ENABLE_PORTABILITY; cbn [andb].
      * destruct (existsb _ available) eqn:Hex.
        -- split; [now left |]. split; [intros _; split; [reflexivity | now apply Hport] |
                                        reflexivity].
        -- split; [now right |]. split; [discriminate |].
           intros [_ Hin]. apply Hport in Hin. congruence.
      * split; [now right |]. split; [discriminate | intros [[=] _]].
  - split; [now apply validate_extensions_false | reflexivity].
Qed.

Lemma existsb_name {A} (f : A → string) (name : string) (l : list A) :
  existsb (λ x, String.eqb (f x) name) l = true ↔ name ∈ f <$> l.
Proof.
  rewrite existsb_exists, list_elem_of_fmap. split.
  - intros (x & Hin & Heq). apply String.eqb_eq in Heq.
    exists x. split; [now symmetry | now apply list_elem_of_In].
  - intros (x & Heq & Hin). exists x.
    split; [now apply list_elem_of_In | rewrite <- Heq; apply String.eqb_refl].
Qed.

(** [create_instance], outcome by outcome.  [wanted] are the extensions
    the instance cannot do without. *)
Lemma create_instance_cases (build : Build)
    (available : list ExtensionProperties) (layers : list string) (volk : bool)
    (required required_layers : list string) :
  let names := extensionName <$> available in
  let validation := "VK_LAYER_KHRONOS_validation"%string in
  let supported := existsb (λ lp, String.eqb lp validation) layers in
  let wanted := λ extension,
    extension ∈ required ∨
    extension = platform_surface_extension (platform build) ∨
    (debug_or_validation build = true ∧
     extension = VK_EXT_DEBUG_UTILS_EXTENSION_NAME) ∨
    (enable_portability build = true ∧
     extension = VK_KHR_GET_PHYSICAL_DEVICE_PROPERTIES_2_EXTENSION_NAME) in
  match create_instance build available layers volk required required_layers with
  | Thrown message =>
      ((∃ extension, (extension ∉ names) ∧ wanted extension) ∧
       message = "Required instance extensions are missing."%string) ∨
      (needs_volk (platform build) = true ∧ volk = true ∧
       (∀ extension, wanted extension → extension ∈ names) ∧
       message = "Failed to initialize volk."%string)
  | Returned (info, log) =>
      (∀ extension, extension ∈ instanceExtensionNames info → extension ∈ names) ∧
      (∀ extension, extension ∈ required → extension ∈ instanceExtensionNames info) ∧
      platform_surface_extension (platform build) ∈ instanceExtensionNames info ∧
      (debug_or_validation build = true →
       VK_EXT_DEBUG_UTILS_EXTENSION_NAME ∈ instanceExtensionNames info) ∧
      (enable_portability build = true →
       VK_KHR_GET_PHYSICAL_DEVICE_PROPERTIES_2_EXTENSION_NAME
         ∈ instanceExtensionNames info) ∧
      (enumeratePortability info = true ↔
       enable_portability build = true ∧
       VK_KHR_PORTABILITY_ENUMERATION_EXTENSION_NAME ∈ names) ∧
      (enumeratePortability info = true →
       VK_KHR_PORTABILITY_ENUMERATION_EXTENSION_NAME ∈ instanceExtensionNames info) ∧
      pNext info = debug_or_validation build ∧
      (supported = true ↔ validation ∈ layers) ∧
      enabledLayerNames info =
        required_layers ++
        (if debug_or_validation build && supported then [validation] else []) ∧
      log =
        (if debug_or_validation build
         then if supported
              then [LogI_enabled_validation_layer validation]
              else [LogW_validation_layer_not_available validation]
         else []) ∧
      (needs_volk (platform build) = true → volk = false)
  end.
Proof.
  intros names validation supported wanted. unfold create_instance.
  set (portability_available :=
         enable_portability build &&
         existsb (λ extension, String.eqb (extensionName extension)
                                 VK_KHR_PORTABILITY_ENUMERATION_EXTENSION_NAME) available).
  set (active := ((required ++ _) ++ _) ++ _).
  assert (Hport : portability_available = true ↔
                  enable_portability build = true ∧
                  VK_KHR_PORTABILITY_ENUMERATION_EXTENSION_NAME ∈ names).
  { unfold portability_available. rewrite andb_true_iff.
    now rewrite (existsb_name extensionName). }
  assert (Hlayer : supported = true ↔ validation ∈ layers).
  { unfold supported. rewrite (existsb_name (λ lp : string, lp)).
    now rewrite list_fmap_id. }
  assert (Hrequired : ∀ extension, extension ∈ required → extension ∈ active).
  { intros extension Hin. unfold active. rewrite <- !app_assoc.
    apply elem_of_app. now left. }
  assert (Hplatform : platform_surface_extension (platform build) ∈ active).
  { unfold active. apply elem_of_app. right. left. }
  assert (Hdebug : debug_or_validation build = true →
                   VK_EXT_DEBUG_UTILS_EXTENSION_NAME ∈ active).
  { intros Hbuild. unfold active. rewrite Hbuild, !elem_of_app.
    left. left. right. left. }
  assert (Hproperties : enable_portability build = true →
                        VK_KHR_GET_PHYSICAL_DEVICE_PROPERTIES_2_EXTENSION_NAME ∈ active).
  { intros Hbuild. unfold active. rewrite Hbuild, !elem_of_app.
    left. right. left. }
  destruct (validate_extensions active available) eqn:Hvalid; cbn [negb].
  - pose proof (proj1 (validate_extensions_true _ _) Hvalid) as Hactive.
    fold validation supported.
    destruct (needs_volk (platform build) && volk) eqn:Hvolk.
    + right. apply andb_true_iff in Hvolk as [Hneeds ->].
      split; [exact Hneeds |]. split; [reflexivity |]. split; [| reflexivity].
      intros extension [Hin | [-> | [[Hbuild ->] | [Hbuild ->]]]]; apply Hactive.
      * now apply Hrequired.
      * exact Hplatform.
      * now apply Hdebug.
      * now apply Hproperties.
    + cbn [instanceExtensionNames enumeratePortability pNext enabledLayerNames].
      split; [exact Hactive |].
      split; [exact Hrequired |].
      split; [exact Hplatform |].
      split; [exact Hdebug |].
      split; [exact Hproperties |].
      split; [exact Hport |].
      split.
      { intros Havail. unfold active. rewrite Havail.
        destruct (proj1 Hport Havail) as [-> _].
        apply elem_of_app. left. apply elem_of_app. right. right. left. }
      split; [reflexivity |]. split; [exact Hlayer |].
      split; [reflexivity |]. split; [reflexivity |].
      intros Hneeds. rewrite Hneeds in Hvolk. exact Hvolk.
  - left. split; [| reflexivity].
    apply validate_extensions_false in Hvalid as (extension & Hin & Hmissing).
    exists extension. split; [exact Hmissing |].
    unfold active in Hin. unfold wanted.
    apply elem_of_app in Hin as [Hin | Hin];
      [| apply list_elem_of_singleton in Hin; now right; left].
    apply elem_of_app in Hin as [Hin | Hin].
    + apply elem_of_app in Hin as [Hin | Hin]; [now left |].
      destruct (debug_or_validation build); [| now apply elem_of_nil in Hin].
      apply list_elem_of_singleton in Hin. right. right. left. now split.
    + destruct (enable_portability build) eqn:Hbuild; [| now apply elem_of_nil in Hin].
      apply elem_of_cons in Hin as [-> | Hin]; [right; right; right; now split |].
      exfalso. destruct portability_available eqn:Hav; [| now apply elem_of_nil in Hin].
      apply list_elem_of_singleton in Hin as ->.
      apply Hmissing. now apply Hport.
Qed.

(** X16. With [wanted] the extensions the instance cannot do without (a
    required one, the platform's surface extension, the debug-utils
    extension of a debug build, the physical-device-properties-2 extension
    of a portability build; never the portability-enumeration extension,
    which is only asked for when available): [create_instance] throws
    "Required instance extensions are missing." exactly when a wanted
    extension is not available, and "Failed to initialize volk." exactly
    when every wanted extension is available, the platform needs volk and
    its initialisation fails.  It throws nothing else.  When it returns,
    every extension the instance is created with is an available one, the
    wanted ones among them; the portability-enumeration flag is set exactly
    when the build enables portability and that extension is available, and
    then the extension is enabled; the layers are the required ones,
    followed by the Khronos validation layer exactly when the build is a
    debug build and the layer is supported; a debug build logs one line,
    telling which of the two happened, and chains the debug messenger create
    info. *)
Theorem create_instance_enables_available (build : Build)
    (available : list ExtensionProperties) (layers : list string) (volk : bool)
    (required required_layers : list string) :
  let names := extensionName <$> available in
  let validation := "VK_LAYER_KHRONOS_validation"%string in
  let supported := existsb (λ lp, String.eqb lp validation) layers in
  let wanted := λ extension,
    extension ∈ required ∨
    extension = platform_surface_extension (platform build) ∨
    (debug_or_validation build = true ∧
     extension = VK_EXT_DEBUG_UTILS_EXTENSION_NAME) ∨
    (enable_portability build = true ∧
     extension = VK_KHR_GET_PHYSICAL_DEVICE_PROPERTIES_2_EXTENSION_NAME) in
  let outcome :=
    create_instance build available layers volk required required_layers in
  (outcome = Thrown "Required instance extensions are missing." ↔
   ∃ extension, (extension ∉ names) ∧ wanted extension) ∧
  (outcome = Thrown "Failed to initialize volk." ↔
   (∀ extension, wanted extension → extension ∈ names) ∧
   needs_volk (platform build) = true ∧ volk = true) ∧
  match outcome with
  | Thrown message =>
      ((∃ extension, (extension ∉ names) ∧ wanted extension) ∧
       message = "Required instance extensions are missing."%string) ∨
      (needs_volk (platform build) = true ∧ volk = true ∧
       (∀ extension, wanted extension → extension ∈ names) ∧
       message = "Failed to initialize volk."%string)
  | Returned (info, log) =>
      (∀ extension, extension ∈ instanceExtensionNames info → extension ∈ names) ∧
      (∀ extension, extension ∈ required → extension ∈ instanceExtensionNames info) ∧
      platform_surface_extension (platform build) ∈ instanceExtensionNames info ∧
      (debug_or_validation build = true →
       VK_EXT_DEBUG_UTILS_EXTENSION_NAME ∈ instanceExtensionNames info) ∧
      (enable_portability build = true →
       VK_KHR_GET_PHYSICAL_DEVICE_PROPERTIES_2_EXTENSION_NAME
         ∈ instanceExtensionNames info) ∧
      (enumeratePortability info = true ↔
       enable_portability build = true ∧
       VK_KHR_PORTABILITY_ENUMERATION_EXTENSION_NAME ∈ names) ∧
      (enumeratePortability info = true →
       VK_KHR_PORTABILITY_ENUMERATION_EXTENSION_NAME ∈ instanceExtensionNames info) ∧
      pNext info = debug_or_validation build ∧
      (supported = true ↔ validation ∈ layers) ∧
      enabledLayerNames info =
        required_layers ++
        (if debug_or_validation build && supported then [validation] else []) ∧
      log =
        (if debug_or_validation build
         then if supported
              then [LogI_enabled_validation_layer validation]
              else [LogW_validation_layer_not_available validation]
         else []) ∧
      (needs_volk (platform build) = true → volk = false)
  end.
Proof.
  intros names validation supported wanted outcome.
  pose proof (create_instance_cases build available layers volk required required_layers)
    as Hcases.
  cbn zeta in Hcases. fold names validation supported wanted outcome in Hcases.
  split; [| split; [| exact Hcases]].
  - split.
    + intros Hthrown. rewrite Hthrown in Hcases.
      destruct Hcases as [[Hmissing _] | (_ & _ & _ & Hmessage)];
        [exact Hmissing | discriminate].
    + intros (extension & Hmissing & Hwanted).
      destruct outcome as [[info log] | message].
      * exfalso. apply Hmissing.
        destruct Hcases as (Hnames & Hrequired & Hplatform & Hdebug & Hproperties & _).
        apply Hnames.
        destruct Hwanted as [Hin | [-> | [[Hbuild ->] | [Hbuild ->]]]]; auto.
      * destruct Hcases as [[_ ->] | (_ & _ & Hall & _)]; [reflexivity |].
        exfalso. apply Hmissing, Hall, Hwanted.
  - split.
    + intros Hthrown. rewrite Hthrown in Hcases.
      destruct Hcases as [[_ Hmessage] | (Hneeds & Hvolk & Hall & _)];
        [discriminate | now split].
    + intros (Hall & Hneeds & Hvolk).
      destruct outcome as [[info log] | message].
      * destruct Hcases as (_ & _ & _ & _ & _ & _ & _ & _ & _ & _ & _ & Hfalse).
        rewrite (Hfalse Hneeds) in Hvolk. discriminate.
      * destruct Hcases as [[(extension & Hmissing & Hwanted) _] | (_ & _ & _ & ->)];
          [| reflexivity].
        exfalso. apply Hmissing, Hall, Hwanted.
Qed.

(** ** Selecting the physical device *)

Lemma find_queue_family_spec g families : ∀ j0 before,
  getQueueFamilyProperties g = before ++ families →
  N.to_nat j0 = length before →
  let r := find_queue_family g (create_surface g) families j0 in
  surfaces_created r.1 = [] ∧
  surfaces_destroyed r.1 = [] ∧
  Forall (λ c, is_log c = false) r.1 ∧
  match r.2 with
  | Some j =>
      suitable g j = true ∧
      (∀ j', (j0 ≤ j')%N → (j' < j)%N → suitable g j' = false)
  | None => ∀ j', (j0 ≤ j')%N → suitable g j' = false
  end.
Proof.
  induction families as [|q families IH]; intros j0 before Hall Hj0; cbn zeta.
  - cbn. repeat split; [constructor |].
    intros j' Hle. unfold suitable. rewrite Hall, app_nil_r.
    rewrite lookup_ge_None_2; [reflexivity | lia].
  - assert (Hq : getQueueFamilyProperties g !! N.to_nat j0 = Some q).
    { rewrite Hall, Hj0. apply list_lookup_middle. reflexivity. }
    assert (Hs : suitable g j0 =
                 has_flag (queueFlags q) QueueFlagBits_eGraphics &&
                 getSurfaceSupportKHR g j0 (create_surface g)).
    { unfold suitable. now rewrite Hq. }
    cbn [find_queue_family].
    destruct (has_flag (queueFlags q) QueueFlagBits_eGraphics &&
              getSurfaceSupportKHR g j0 (create_surface g)) eqn:Hcond; cbn [fst snd].
    + repeat split; [repeat constructor | exact Hs | intros; lia].
    + destruct (IH (j0 + 1)%N (before ++ [q])) as (Hc & Hd & Hl & Hr).
      { now rewrite <- app_assoc. }
      { rewrite length_app. cbn. lia. }
      cbn zeta in Hr.
      split; [exact Hc |]. split; [exact Hd |]. split; [now constructor |].
      destruct (find_queue_family g (create_surface g) families (j0 + 1)).2 as [j|].
      * destruct Hr as [Hj Hbelow]. split; [exact Hj |].
        intros j' Hle Hlt. destruct (decide (j' = j0)) as [-> | Hne]; [exact Hs |].
        apply Hbelow; lia.
      * intros j' Hle. destruct (decide (j' = j0)) as [-> | Hne]; [exact Hs |].
        apply Hr; lia.
Qed.

Lemma last_cons_default {A} (x : A) (l : list A) :
  last (x :: l) = Some (default x (last l)).
Proof.
  revert x. induction l as [|y l IH]; intros x; [reflexivity |].
  change (last (x :: y :: l)) with (last (y :: l)). now rewrite IH.
Qed.

Lemma removelast_app_cons {A} (l : list A) (x : A) (l' : list A) :
  removelast (l ++ x :: l') = l ++ removelast (x :: l').
Proof. apply removelast_app. discriminate. Qed.

Lemma select_among_returned gpus : ∀ a log found a' log',
  select_among gpus a log = Returned (found, a', log') →
  ∃ d skipped,
    log' = log ++ d ∧
    Forall (λ c, is_log c = false) d ∧
    surfaces_destroyed d =
      removelast ((if is_set (surface a) then [surface a] else []) ++ surfaces_created d) ∧
    surface a' = default (surface a) (last (surfaces_created d)) ∧
    Forall passed_over skipped ∧
    if found then
      ∃ g rest,
        gpus = skipped ++ g :: rest ∧
        suitable g (graphics_queue_index a') = true ∧
        (∀ j, (j < graphics_queue_index a')%N → suitable g j = false) ∧
        gpu a' = physical_device g ∧
        surface a' = create_surface g
    else
      gpus = skipped ∧
      graphics_queue_index a' = graphics_queue_index a ∧
      gpu a' = default (gpu a) (last (physical_device <$> gpus)).
Proof.
  induction gpus as [|g gpus IH]; intros a log found a' log' Hrun; cbn in Hrun.
  - injection Hrun as <- <- <-. exists [], []. rewrite app_nil_r.
    split; [reflexivity |]. split; [constructor |].
    split; [now destruct (is_set (surface a)) |].
    split; [reflexivity |]. split; [constructor |]. now repeat split.
  - destruct (getQueueFamilyProperties g) as [|q families] eqn:Hfam; [discriminate |].
    destruct (is_set (create_surface g)) eqn:Hsurf; cbn [negb] in Hrun; [| discriminate].
    destruct (find_queue_family_spec g (q :: families) 0%N []) as (Hc & Hd & Hl & Hr);
      [exact Hfam | reflexivity |].
    cbn zeta in Hr.
    set (r := find_queue_family g (create_surface g) (q :: families) 0) in *.
    set (destroy := if is_set (surface a) then [DestroySurfaceKHR (surface a)] else []) in *.
    assert (Hdestroy : surfaces_destroyed destroy =
                         (if is_set (surface a) then [surface a] else []) ∧
                       surfaces_created destroy = [] ∧
                       Forall (λ c, is_log c = false) destroy).
    { subst destroy. destruct (is_set (surface a)); repeat split; repeat constructor. }
    destruct Hdestroy as (Hdd & Hdc & Hdl).
    destruct r.2 as [j|] eqn:Hfound.
    + injection Hrun as <- <- <-. destruct Hr as [Hj Hbelow].
      exists (destroy ++ [CreateSurface (physical_device g) (create_surface g)] ++ r.1), [].
      split; [now rewrite <- !app_assoc |].
      split; [apply Forall_app; split; [exact Hdl | now constructor] |].
      unfold surfaces_destroyed, surfaces_created in *.
      rewrite !omap_app, Hd, Hc, Hdd, Hdc. cbn.
      split; [now rewrite app_nil_r, removelast_last |].
      split; [reflexivity |]. split; [constructor |].
      exists g, gpus. split; [reflexivity |]. split; [exact Hj |].
      split; [intros j' Hlt; apply Hbelow; lia | now split].
    + apply IH in Hrun as (d & skipped & -> & Hlog & Hdes & Hsurface & Hpassed & Hcase).
      cbn [surface set_surface set_gpu] in Hdes, Hsurface. rewrite Hsurf in Hdes.
      exists (destroy ++ [CreateSurface (physical_device g) (create_surface g)] ++ r.1 ++ d),
        (g :: skipped).
      split; [now rewrite <- !app_assoc |].
      split.
      { apply Forall_app; split; [exact Hdl |]. constructor; [reflexivity |].
        apply Forall_app; now split. }
      unfold surfaces_destroyed, surfaces_created in *.
      rewrite !omap_app, Hd, Hc, Hdd, Hdc. cbn [omap list_omap Datatypes.app].
      cbn [Datatypes.app] in Hdes.
      split; [now rewrite Hdes, removelast_app_cons |].
      split; [now rewrite last_cons_default, Hsurface |].
      split.
      { constructor; [| exact Hpassed]. split; [now rewrite Hfam |].
        split; [exact Hsurf |]. intros j'. apply Hr. lia. }
      destruct found.
      * destruct Hcase as (g' & rest & -> & Hcase). exists g', rest.
        split; [reflexivity | exact Hcase].
      * destruct Hcase as (-> & Hindex & Hgpu). split; [reflexivity |].
        split; [exact Hindex |].
        cbn [fmap list_fmap]. rewrite last_cons_default. cbn [default].
        rewrite Hgpu. cbn [gpu set_surface set_gpu]. reflexivity.
Qed.

Lemma select_among_thrown gpus : ∀ a log message,
  select_among gpus a log = Thrown message →
  ∃ skipped g rest,
    gpus = skipped ++ g :: rest ∧
    Forall passed_over skipped ∧
    ((getQueueFamilyProperties g = [] ∧
      message = "No queue family found."%string) ∨
     (getQueueFamilyProperties g ≠ [] ∧
      is_set (create_surface g) = false ∧
      message = "Failed to create window surface."%string)).
Proof.
  induction gpus as [|g gpus IH]; intros a log message Hrun; cbn in Hrun;
    [discriminate |].
  destruct (getQueueFamilyProperties g) as [|q families] eqn:Hfam.
  { injection Hrun as <-. exists [], g, gpus.
    split; [reflexivity |]. split; [constructor |]. left. now split. }
  destruct (is_set (create_surface g)) eqn:Hsurf; cbn [negb] in Hrun.
  2:{ injection Hrun as <-. exists [], g, gpus.
      split; [reflexivity |]. split; [constructor |]. right.
      rewrite Hfam. now repeat split. }
  destruct (find_queue_family_spec g (q :: families) 0%N []) as (_ & _ & _ & Hr);
    [exact Hfam | reflexivity |].
  cbn zeta in Hr.
  destruct (find_queue_family g (create_surface g) (q :: families) 0).2 as [j|];
    [discriminate |].
  apply IH in Hrun as (skipped & g' & rest & -> & Hpassed & Hcase).
  exists (g :: skipped), g', rest. split; [reflexivity |].
  split; [| exact Hcase].
  constructor; [| exact Hpassed]. split; [now rewrite Hfam |].
  split; [exact Hsurf |]. intros j'. apply Hr. lia.
Qed.

(** X17. When [select_physical_device_and_surface] returns, either it
    stopped at the first device that has a queue family supporting graphics
    and presentation to the device's surface, every device before it having
    been passed over: the sample then holds that device, its surface, and
    the lowest such family, an index below the number of the device's
    families, and nothing is logged; or no device qualifies: the error is
    logged last, the queue family index is what it was, and the sample
    holds the last device enumerated (the old one when none is). *)
Theorem select_physical_device_first_suitable (gpus : list PhysicalDevice)
    (a a' : HPPHelloTriangle) (log : list LifetimeCall) :
  select_physical_device_and_surface gpus a = Returned (a', log) →
  (∃ skipped g rest,
     gpus = skipped ++ g :: rest ∧
     Forall passed_over skipped ∧
     suitable g (graphics_queue_index a') = true ∧
     (∀ j, (j < graphics_queue_index a')%N → suitable g j = false) ∧
     N.to_nat (graphics_queue_index a') < length (getQueueFamilyProperties g) ∧
     gpu a' = physical_device g ∧
     surface a' = create_surface g ∧
     Forall (λ c, is_log c = false) log) ∨
  (Forall passed_over gpus ∧
   graphics_queue_index a' = graphics_queue_index a ∧
   gpu a' = default (gpu a) (last (physical_device <$> gpus)) ∧
   last log =
     Some (LogE "Did not find suitable queue which supports graphics and presentation.")).
Proof.
  unfold select_physical_device_and_surface. intros Hrun.
  destruct (select_among gpus a []) as [[[found a1] log1] | message] eqn:Hsel;
    [| discriminate].
  injection Hrun as <- <-.
  apply select_among_returned in Hsel
    as (d & skipped & -> & Hlog & _ & _ & Hpassed & Hcase).
  destruct found; cbn [negb].
  - left. destruct Hcase as (g & rest & -> & Hj & Hbelow & Hgpu & Hsurface).
    exists skipped, g, rest. split; [reflexivity |]. split; [exact Hpassed |].
    split; [exact Hj |]. split; [exact Hbelow |].
    split.
    { unfold suitable in Hj. apply lookup_lt_is_Some.
      destruct (getQueueFamilyProperties g !! _); [eauto | discriminate]. }
    split; [exact Hgpu |]. split; [exact Hsurface |].
    now rewrite app_nil_r.
  - right. destruct Hcase as (-> & Hindex & Hgpu).
    split; [exact Hpassed |]. split; [exact Hindex |]. split; [exact Hgpu |].
    cbn [Datatypes.app]. apply last_snoc.
Qed.

(** X18. The surfaces [select_physical_device_and_surface] destroys are,
    in order, the surface held at entry, when there is one, and every
    surface it created except the last; the surface the sample holds on
    return is the last one created (the one held at entry when none was):
    it is the only one left. *)
Theorem select_physical_device_surfaces (gpus : list PhysicalDevice)
    (a a' : HPPHelloTriangle) (log : list LifetimeCall) :
  select_physical_device_and_surface gpus a = Returned (a', log) →
  surfaces_destroyed log =
    removelast ((if is_set (surface a) then [surface a] else []) ++ surfaces_created log) ∧
  surface a' = default (surface a) (last (surfaces_created log)).
Proof.
  unfold select_physical_device_and_surface. intros Hrun.
  destruct (select_among gpus a []) as [[[found a1] log1] | message] eqn:Hsel;
    [| discriminate].
  injection Hrun as <- <-.
  apply select_among_returned in Hsel as (d & skipped & -> & _ & Hdes & Hsurface & _).
  unfold surfaces_destroyed, surfaces_created in *. cbn [Datatypes.app].
  rewrite !omap_app.
  replace (omap _ (if negb found then _ else _)) with (@nil N) by now destruct found.
  replace (omap _ (if negb found then _ else _)) with (@nil N) by now destruct found.
  rewrite !app_nil_r. now split.
Qed.

(** X19. When [select_physical_device_and_surface] throws, it met, after
    devices it passed over, a device without any queue family ("No queue
    family found.") or a device for which no surface could be created
    ("Failed to create window surface."). *)
Theorem select_physical_device_throws (gpus : list PhysicalDevice)
    (a : HPPHelloTriangle) (message : string) :
  select_physical_device_and_surface gpus a = Thrown message →
  ∃ skipped g rest,
    gpus = skipped ++ g :: rest ∧
    Forall passed_over skipped ∧
    ((getQueueFamilyProperties g = [] ∧
      message = "No queue family found."%string) ∨
     (getQueueFamilyProperties g ≠ [] ∧
      is_set (create_surface g) = false ∧
      message = "Failed to create window surface."%string)).
Proof.
  unfold select_physical_device_and_surface. intros Hrun.
  destruct (select_among gpus a []) as [[[found a1] log1] | message'] eqn:Hsel;
    [discriminate |].
  injection Hrun as <-. exact (select_among_thrown gpus a [] message' Hsel).
Qed.

(** ** The destructor *)

Lemma frame_step_run (m : M unit) s a' d :
  m {| app := members s; calls := [] |} = Some (tt, {| app := a'; calls := d |}) →
  frame_step m s =
    Some (tt, {| members := a'; bootstrap := bootstrap s;
                 issued := issued s ++ (Frame <$> d) |}).
Proof. unfold frame_step. now intros ->. Qed.

Lemma L_bind_run {A B} (m : L A) (f : A → L B) s a s1 :
  m s = Some (a, s1) → (m ≫= f) s = f a s1.
Proof. unfold mbind, L_bind. now intros ->. Qed.

Lemma when_set_run h c a b l :
  when_set h c {| members := a; bootstrap := b; issued := l |} =
    Some (tt, {| members := a; bootstrap := b; issued := l ++ if_set_then h c |}).
Proof.
  unfold when_set, if_set_then. destruct (is_set h); cbn; [reflexivity |].
  now rewrite app_nil_r.
Qed.

Lemma destructor_run (s : Lifetime) :
  let a := members s in
  let b := bootstrap s in
  ∃ s1,
    destructor s = Some (tt, s1) ∧
    issued s1 =
      issued s ++
      (Frame <$> [DeviceWaitIdle; QueueWaitIdle] ++
                 (DestroyFramebuffer <$> framebuffers (swapchain_data a)) ++
                 concat (teardown_calls <$> per_frame_data a) ++
                 (DestroySemaphore <$> recycled_semaphores a)) ++
      if_set_then (pipeline a) (DestroyPipeline (pipeline a)) ++
      if_set_then (pipeline_layout b) (DestroyPipelineLayout (pipeline_layout b)) ++
      if_set_then (render_pass a) (DestroyRenderPass (render_pass a)) ++
      (Frame <$> (DestroyImageView <$> image_views (swapchain_data a)) ++
                 if_set (swapchain (swapchain_data a))
                   (DestroySwapchainKHR (swapchain (swapchain_data a)))) ++
      if_set_then (surface a) (DestroySurfaceKHR (surface a)) ++
      if_set_then (device a) (DestroyDevice (device a)) ++
      if_set_then (debug_utils_messenger b)
        (DestroyDebugUtilsMessengerEXT (debug_utils_messenger b)) ++
      [DestroyInstance (instance b)] ∧
    members s1 =
      set_per_frame_data []
        (set_swapchain_data (set_framebuffers [] (swapchain_data a)) a) ∧
    bootstrap s1 = b.
Proof.
  destruct s as [a b l]. cbn zeta. cbn [members bootstrap issued].
  unfold destructor.
  erewrite L_bind_run by (apply frame_step_run; apply emit_run).
  erewrite L_bind_run by (apply frame_step_run; apply teardown_framebuffers_run).
  cbn [members bootstrap issued].
  set (a1 := set_swapchain_data (set_framebuffers [] (swapchain_data a)) a).
  destruct (teardown_frames_run (length (per_frame_data a1)) 0 a1 [])
    as (slots & Hslots & _); [lia |].
  erewrite L_bind_run.
  2:{ apply frame_step_run. cbn [members]. erewrite bind_run by apply this_run.
      exact Hslots. }
  erewrite L_bind_run by (apply frame_step_run; apply modify_run).
  erewrite L_bind_run.
  2:{ apply frame_step_run. cbn [members]. erewrite bind_run by apply this_run.
      apply for_each_emit. }
  cbn [members bootstrap issued].
  erewrite (L_bind_run sample) by reflexivity.
  erewrite (L_bind_run boot) by reflexivity.
  do 3 (erewrite L_bind_run by apply when_set_run).
  erewrite L_bind_run by (apply frame_step_run; apply for_each_emit).
  cbn [members bootstrap issued].
  do 4 (erewrite L_bind_run by apply when_set_run).
  eexists. split; [reflexivity |]. cbn [members bootstrap issued].
  split; [| now split].
  cbn [per_frame_data set_per_frame_data recycled_semaphores pipeline render_pass
       swapchain_data image_views set_swapchain_data set_framebuffers swapchain
       surface device a1].
  rewrite drop_0, firstn_all.
  unfold if_set_then at 4. unfold if_set.
  destruct (is_set (swapchain (swapchain_data a)));
    rewrite !fmap_app; cbn [fmap list_fmap Datatypes.app];
    repeat rewrite <- app_assoc; cbn [Datatypes.app]; rewrite ?app_nil_r; reflexivity.
Qed.

(** X20. The destructor always runs to its end.  It waits for the device
    to be idle, then for the queue, and destroys in this order: every
    framebuffer; the objects of every frame slot; every pooled semaphore;
    the pipeline, the pipeline layout and the render pass; every image
    view; the swapchain; the surface; the device; the debug messenger; and
    last the instance.  Each of the single objects is destroyed only when
    its handle is not null, the instance always.  The slots and the
    framebuffers are emptied; the other members keep their handles. *)
Theorem destructor_trace (s : Lifetime) :
  let a := members s in
  let b := bootstrap s in
  ∃ s1,
    destructor s = Some (tt, s1) ∧
    issued s1 =
      issued s ++
      (Frame <$> [DeviceWaitIdle; QueueWaitIdle] ++
                 (DestroyFramebuffer <$> framebuffers (swapchain_data a)) ++
                 concat (teardown_calls <$> per_frame_data a) ++
                 (DestroySemaphore <$> recycled_semaphores a)) ++
      if_set_then (pipeline a) (DestroyPipeline (pipeline a)) ++
      if_set_then (pipeline_layout b) (DestroyPipelineLayout (pipeline_layout b)) ++
      if_set_then (render_pass a) (DestroyRenderPass (render_pass a)) ++
      (Frame <$> (DestroyImageView <$> image_views (swapchain_data a)) ++
                 if_set (swapchain (swapchain_data a))
                   (DestroySwapchainKHR (swapchain (swapchain_data a)))) ++
      if_set_then (surface a) (DestroySurfaceKHR (surface a)) ++
      if_set_then (device a) (DestroyDevice (device a)) ++
      if_set_then (debug_utils_messenger b)
        (DestroyDebugUtilsMessengerEXT (debug_utils_messenger b)) ++
      [DestroyInstance (instance b)] ∧
    members s1 =
      set_per_frame_data []
        (set_swapchain_data (set_framebuffers [] (swapchain_data a)) a) ∧
    bootstrap s1 = b.
Proof. exact (destructor_run s). Qed.

(** ** From the first build to the destructor *)

Section Balance.

Context (drv : Driver).

Lemma created_creation_calls {A} (mk : A → Handle → Call) (l : list A) :
  (∀ x h, created_handle (mk x h) = Some h) →
  ∀ c, omap created_handle (creation_calls drv mk l c) = created drv mk l c.
Proof.
  intros Hmk. unfold creation_calls.
  induction l as [|x l IH]; intros c; cbn; [reflexivity |].
  now rewrite Hmk, IH.
Qed.

Lemma fresh_slots_balance queue_family n :
  (∀ tr, drv_new_handle drv tr ≠ VK_NULL_HANDLE) →
  ∀ c,
    omap destroyed_handle
      (concat (teardown_calls <$> (fresh_slots drv queue_family n c).1)) ≡ₚ
    omap created_handle (fresh_slots drv queue_family n c).2.
Proof.
  intros Hlive.
  assert (Hset : ∀ tr, is_set (drv_new_handle drv tr) = true).
  { intros tr. unfold is_set. apply negb_true_iff, N.eqb_neq, Hlive. }
  induction n as [|n IH]; intros c; [reflexivity |].
  cbn [fresh_slots fst snd fmap list_fmap concat].
  rewrite !omap_app, IH. apply Permutation_app; [| reflexivity].
  unfold fresh_slot, teardown_calls, if_set.
  cbn [fst snd queue_submit_fence primary_command_pool primary_command_buffer
       swapchain_acquire_semaphore swapchain_release_semaphore].
  rewrite !Hset. cbn. apply perm_skip, perm_swap.
Qed.

Lemma frame_calls_Frame (l : list Call) : frame_calls (Frame <$> l) = l.
Proof.
  unfold frame_calls. induction l as [|c l IH]; cbn; [reflexivity | now f_equal].
Qed.

Lemma frame_calls_app l1 l2 : frame_calls (l1 ++ l2) = frame_calls l1 ++ frame_calls l2.
Proof. apply omap_app. Qed.

Lemma frame_calls_if_set_then h c :
  (∀ c', c ≠ Frame c') → frame_calls (if_set_then h c) = [].
Proof.
  intros Hc. unfold if_set_then. destruct (is_set h); [| reflexivity].
  destruct c as [c' | | | | | | | | | |]; try reflexivity. now destruct (Hc c').
Qed.

Lemma destroyed_fmap (g : Handle → Call) (l : list Handle) :
  (∀ h, destroyed_handle (g h) = Some h) → omap destroyed_handle (g <$> l) = l.
Proof.
  intros Hg. induction l as [|h l IH]; cbn; [reflexivity | now rewrite Hg, IH].
Qed.

(** X21. Nothing of the first build is left behind.  Starting without
    swapchain, image views, framebuffers and pooled semaphores, with a
    driver that never hands out a null handle: after [init_swapchain] and
    [init_framebuffers], the destructor destroys or frees every handle
    those two created (the swapchain, and per image a fence, a command
    pool, a command buffer, an image view and a framebuffer), each once,
    and no other handle of the frame cycle. *)
Theorem first_build_released (w : World) (b : Bootstrap) :
  (∀ tr, drv_new_handle drv tr ≠ VK_NULL_HANDLE) →
  swapchain (swapchain_data (app w)) = VK_NULL_HANDLE →
  image_views (swapchain_data (app w)) = [] →
  framebuffers (swapchain_data (app w)) = [] →
  recycled_semaphores (app w) = [] →
  ∃ w1 w2 s,
    init_swapchain drv w = Some (tt, w1) ∧
    init_framebuffers drv w1 = Some (tt, w2) ∧
    destructor {| members := app w2; bootstrap := b; issued := [] |} = Some (tt, s) ∧
    omap destroyed_handle (frame_calls (issued s)) ≡ₚ
    omap created_handle (drop (length (calls w)) (calls w2)).
Proof.
  intros Hlive Hnull Hviews Hfbs Hpool. destruct w as [a c]. cbn [app calls] in *.
  assert (Hunset : is_set (swapchain (swapchain_data a)) = false) by now rewrite Hnull.
  destruct (init_swapchain_exact drv a c)
    as (fmt & caps2 & info & h & retired & images & w1 & Hrun1 & H); cbn zeta in *.
  { intros Hset. cbn in Hset. congruence. }
  destruct H as (_ & _ & Hret & _ & _ & Hcalls1 & Hslots & Hviews1 & Hh & _ & _ & Hfbs1 &
                 Hpool1 & _ & Hnew & _).
  specialize (Hret Hunset). subst retired.
  rewrite Hunset, Hviews in Hviews1.
  rewrite Hfbs in Hfbs1. rewrite Hpool in Hpool1.
  assert (Hset : is_set h = true).
  { rewrite Hnew. unfold is_set. apply negb_true_iff, N.eqb_neq, Hlive. }
  clear Hnew.
  cbn [Datatypes.app] in Hcalls1, Hslots, Hviews1.
  match type of Hslots with
  | _ = (fresh_slots drv ?q ?n ?c') .1 =>
      set (c2 := c') in *;
      pose proof (fresh_slots_balance q n Hlive c2) as Hbalance;
      set (slots := fresh_slots drv q n c2) in *
  end.
  set (c3 := c2 ++ slots.2) in *.
  match type of Hviews1 with
  | _ = created drv ?mk images c3 =>
      pose proof (created_creation_calls mk images (λ _ _, eq_refl) c3) as Hcreated;
      assert (Hdrop : drop (length c) (calls w1) =
                [GetSurfaceCapabilitiesKHR (gpu a) (surface a)
                   (drv_surface_capabilities drv c);
                 SelectSurfaceFormat (gpu a) (surface a) fmt;
                 GetSurfaceCapabilitiesKHR (gpu a) (surface a) caps2;
                 CreateSwapchainKHR info h;
                 GetSwapchainImagesKHR h images] ++
                slots.2 ++ creation_calls drv mk images c3)
        by (rewrite Hcalls1; unfold c3 at 1; unfold c2 at 1;
            repeat rewrite <- app_assoc; now rewrite drop_calls);
      set (views := created drv mk images c3) in *;
      set (view_calls := creation_calls drv mk images c3) in *
  end.
  clear Hcalls1.
  destruct w1 as [a1 c1]. cbn [app calls] in *.
  pose proof (init_framebuffers_run drv a1 c1 Hfbs1) as Hrun2. cbn zeta in Hrun2.
  match type of Hrun2 with
  | _ = Some (_, ?w2) =>
      destruct (destructor_run {| members := app w2; bootstrap := b; issued := [] |})
        as (s & Hrun3 & Htrace & _);
      exists {| app := a1; calls := c1 |}, w2, s
  end.
  split; [exact Hrun1 |]. split; [exact Hrun2 |]. split; [exact Hrun3 |].
  rewrite Htrace. clear Htrace Hrun3 Hrun2 Hrun1.
  cbn [members bootstrap issued app calls framebuffers swapchain_data
       set_swapchain_data set_framebuffers per_frame_data recycled_semaphores
       image_views swapchain pipeline render_pass surface device Datatypes.app].
  rewrite !frame_calls_app, !frame_calls_Frame.
  rewrite !frame_calls_if_set_then by discriminate.
  change (frame_calls [DestroyInstance (instance b)]) with (@nil Call).
  rewrite Hpool1, Hh, Hviews1, Hslots. unfold if_set. rewrite Hset.
  cbn [Datatypes.app fmap list_fmap]. rewrite !app_nil_r.
  match goal with
  | |- context [creation_calls drv ?mk views c1] =>
      pose proof (created_creation_calls mk views (λ _ _, eq_refl) c1) as Hcreated2;
      set (fbs := created drv mk views c1) in *;
      set (fb_calls := creation_calls drv mk views c1) in *
  end.
  assert (Hdrop2 : drop (length c) (c1 ++ fb_calls) = drop (length c) c1 ++ fb_calls).
  { apply drop_app_le. apply (f_equal length) in Hdrop.
    rewrite length_drop in Hdrop. cbn in Hdrop. lia. }
  rewrite Hdrop2, Hdrop. clear Hdrop2 Hdrop.
  rewrite !omap_app, Hcreated, Hcreated2, <- Hbalance.
  change (omap destroyed_handle (DeviceWaitIdle :: QueueWaitIdle :: ?l))
    with (omap destroyed_handle l).
  rewrite !omap_app, !destroyed_fmap by reflexivity.
  cbn [omap list_omap created_handle destroyed_handle Datatypes.app].
  generalize (omap destroyed_handle (concat (teardown_calls <$> slots.1))).
  intros torn_down. solve_Permutation.
Qed.

Lemma live_single h : live [h] = if is_set h then [h] else [].
Proof.
  unfold live, is_set. cbn. destruct (N.eqb_spec h VK_NULL_HANDLE) as [-> | Hne].
  - reflexivity.
  - cbn. unfold filter, list_filter. destruct (decide (h ≠ VK_NULL_HANDLE)); [reflexivity |].
    contradiction.
Qed.

Lemma destroyed_teardown_calls pfd :
  omap destroyed_handle (teardown_calls pfd) = slot_handles pfd.
Proof.
  unfold slot_handles, teardown_calls, if_set.
  rewrite (live_cons (queue_submit_fence pfd)), (live_cons (primary_command_buffer pfd)),
    (live_cons (primary_command_pool pfd)), (live_cons (swapchain_acquire_semaphore pfd)).
  rewrite !live_single, !omap_app.
  destruct (is_set (queue_submit_fence pfd)), (is_set (primary_command_buffer pfd)),
    (is_set (primary_command_pool pfd)), (is_set (swapchain_acquire_semaphore pfd)),
    (is_set (swapchain_release_semaphore pfd)); reflexivity.
Qed.

Lemma destroyed_teardown_frames (slots : list FrameData) :
  omap destroyed_handle (concat (teardown_calls <$> slots)) =
  concat (slot_handles <$> slots).
Proof.
  induction slots as [|pfd slots IH]; cbn; [reflexivity |].
  now rewrite omap_app, destroyed_teardown_calls, IH.
Qed.

Lemma destroyed_none (l : list Call) :
  count is_destruction l = 0 → omap destroyed_handle l = [].
Proof.
  induction l as [|c l IH]; cbn; [reflexivity |].
  destruct c; cbn; intros H; try discriminate; now apply IH.
Qed.

(** X22. Nothing of the old swapchain is left behind by a rebuild.  When
    [resize] rebuilds a swapchain whose images number the frame slots, the
    handles it destroys or frees are, in this order and each once: every
    framebuffer, every image view, what each frame slot holds (fence,
    command buffer, command pool, acquire and release semaphore, those
    present), and the old swapchain.  The semaphores of the pool are not
    among them: the pool is as it was. *)
Theorem resize_rebuild_releases (x y : N) (w : World) :
  let a := app w in
  let old := swapchain (swapchain_data a) in
  extent_changed drv w = true →
  is_set old = true →
  (∀ tr, length (drv_swapchain_images drv tr old) = length (per_frame_data a)) →
  ∃ w1,
    resize drv x y w = Some (true, w1) ∧
    omap destroyed_handle (drop (length (calls w)) (calls w1)) =
      framebuffers (swapchain_data a) ++
      image_views (swapchain_data a) ++
      concat (slot_handles <$> per_frame_data a) ++
      [old] ∧
    recycled_semaphores (app w1) = recycled_semaphores a.
Proof.
  intros a old Hchanged Hset Hexact. destruct w as [a' c]. cbn [app calls] in *.
  subst a. unfold extent_changed in Hchanged. cbn [app calls] in Hchanged.
  apply andb_true_iff in Hchanged as [Hdev Hdiff].
  apply negb_true_iff, bool_decide_eq_false in Hdiff.
  unfold resize.
  erewrite bind_run by apply this_run. rewrite Hdev. cbn [negb].
  erewrite bind_run by apply getSurfaceCapabilitiesKHR_run.
  rewrite bool_decide_eq_false_2 by exact Hdiff.
  erewrite bind_run by apply emit_run.
  erewrite bind_run by apply teardown_framebuffers_run.
  match goal with |- context [(init_swapchain drv ≫= _) ?w0] =>
    destruct (init_swapchain_rebuild_calls drv w0)
      as (w1 & before & info & old_images & after & Hrun1 & Hcalls1 & _ & [tr Himages] &
          Hb & _ & Ha & _ & _ & Hfbs & Hpool)
  end.
  { exact Hset. }
  { intros _ tr. cbn. rewrite Hexact. reflexivity. }
  cbn [app calls swapchain_data set_swapchain_data set_framebuffers swapchain
       image_views per_frame_data framebuffers recycled_semaphores] in *.
  fold old in Hcalls1.
  erewrite bind_run by exact Hrun1.
  destruct w1 as [a1 c1]. cbn [app calls] in *.
  erewrite bind_run by (apply init_framebuffers_run; exact Hfbs).
  eexists. split; [reflexivity |]. cbn [app calls recycled_semaphores
    set_swapchain_data].
  split; [| exact Hpool].
  rewrite Hcalls1. repeat rewrite <- app_assoc. rewrite drop_calls.
  cbn [Datatypes.app].
  change (omap destroyed_handle (?x :: DeviceWaitIdle :: QueueWaitIdle :: ?l))
    with (omap destroyed_handle l).
  assert (Hall : take (length old_images) (per_frame_data a') = per_frame_data a').
  { apply take_ge. rewrite Himages, Hexact. reflexivity. }
  rewrite Hall.
  rewrite !omap_app. rewrite (destroyed_none before Hb).
  change (omap destroyed_handle (CreateSwapchainKHR ?i ?h :: ?l))
    with (omap destroyed_handle l).
  rewrite !omap_app.
  change (omap destroyed_handle (GetSwapchainImagesKHR ?h ?i :: ?l))
    with (omap destroyed_handle l).
  rewrite !omap_app.
  change (omap destroyed_handle (DestroySwapchainKHR ?h :: ?l))
    with (h :: omap destroyed_handle l).
  rewrite !omap_app, (destroyed_none after Ha), destroyed_teardown_frames.
  rewrite !destroyed_fmap by reflexivity.
  rewrite (destroyed_none (creation_calls _ _ _ _))
    by (apply count_creation_calls; reflexivity).
  cbn [Datatypes.app]. reflexivity.
Qed.

End Balance.

(** * The further properties on concrete frames *)

Local Open Scope N_scope.

(** Instance for X2: the first acquire is answered "not ready". *)
Lemma update_drops_frame_witness :
  (drv_acquire not_ready_driver (history_at_acquire not_ready_driver first_frame)).1
    ≠ eSuccess ∧
  stale (drv_acquire not_ready_driver (history_at_acquire not_ready_driver first_frame)).1
    = false ∧
  ∃ w1,
    update not_ready_driver first_frame = Some (tt, w1) ∧
    calls w1 = [CreateSemaphore 100;
                AcquireNextImageKHR 5 UINT64_MAX 100 eNotReady 0;
                QueueWaitIdle] ∧
    per_frame_data (app w1) = per_frame_data prepared_sample.
Proof.
  assert (H1 : (drv_acquire not_ready_driver
                  (history_at_acquire not_ready_driver first_frame)).1 ≠ eSuccess)
    by (vm_compute; discriminate).
  assert (H2 : stale (drv_acquire not_ready_driver
                        (history_at_acquire not_ready_driver first_frame)).1 = false)
    by reflexivity.
  split; [exact H1 |]. split; [exact H2 |].
  pose proof (update_drops_frame not_ready_driver first_frame H1 H2) as H.
  cbv zeta in H. destruct H as (w1 & Hrun & Hcalls & Hslots & _).
  exists w1. split; [exact Hrun |]. split; [exact Hcalls | exact Hslots].
Defined.

(** Instance for X4: slot 1 of the first frame is rendered twice. *)
Lemma render_triangle_release_semaphore_witness :
  framebuffers (swapchain_data (app first_frame)) !! N.to_nat 1 = Some 32 ∧
  per_frame_data (app first_frame) !! N.to_nat 1 = Some (slot 1) ∧
  ∃ w1 w2,
    render_triangle steady_driver 1 first_frame = Some (tt, w1) ∧
    render_triangle steady_driver 1 w1 = Some (tt, w2) ∧
    count is_semaphore_creation (calls w1) = 1%nat ∧
    count is_semaphore_creation (calls w2) = 1%nat.
Proof.
  assert (H1 : framebuffers (swapchain_data (app first_frame)) !! N.to_nat 1 = Some 32)
    by reflexivity.
  assert (H2 : per_frame_data (app first_frame) !! N.to_nat 1 = Some (slot 1))
    by reflexivity.
  split; [exact H1 |]. split; [exact H2 |].
  pose proof (render_triangle_release_semaphore steady_driver 1 first_frame 32 (slot 1)
                H1 H2) as H.
  cbv zeta in H. destruct H as (w1 & Hrun1 & Hcalls1 & _ & _ & _ & Hagain).
  destruct Hagain as (w2 & Hrun2 & Hcalls2 & _); [reflexivity |].
  exists w1, w2. split; [exact Hrun1 |]. split; [exact Hrun2 |].
  rewrite Hcalls2, Hcalls1. split; reflexivity.
Defined.

(** Instance for X5: the first frame, image 1 acquired and presented with
    success. *)
Lemma update_frame_chain_witness :
  drv_acquire steady_driver (history_at_acquire steady_driver first_frame)
    = (eSuccess, 1) ∧
  per_frame_data (app first_frame) !! N.to_nat 1 = Some (slot 1) ∧
  framebuffers (swapchain_data (app first_frame)) !! N.to_nat 1 = Some 32 ∧
  slots_cover_images steady_driver first_frame ∧
  ∃ w1,
    update steady_driver first_frame = Some (tt, w1) ∧
    calls w1 =
      [CreateSemaphore 100;
       AcquireNextImageKHR 5 UINT64_MAX 100 eSuccess 1;
       WaitForFences 41 true UINT64_MAX; ResetFences 41; ResetCommandPool 51;
       CmdBegin 61 true; CmdBeginRenderPass 61 6 32 extent_800x600;
       CmdBindPipeline 61 7; CmdSetViewport 61 extent_800x600;
       CmdSetScissor 61 extent_800x600; CmdDraw 61 3 1 0 0; CmdEndRenderPass 61;
       CmdEnd 61;
       CreateSemaphore 113;
       QueueSubmit 100 PIPELINE_STAGE_COLOR_ATTACHMENT_OUTPUT_BIT 61 113 41;
       QueuePresentKHR 113 5 1 eSuccess].
Proof.
  assert (H1 : drv_acquire steady_driver (history_at_acquire steady_driver first_frame)
               = (eSuccess, 1)) by reflexivity.
  assert (H2 : per_frame_data (app first_frame) !! N.to_nat 1 = Some (slot 1))
    by reflexivity.
  assert (H3 : framebuffers (swapchain_data (app first_frame)) !! N.to_nat 1 = Some 32)
    by reflexivity.
  assert (H4 : slots_cover_images steady_driver first_frame)
    by (apply three_slots_cover; reflexivity).
  split; [exact H1 |]. split; [exact H2 |]. split; [exact H3 |]. split; [exact H4 |].
  pose proof (update_frame_chain steady_driver first_frame 1 (slot 1) 32 H1 H2 H3 H4) as H.
  cbv zeta in H. destruct H as (w1 & after & Hrun & Hcalls & _ & _ & Hok).
  destruct Hok as [-> _]; [reflexivity |].
  exists w1. split; [exact Hrun |]. rewrite Hcalls. reflexivity.
Defined.

(** Instance for X9: the first build of [prepare]. *)
Lemma init_swapchain_first_build_witness :
  is_set (swapchain (swapchain_data (app unbuilt))) = false ∧
  ∃ w1 d,
    init_swapchain steady_driver unbuilt = Some (tt, w1) ∧
    calls w1 = d ∧
    count is_destruction d = 0%nat ∧
    count is_swapchain_creation d = 1%nat.
Proof.
  assert (H1 : is_set (swapchain (swapchain_data (app unbuilt))) = false) by reflexivity.
  split; [exact H1 |].
  destruct (init_swapchain_first_build steady_driver unbuilt H1)
    as (w1 & d & info & images & Hrun & Hcalls & Hd & _ & Hn & _).
  exists w1, d. split; [exact Hrun |]. split; [exact Hcalls |]. split; [exact Hd | exact Hn].
Defined.

(** Instance for X10: the first frame, rebuilt for a resized window. *)
Lemma init_swapchain_retires_old_witness :
  is_set (swapchain (swapchain_data (app first_frame))) = true ∧
  slots_cover_images stale_twice_resized first_frame ∧
  ∃ w1 info,
    init_swapchain stale_twice_resized first_frame = Some (tt, w1) ∧
    ci_oldSwapchain info = 5 ∧
    DestroySwapchainKHR 5 ∈ calls w1 ∧
    length (image_views (swapchain_data (app w1))) = length (per_frame_data (app w1)).
Proof.
  assert (H1 : is_set (swapchain (swapchain_data (app first_frame))) = true)
    by reflexivity.
  assert (H2 : slots_cover_images stale_twice_resized first_frame)
    by (apply three_slots_cover; reflexivity).
  split; [exact H1 |]. split; [exact H2 |].
  pose proof (init_swapchain_retires_old stale_twice_resized first_frame H1 H2) as H.
  cbv zeta in H.
  destruct H as (w1 & before & info & old_images & after & Hrun & Hcalls & Hold & _ & _ &
                 _ & _ & _ & Hlen & _).
  exists w1, info. split; [exact Hrun |]. split; [exact Hold |]. split; [| exact Hlen].
  rewrite Hcalls. rewrite !elem_of_app. right. right. right. right. right. right. left.
  left.
Defined.

(** Instance for X11: [resize] on the first frame after the window went
    from 800x600 to 1024x768. *)
Lemma resize_rebuild_sizes_witness :
  extent_changed stale_twice_resized first_frame = true ∧
  is_set (swapchain (swapchain_data (app first_frame))) = true ∧
  slots_cover_images stale_twice_resized first_frame ∧
  ∃ w1 (images : list N),
    resize stale_twice_resized 1024 768 first_frame = Some (true, w1) ∧
    length (per_frame_data (app w1)) = length images ∧
    length (image_views (swapchain_data (app w1))) = length images ∧
    length (framebuffers (swapchain_data (app w1))) = length images.
Proof.
  assert (H1 : extent_changed stale_twice_resized first_frame = true) by reflexivity.
  assert (H2 : is_set (swapchain (swapchain_data (app first_frame))) = true)
    by reflexivity.
  assert (H3 : slots_cover_images stale_twice_resized first_frame)
    by (apply three_slots_cover; reflexivity).
  split; [exact H1 |]. split; [exact H2 |]. split; [exact H3 |].
  destruct (resize_rebuild_sizes stale_twice_resized 1024 768 first_frame H1 H2 H3)
    as (w1 & images & Hrun & _ & Hslots & Hviews & Hfbs & _).
  exists w1, images. split; [exact Hrun |]. split; [exact Hslots |].
  split; [exact Hviews | exact Hfbs].
Defined.

(** Instance for X12: the window stays at 1024x768. *)
Lemma resize_settles_witness :
  (∀ tr, currentExtent (drv_surface_capabilities stale_twice_resized tr)
         = extent_1024x768) ∧
  width extent_1024x768 ≠ UINT32_MAX ∧
  is_set (device (app first_frame)) = true ∧
  slots_cover_images stale_twice_resized first_frame ∧
  ∃ rebuilt w1 w2,
    resize stale_twice_resized 1024 768 first_frame = Some (rebuilt, w1) ∧
    extent (swapchain_data (app w1)) = extent_1024x768 ∧
    resize stale_twice_resized 1024 768 w1 = Some (false, w2) ∧
    app w2 = app w1.
Proof.
  assert (H1 : ∀ tr, currentExtent (drv_surface_capabilities stale_twice_resized tr)
                     = extent_1024x768) by (intros tr; reflexivity).
  assert (H2 : width extent_1024x768 ≠ UINT32_MAX) by (vm_compute; discriminate).
  assert (H3 : is_set (device (app first_frame)) = true) by reflexivity.
  assert (H4 : slots_cover_images stale_twice_resized first_frame)
    by (apply three_slots_cover; reflexivity).
  split; [exact H1 |]. split; [exact H2 |]. split; [exact H3 |]. split; [exact H4 |].
  destruct (resize_settles stale_twice_resized 1024 768 1024 768 first_frame
              extent_1024x768 H1 H2 H3 H4)
    as (rebuilt & w1 & w2 & Hrun1 & Hext & Hrun2 & Happ & _).
  exists rebuilt, w1, w2. split; [exact Hrun1 |]. split; [exact Hext |].
  split; [exact Hrun2 | exact Happ].
Defined.

(** Instance for X13: a surface whose size is determined by the
    swapchain. *)
Lemma resize_undefined_extent_rebuilds_again_witness :
  (∀ tr, currentExtent (drv_surface_capabilities undefined_extent_driver tr)
         = undefined_extent) ∧
  extent (swapchain_data (app first_frame)) ≠ undefined_extent ∧
  is_set (device (app first_frame)) = true ∧
  slots_cover_images undefined_extent_driver first_frame ∧
  ∃ w1,
    resize undefined_extent_driver 800 600 first_frame = Some (true, w1) ∧
    extent (swapchain_data (app w1)) = extent_800x600 ∧
    extent_changed undefined_extent_driver w1 = true.
Proof.
  assert (H1 : ∀ tr, currentExtent (drv_surface_capabilities undefined_extent_driver tr)
                     = undefined_extent) by (intros tr; reflexivity).
  assert (H2 : extent (swapchain_data (app first_frame)) ≠ undefined_extent)
    by (vm_compute; discriminate).
  assert (H3 : is_set (device (app first_frame)) = true) by reflexivity.
  assert (H4 : slots_cover_images undefined_extent_driver first_frame)
    by (apply three_slots_cover; reflexivity).
  split; [exact H1 |]. split; [exact H2 |]. split; [exact H3 |]. split; [exact H4 |].
  destruct (resize_undefined_extent_rebuilds_again undefined_extent_driver 800 600
              first_frame H1 H2 H3 H4)
    as (w1 & Hrun & _ & Hext & Hchanged).
  exists w1. split; [exact Hrun |]. split; [exact Hext | exact Hchanged].
Defined.

(** Instance for X17: a compute-only device is passed over, the second
    device has graphics and presentation on family 1. *)
Lemma select_physical_device_first_suitable_witness :
  select_physical_device_and_surface [compute_gpu; graphics_gpu] blank_sample
    = Returned (selection.1, selection.2) ∧
  ((∃ g, g ∈ [compute_gpu; graphics_gpu] ∧
         suitable g (graphics_queue_index selection.1) = true ∧
         gpu selection.1 = physical_device g ∧
         surface selection.1 = create_surface g) ∨
   graphics_queue_index selection.1 = graphics_queue_index blank_sample).
Proof.
  assert (H1 : select_physical_device_and_surface [compute_gpu; graphics_gpu] blank_sample
               = Returned (selection.1, selection.2)) by reflexivity.
  split; [exact H1 |].
  destruct (select_physical_device_first_suitable _ _ _ _ H1)
    as [(skipped & g & rest & Hgpus & _ & Hj & _ & _ & Hgpu & Hsurface & _) |
        (_ & Hindex & _)].
  - left. exists g. split; [| now repeat split].
    rewrite Hgpus. apply elem_of_app. right. left.
  - right. exact Hindex.
Defined.

(** Instance for X18: the surface of the device passed over is destroyed,
    that of the selected device is kept. *)
Lemma select_physical_device_surfaces_witness :
  select_physical_device_and_surface [compute_gpu; graphics_gpu] blank_sample
    = Returned (selection.1, selection.2) ∧
  surfaces_destroyed selection.2 = [81] ∧
  surface selection.1 = 82.
Proof.
  assert (H1 : select_physical_device_and_surface [compute_gpu; graphics_gpu] blank_sample
               = Returned (selection.1, selection.2)) by reflexivity.
  split; [exact H1 |].
  destruct (select_physical_device_surfaces _ _ _ _ H1) as [Hdestroyed Hsurface].
  split; [rewrite Hdestroyed | rewrite Hsurface]; reflexivity.
Defined.

(** Instance for X19: the second device has no queue family. *)
Lemma select_physical_device_throws_witness :
  select_physical_device_and_surface [compute_gpu; no_family_gpu; graphics_gpu]
    blank_sample = Thrown "No queue family found." ∧
  ∃ g, g ∈ [compute_gpu; no_family_gpu; graphics_gpu] ∧
       (getQueueFamilyProperties g = [] ∨ is_set (create_surface g) = false).
Proof.
  assert (H1 : select_physical_device_and_surface
                 [compute_gpu; no_family_gpu; graphics_gpu] blank_sample
               = Thrown "No queue family found.") by reflexivity.
  split; [exact H1 |].
  destruct (select_physical_device_throws _ _ _ H1)
    as (skipped & g & rest & Hgpus & _ & Hcase).
  exists g. split.
  - rewrite Hgpus. apply elem_of_app. right. left.
  - destruct Hcase as [[Hnone _] | (_ & Hsurface & _)]; [now left | now right].
Defined.

(** Instance for X21: the first build on [unbuilt], then the
    destructor. *)
Lemma first_build_released_witness :
  (∀ tr, drv_new_handle steady_driver tr ≠ VK_NULL_HANDLE) ∧
  swapchain (swapchain_data (app unbuilt)) = VK_NULL_HANDLE ∧
  image_views (swapchain_data (app unbuilt)) = [] ∧
  framebuffers (swapchain_data (app unbuilt)) = [] ∧
  recycled_semaphores (app unbuilt) = [] ∧
  ∃ w1 w2 s,
    init_swapchain steady_driver unbuilt = Some (tt, w1) ∧
    init_framebuffers steady_driver w1 = Some (tt, w2) ∧
    destructor {| members := app w2; bootstrap := some_bootstrap; issued := [] |}
      = Some (tt, s) ∧
    omap destroyed_handle (frame_calls (issued s)) ≡ₚ omap created_handle (calls w2).
Proof.
  assert (H1 : ∀ tr, drv_new_handle steady_driver tr ≠ VK_NULL_HANDLE).
  { intros tr. unfold VK_NULL_HANDLE. cbn. lia. }
  split; [exact H1 |]. do 4 (split; [reflexivity |]).
  destruct (first_build_released steady_driver unbuilt some_bootstrap H1
              eq_refl eq_refl eq_refl eq_refl)
    as (w1 & w2 & s & Hrun1 & Hrun2 & Hrun3 & Hbalance).
  exists w1, w2, s. split; [exact Hrun1 |]. split; [exact Hrun2 |].
  split; [exact Hrun3 | exact Hbalance].
Defined.

(** Instance for X22: [resize] on the first frame after the window went
    from 800x600 to 1024x768. *)
Lemma resize_rebuild_releases_witness :
  extent_changed stale_twice_resized first_frame = true ∧
  is_set (swapchain (swapchain_data (app first_frame))) = true ∧
  (∀ tr, length (drv_swapchain_images stale_twice_resized tr
                   (swapchain (swapchain_data (app first_frame))))
         = length (per_frame_data (app first_frame))) ∧
  ∃ w1,
    resize stale_twice_resized 1024 768 first_frame = Some (true, w1) ∧
    omap destroyed_handle (calls w1) =
      [31; 32; 33; 21; 22; 23; 40; 60; 50; 41; 61; 51; 42; 62; 52; 5].
Proof.
  assert (H1 : extent_changed stale_twice_resized first_frame = true) by reflexivity.
  assert (H2 : is_set (swapchain (swapchain_data (app first_frame))) = true)
    by reflexivity.
  assert (H3 : ∀ tr, length (drv_swapchain_images stale_twice_resized tr
                               (swapchain (swapchain_data (app first_frame))))
                     = length (per_frame_data (app first_frame)))
    by (intros tr; reflexivity).
  split; [exact H1 |]. split; [exact H2 |]. split; [exact H3 |].
  pose proof (resize_rebuild_releases stale_twice_resized 1024 768 first_frame H1 H2 H3)
    as H.
  cbv zeta in H. destruct H as (w1 & Hrun & Hdestroyed & _).
  exists w1. split; [exact Hrun |]. exact Hdestroyed.
Defined.

Local Close Scope N_scope.
